(** * Kadena Ledger host driver (ledger-kadena-js): a shallow embedding of
    [src/app.ts] and [src/types.ts], and the properties of its field
    encoding, parameter validation, chunked transfer, command document and
    digest identifier.

    Conventions of the embedding.
    - A JavaScript string is a [string]: each [ascii] is one UTF-16 code
      unit in the range 0..255 (the Latin-1 fragment), so [String.length]
      is [txt.length].  A code unit below 128 is one UTF-8 byte, a code unit
      in 128..255 is two UTF-8 bytes.
    - A [Buffer] is a [list Z] of bytes 0..255.
    - A number-typed parameter (chain ids, creation time) is an integer
      [Z], standing for an integer-valued number below 1e21 in magnitude,
      whose [toString] is its decimal rendering.  Strings converted with
      [Number(...)] are parsed by the StringNumericLiteral grammar and
      rounded to binary64 exactly.
    - [async]/[await] code is sequential: it is written in a state and
      error monad over the device session and the object store. *)

From Stdlib Require Import ZArith List String Ascii Bool Lia Arith DecimalString.
Import ListNotations.

Local Open Scope string_scope.
Local Open Scope Z_scope.
Local Open Scope list_scope.

(** String concatenation, JavaScript's [+] on strings. *)
Infix "+:+" := String.append (at level 60, right associativity).

(* ===================================================================== *)
(** ** JavaScript strings and buffers *)
(* ===================================================================== *)

Module JS.

Definition bytes := list Z.

(** The UTF-16 code unit of a character. *)
Definition code (c : ascii) : Z := Z.of_N (N_of_ascii c).

Definition chars (s : string) : list ascii := list_ascii_of_string s.

(** [s.length] *)
Definition strlen (s : string) : nat := String.length s.

(** The UTF-8 encoding of one code unit of the Latin-1 fragment. *)
Definition utf8_char (c : ascii) : bytes :=
  let n := code c in
  if n <? 128 then [n]
  else [Z.lor 192 (Z.shiftr n 6); Z.lor 128 (Z.land n 63)].

(** [Buffer.from(s)] / [Buffer.from(s, "utf-8")] *)
Definition utf8 (s : string) : bytes := flat_map utf8_char (chars s).

(** [Buffer.byteLength(s)] *)
Definition byteLength (s : string) : nat := List.length (utf8 s).

(** The bytes [buf.write(s, offset, "utf-8")] stores when [cap] bytes are
    left: the encodings of the leading characters as long as each fits
    whole; a partially encoded character is never written. *)
Fixpoint utf8_fit (cap : nat) (cs : list ascii) : bytes :=
  match cs with
  | [] => []
  | c :: cs' =>
      let e := utf8_char c in
      if (List.length e <=? cap)%nat
      then e ++ utf8_fit (cap - List.length e) cs'
      else []
  end.

(** [Buffer.alloc(n)]: [n] zero bytes. *)
Definition Buffer_alloc (n : nat) : bytes := repeat 0 n.

(** [buf[i] = v] on a [Uint8Array]: the value is stored modulo 256, an
    index out of range is ignored. *)
Fixpoint buf_set (buf : bytes) (i : nat) (v : Z) : bytes :=
  match buf, i with
  | [], _ => []
  | _ :: tl, O => (v mod 256) :: tl
  | b :: tl, S i' => b :: buf_set tl i' v
  end.

(** [buf.write(s, offset, "utf-8")], for [offset <= buf.length]. *)
Definition Buffer_write (buf : bytes) (s : string) (offset : nat) : bytes :=
  let w := utf8_fit (List.length buf - offset) (chars s) in
  firstn offset buf ++ w ++ skipn (offset + List.length w) buf.

(** [s.startsWith(p)] *)
Definition startsWith (s p : string) : bool := String.prefix p s.

(** [s.substring(n)] *)
Definition substring_from (n : nat) (s : string) : string :=
  String.substring n (String.length s - n) s.

(** [s.includes(".")] for a one-character needle. *)
Definition includes_char (c : ascii) (s : string) : bool :=
  existsb (Ascii.eqb c) (chars s).

(** [n.toString()] for an integer-valued number. *)
Definition Z_toString (n : Z) : string := NilZero.string_of_int (Z.to_int n).

(** *** Numbers: [Number(s)], [isNaN], [Number.isInteger], [==] *)

(** A binary64 value: not-a-number, an infinity, or the finite value
    [(-1)^neg * num * 2^e2] with [0 <= num]. *)
Inductive number : Type :=
| NaN
| Infinity (neg : bool)
| Finite (neg : bool) (num : Z) (e2 : Z).

(** StrWhiteSpaceChar of the Latin-1 fragment: TAB, LF, VT, FF, CR, SP,
    NBSP. *)
Definition is_ws (c : ascii) : bool :=
  let n := code c in
  (9 <=? n) && (n <=? 13) || (n =? 32) || (n =? 160).

Fixpoint drop_ws (cs : list ascii) : list ascii :=
  match cs with
  | c :: cs' => if is_ws c then drop_ws cs' else cs
  | [] => []
  end.

Definition trim (cs : list ascii) : list ascii :=
  rev (drop_ws (rev (drop_ws cs))).

(** The value of a digit in a radix up to 16, if it is one. *)
Definition digit_val (radix : Z) (c : ascii) : option Z :=
  let n := code c in
  let v := if (48 <=? n) && (n <=? 57) then n - 48
           else if (97 <=? n) && (n <=? 102) then n - 87
           else if (65 <=? n) && (n <=? 70) then n - 55
           else 16 in
  if v <? radix then Some v else None.

Definition is_digit (radix : Z) (c : ascii) : bool :=
  match digit_val radix c with Some _ => true | None => false end.

(** The longest prefix of digits, and the rest. *)
Fixpoint span_digits (radix : Z) (cs : list ascii) : list ascii * list ascii :=
  match cs with
  | c :: cs' =>
      if is_digit radix c
      then let (ds, r) := span_digits radix cs' in (c :: ds, r)
      else ([], cs)
  | [] => ([], [])
  end.

Definition digits_value (radix : Z) (ds : list ascii) : Z :=
  fold_left (fun a c => a * radix + match digit_val radix c with
                                     | Some v => v | None => 0 end) ds 0.

(** Round the positive rational [p / q] to the nearest binary64, ties to
    even; [None] is overflow to infinity. *)
Definition round64 (p q : Z) : option (Z * Z) :=
  let k0 := Z.log2 p - Z.log2 q in
  let k := if q * 2 ^ Z.max 0 k0 <=? p * 2 ^ Z.max 0 (- k0) then k0 else k0 - 1 in
  let x := Z.max k (-1022) - 52 in
  let num := p * 2 ^ Z.max 0 (- x) in
  let den := q * 2 ^ Z.max 0 x in
  let fl := num / den in
  let r := num mod den in
  let n := if 2 * r <? den then fl
           else if den <? 2 * r then fl + 1
           else if Z.even fl then fl else fl + 1 in
  if (971 <? x) || ((x =? 971) && (2 ^ 53 <=? n)) then None else Some (n, x).

(** The binary64 nearest to [m * 10^e10], for [0 <= m]. *)
Definition decimal_to_number (neg : bool) (m e10 : Z) : number :=
  if m =? 0 then Finite neg 0 0
  else match round64 (m * 10 ^ Z.max 0 e10) (10 ^ Z.max 0 (- e10)) with
       | Some (n, x) => Finite neg n x
       | None => Infinity neg
       end.

(** An optional sign. *)
Definition take_sign (cs : list ascii) : bool * list ascii :=
  match cs with
  | "+"%char :: r => (false, r)
  | "-"%char :: r => (true, r)
  | _ => (false, cs)
  end.

(** ExponentPart, or nothing: the decimal exponent, if well formed. *)
Definition parse_exponent (cs : list ascii) : option Z :=
  match cs with
  | [] => Some 0
  | c :: r =>
      if (Ascii.eqb c "e" || Ascii.eqb c "E")%bool then
        let (neg, r1) := take_sign r in
        match span_digits 10 r1 with
        | ([], _) => None
        | (ds, []) => Some (if neg then - digits_value 10 ds else digits_value 10 ds)
        | (_, _ :: _) => None
        end
      else None
  end.

(** StrUnsignedDecimalLiteral, after the sign. *)
Definition parse_unsigned_decimal (neg : bool) (cs : list ascii) : number :=
  if list_eq_dec ascii_dec cs (chars "Infinity") then Infinity neg
  else
    let (ip, r1) := span_digits 10 cs in
    let '(fp, r2) := match r1 with
                     | "."%char :: r => span_digits 10 r
                     | _ => ([], r1)
                     end in
    match ip ++ fp with
    | [] => NaN
    | ds => match parse_exponent r2 with
            | Some e => decimal_to_number neg (digits_value 10 ds)
                          (e - Z.of_nat (List.length fp))
            | None => NaN
            end
    end.

(** NonDecimalIntegerLiteral: the digits after [0x], [0o] or [0b]. *)
Definition parse_radix (radix : Z) (cs : list ascii) : number :=
  match span_digits radix cs with
  | ([], _) => NaN
  | (ds, []) => decimal_to_number false (digits_value radix ds) 0
  | (_, _ :: _) => NaN
  end.

(** [Number(s)]: StringToNumber. *)
Definition Number (s : string) : number :=
  match trim (chars s) with
  | [] => Finite false 0 0
  | "0"%char :: c :: r =>
      if (Ascii.eqb c "x" || Ascii.eqb c "X")%bool then parse_radix 16 r
      else if (Ascii.eqb c "o" || Ascii.eqb c "O")%bool then parse_radix 8 r
      else if (Ascii.eqb c "b" || Ascii.eqb c "B")%bool then parse_radix 2 r
      else parse_unsigned_decimal false ("0"%char :: c :: r)
  | cs => let (neg, r) := take_sign cs in parse_unsigned_decimal neg r
  end.

(** [isNaN(x)] on a number. *)
Definition isNaN (x : number) : bool :=
  match x with NaN => true | _ => false end.

(** [Number.isInteger(x)] *)
Definition isInteger (x : number) : bool :=
  match x with
  | Finite _ n x => if 0 <=? x then true else n mod 2 ^ (- x) =? 0
  | _ => false
  end.

(** [x == z] for a binary64 [x] and an integer-valued number [z]. *)
Definition number_eq_Z (x : number) (z : Z) : bool :=
  match x with
  | Finite neg n x =>
      let v := if neg then - n else n in
      if 0 <=? x then v * 2 ^ x =? z else v =? z * 2 ^ (- x)
  | _ => false
  end.

End JS.

(* ===================================================================== *)
(** ** Field encoder ([textPayload], app.ts 460-466) *)
(* ===================================================================== *)

Definition textPayload (txt : string) : JS.bytes :=
  (* 1 byte: length *)
  let payload := JS.Buffer_alloc (1 + JS.strlen txt)%nat in
  let payload := JS.buf_set payload 0 (Z.of_nat (JS.strlen txt)) in
  let payload := JS.Buffer_write payload txt 1 in
  payload.

(* ===================================================================== *)
(** ** Data model ([types.ts]) *)
(* ===================================================================== *)

(** A parameter that arrives as a number or as a string ([amount] is a
    decimal string or a number, a chain id a number or its text). *)
Inductive scalar : Type :=
| Num (n : Z)
| Str (s : string).

(** What a dynamic property read [params[key]] can yield. *)
Inductive value : Type :=
| VUndefined
| VNum (n : Z)
| VStr (s : string).

Definition value_of_scalar (v : scalar) : value :=
  match v with Num n => VNum n | Str s => VStr s end.

Definition value_of_opt_string (v : option string) : value :=
  match v with Some s => VStr s | None => VUndefined end.

Definition value_of_opt_number (v : option Z) : value :=
  match v with Some n => VNum n | None => VUndefined end.

(** [v.toString()] on a number or a string. *)
Definition scalar_toString (v : scalar) : string :=
  match v with Num n => JS.Z_toString n | Str s => s end.

(** The text a value contributes to a string concatenation [".." + v]. *)
Definition value_concat (v : value) : string :=
  match v with
  | VUndefined => "undefined"
  | VNum n => JS.Z_toString n
  | VStr s => s
  end.

(** [(v || "").toString()]: [undefined], [0] and [""] are falsy.  (So is
    [NaN], which the integer-valued numbers of this embedding do not
    include.) *)
Definition or_empty_toString (v : value) : string :=
  match v with
  | VUndefined => ""
  | VNum n => if n =? 0 then "" else JS.Z_toString n
  | VStr s => s
  end.

Inductive TransferTxType : Type :=
| TRANSFER
| TRANSFER_CREATE
| TRANSFER_CROSS_CHAIN.

Definition txType_tag (t : TransferTxType) : Z :=
  match t with
  | TRANSFER => 0
  | TRANSFER_CREATE => 1
  | TRANSFER_CROSS_CHAIN => 2
  end.

(** [TransferCrossChainTxParams]; a [TransferTxParams] is the same record
    with [recipient_chainId] absent ([None]).  An optional property that
    is absent reads as [undefined]. *)
Record TransferCrossChainTxParams : Type := mkParams {
  path : option string;
  namespace : option string;
  module_ : option string;
  recipient : string;
  amount : scalar;
  chainId : scalar;
  network : string;
  gasPrice : option string;
  gasLimit : option string;
  creationTime : option Z;
  ttl : option string;
  nonce : option string;
  recipient_chainId : option Z
}.

(** [p.recipient_chainId = v] *)
Definition set_recipient_chainId (v : Z) (p : TransferCrossChainTxParams)
  : TransferCrossChainTxParams :=
  mkParams (path p) (namespace p) (module_ p) (recipient p) (amount p)
           (chainId p) (network p) (gasPrice p) (gasLimit p)
           (creationTime p) (ttl p) (nonce p) (Some v).

(** [maxLengths], in the order [Object.entries] enumerates it. *)
Definition maxLengths : list (string * nat) :=
  [ ("recipient", 64); ("namespace", 16); ("module", 32);
    ("recipient_chainId", 2); ("network", 20); ("amount", 32);
    ("gasPrice", 20); ("gasLimit", 10); ("creationTime", 12);
    ("chainId", 2); ("nonce", 32); ("ttl", 20) ]%nat.

(** [params[key]] *)
Definition get_field (key : string) (p : TransferCrossChainTxParams) : value :=
  if String.eqb key "path" then value_of_opt_string (path p)
  else if String.eqb key "namespace" then value_of_opt_string (namespace p)
  else if String.eqb key "module" then value_of_opt_string (module_ p)
  else if String.eqb key "recipient" then VStr (recipient p)
  else if String.eqb key "amount" then value_of_scalar (amount p)
  else if String.eqb key "chainId" then value_of_scalar (chainId p)
  else if String.eqb key "network" then VStr (network p)
  else if String.eqb key "gasPrice" then value_of_opt_string (gasPrice p)
  else if String.eqb key "gasLimit" then value_of_opt_string (gasLimit p)
  else if String.eqb key "creationTime" then value_of_opt_number (creationTime p)
  else if String.eqb key "ttl" then value_of_opt_string (ttl p)
  else if String.eqb key "nonce" then value_of_opt_string (nonce p)
  else if String.eqb key "recipient_chainId"
       then value_of_opt_number (recipient_chainId p)
  else VUndefined.

(** What the operations throw. *)
Inductive error : Type :=
| TypeError (message : string)
| ResponseError (returnCode : Z) (errorMessage : string).

Definition result (A : Type) : Type := (error + A)%type.

(* ===================================================================== *)
(** ** Amount normalization ([convertDecimal], app.ts 468-478) *)
(* ===================================================================== *)

Definition convertDecimal (decimal : scalar) : string :=
  let decimalStr := scalar_toString decimal in
  if JS.includes_char "." decimalStr then decimalStr
  else
    let numValue := JS.Number decimalStr in
    if JS.isInteger numValue then decimalStr +:+ ".0"
    else decimalStr.

(* ===================================================================== *)
(** ** Parameter validation ([checkTransferTxParamsSanity], app.ts 280-324) *)
(* ===================================================================== *)

(** The character class [[0-9A-Fa-f]]. *)
Definition is_hex (c : ascii) : bool := JS.is_digit 16 c.

(** A run of [n] consecutive hexadecimal characters occurs in [cs], when
    [k] of them have just been read. *)
Fixpoint hex_run (n k : nat) (cs : list ascii) : bool :=
  if (n <=? k)%nat then true
  else match cs with
       | [] => false
       | c :: r => if is_hex c then hex_run n (S k) r else hex_run n 0 r
       end.

(** [s.match(/[0-9A-Fa-f]{64}/g)] is not [null]: the pattern is not
    anchored, it matches anywhere in [s]. *)
Definition match_hex64 (s : string) : bool := hex_run 64 0 (JS.chars s).

(** The recipient without its ["k:"] prefix. *)
Definition strip_k (r : string) : string :=
  if JS.startsWith r "k:" then JS.substring_from 2 r else r.

(** The local [isNaN_]: [undefined] is not reported; anything else is
    converted to a number and tested.  A number of this embedding is
    integer-valued, hence not [NaN]. *)
Definition isNaN_ (v : value) : bool :=
  match v with
  | VUndefined => false
  | VNum _ => false
  | VStr s => JS.isNaN (JS.Number s)
  end.

(** The body of the loop over [Object.entries(maxLengths)]. *)
Fixpoint check_lengths (recipient : string) (params : TransferCrossChainTxParams)
    (entries : list (string * nat)) : result unit :=
  match entries with
  | [] => inr tt
  | (key, maxLength) :: rest =>
      let value := if String.eqb key "recipient" then VStr recipient
                   else get_field key params in
      let strValue := or_empty_toString value in
      if String.eqb key "recipient"
         && negb (JS.strlen strValue =? maxLength)%nat
      then inl (TypeError (key +:+ " should be exactly "
                             +:+ JS.Z_toString (Z.of_nat maxLength)
                             +:+ " characters long"))
      else if (maxLength <? JS.strlen strValue)%nat
      then inl (TypeError (key +:+ " should be "
                             +:+ JS.Z_toString (Z.of_nat maxLength)
                             +:+ " characters or less"))
      else check_lengths recipient params rest
  end.

Definition checkTransferTxParamsSanity (params : TransferCrossChainTxParams)
  : result unit :=
  let recipient := strip_k (recipient params) in
  if negb (match_hex64 recipient)
  then inl (TypeError "Recipient should be a hex encoded pubkey or 'k:' address")
  else
  let namespace_ := match namespace params with None => "" | Some n => n end in
  let module_ := match module_ params with None => "" | Some m => m end in
  if negb (String.eqb namespace_ "") && String.eqb module_ ""
  then inl (TypeError "Along with 'namespace' 'module' need to be specified")
  else
  if isNaN_ (value_of_scalar (amount params))
  then inl (TypeError "amount is non a number") else
  if isNaN_ (value_of_opt_string (gasPrice params))
  then inl (TypeError "gasPrice is non a number") else
  if isNaN_ (value_of_opt_string (gasLimit params))
  then inl (TypeError "gasLimit is non a number") else
  if isNaN_ (value_of_opt_number (creationTime params))
  then inl (TypeError "creationTime is non a number") else
  if isNaN_ (value_of_opt_string (ttl params))
  then inl (TypeError "ttl is non a number") else
  check_lengths recipient params maxLengths.

Definition hex64 : string :=
  "0123456789abcdef0123456789ABCDEF0123456789abcdef0123456789ABCDEF".

Definition sample_params : TransferCrossChainTxParams :=
  mkParams None None None hex64 (Str "10") (Num 0) "testnet"
           None None (Some 1700000000) None None None.

(* ===================================================================== *)
(** ** Command document ([buildTransferJson], app.ts 326-457) *)
(* ===================================================================== *)

(** The templates below are written with ['] where the document has a
    double quote; [tpl] puts the double quotes in. *)
Definition tpl_char (c : ascii) : ascii :=
  if Ascii.eqb c "'" then ascii_of_nat 34 else c.

Fixpoint tpl (s : string) : string :=
  match s with
  | EmptyString => EmptyString
  | String c r => String (tpl_char c) (tpl r)
  end.

Definition buildTransferJson (params : TransferCrossChainTxParams)
    (txType : Z) (pubkey : string) (creationTime : Z) : result string :=
  (* Build the JSON, exactly like the Ledger app *)
  let recipient := strip_k (recipient params) in
  let namespace_ := match namespace params with None => "" | Some n => n end in
  let module_ := match module_ params with None => "" | Some m => m end in
  let amount := value_concat (value_of_scalar (amount params)) in
  let cmd := tpl "{'networkId':'" +:+ network params +:+ tpl "'" in
  let body : result string :=
    if txType =? 0 then
      let cmd := cmd +:+ tpl ",'payload':{'exec':{'data':{},'code':'" in
      let cmd := if String.eqb namespace_ "" then cmd +:+ "(coin.transfer"
                 else cmd +:+ "(" +:+ namespace_ +:+ "." +:+ module_ +:+ ".transfer" in
      let cmd := cmd +:+ tpl " \'k:" +:+ pubkey +:+ tpl "\'" in
      let cmd := cmd +:+ tpl " \'k:" +:+ recipient +:+ tpl "\'" in
      let cmd := cmd +:+ " " +:+ amount +:+ tpl ")'}}" in
      let cmd := cmd +:+ tpl ",'signers':[{'pubKey':'" +:+ pubkey +:+ tpl "'" in
      let cmd := cmd +:+ tpl ",'clist':[{'args':['k:" +:+ pubkey +:+ tpl "','k:"
                     +:+ recipient +:+ tpl "'," +:+ amount +:+ "]" in
      inr (if String.eqb namespace_ "" then
             cmd +:+ tpl ",'name':'coin.TRANSFER'},{'args':[],'name':'coin.GAS'}]}]"
           else
             cmd +:+ tpl ",'name':'" +:+ namespace_ +:+ "." +:+ module_
                 +:+ tpl ".TRANSFER'},{'args':[],'name':'coin.GAS'}]}]")
    else if txType =? 1 then
      let cmd := cmd +:+ tpl ",'payload':{'exec':{'data':{" in
      let cmd := cmd +:+ tpl "'ks':{'pred':'keys-all','keys':['" +:+ recipient
                     +:+ tpl "']}" in
      let cmd := cmd +:+ tpl "},'code':'" in
      let cmd := if String.eqb namespace_ "" then cmd +:+ "(coin.transfer-create"
                 else cmd +:+ "(" +:+ namespace_ +:+ "." +:+ module_
                          +:+ ".transfer-create" in
      let cmd := cmd +:+ tpl " \'k:" +:+ pubkey +:+ tpl "\'" in
      let cmd := cmd +:+ tpl " \'k:" +:+ recipient +:+ tpl "\'" in
      let cmd := cmd +:+ tpl " (read-keyset \'ks\')" in
      let cmd := cmd +:+ " " +:+ amount +:+ tpl ")'}}" in
      let cmd := cmd +:+ tpl ",'signers':[{'pubKey':'" +:+ pubkey +:+ tpl "'" in
      let cmd := cmd +:+ tpl ",'clist':[{'args':['k:" +:+ pubkey +:+ tpl "','k:"
                     +:+ recipient +:+ tpl "'," +:+ amount +:+ "]" in
      inr (if String.eqb namespace_ "" then
             cmd +:+ tpl ",'name':'coin.TRANSFER'},{'args':[],'name':'coin.GAS'}]}]"
           else
             cmd +:+ tpl ",'name':'" +:+ namespace_ +:+ "." +:+ module_
                 +:+ tpl ".TRANSFER'},{'args':[],'name':'coin.GAS'}]}]")
    else
      match recipient_chainId params with
      | None =>
          inl (TypeError "Cannot read properties of undefined (reading 'toString')")
      | Some rc =>
          let cmd := cmd +:+ tpl ",'payload':{'exec':{'data':{" in
          let cmd := cmd +:+ tpl "'ks':{'pred':'keys-all','keys':['" +:+ recipient
                         +:+ tpl "']}" in
          let cmd := cmd +:+ tpl "},'code':'" in
          let cmd := if String.eqb namespace_ "" then
                       cmd +:+ "(coin.transfer-crosschain"
                     else cmd +:+ "(" +:+ namespace_ +:+ "." +:+ module_
                              +:+ ".transfer-crosschain" in
          let cmd := cmd +:+ tpl " \'k:" +:+ pubkey +:+ tpl "\'" in
          let cmd := cmd +:+ tpl " \'k:" +:+ recipient +:+ tpl "\'" in
          let cmd := cmd +:+ tpl " (read-keyset \'ks\')" in
          let cmd := cmd +:+ tpl " \'" +:+ JS.Z_toString rc +:+ tpl "\'" in
          let cmd := cmd +:+ " " +:+ amount +:+ tpl ")'}}" in
          let cmd := cmd +:+ tpl ",'signers':[{'pubKey':'" +:+ pubkey +:+ tpl "'" in
          let cmd := cmd +:+ tpl ",'clist':[{'args':['k:" +:+ pubkey +:+ tpl "','k:"
                         +:+ recipient +:+ tpl "'," +:+ amount +:+ tpl ",'"
                         +:+ JS.Z_toString rc +:+ tpl "']" in
          inr (if String.eqb namespace_ "" then
                 cmd +:+ tpl ",'name':'coin.TRANSFER_XCHAIN'},{'args':[],'name':'coin.GAS'}]}]"
               else
                 cmd +:+ tpl ",'name':'" +:+ namespace_ +:+ "." +:+ module_
                     +:+ tpl ".TRANSFER_XCHAIN'},{'args':[],'name':'coin.GAS'}]}]")
      end in
  match body with
  | inl e => inl e
  | inr cmd =>
      let cmd := cmd +:+ tpl ",'meta':{'creationTime':" +:+ JS.Z_toString creationTime in
      let cmd := cmd +:+ tpl ",'ttl':" +:+ value_concat (value_of_opt_string (ttl params))
                     +:+ tpl ",'gasLimit':"
                     +:+ value_concat (value_of_opt_string (gasLimit params))
                     +:+ tpl ",'chainId':'" +:+ scalar_toString (chainId params)
                     +:+ tpl "'" in
      let cmd := cmd +:+ tpl ",'gasPrice':"
                     +:+ value_concat (value_of_opt_string (gasPrice params))
                     +:+ tpl ",'sender':'k:" +:+ pubkey
                     +:+ tpl "'},'nonce':'"
                     +:+ value_concat (value_of_opt_string (nonce params))
                     +:+ tpl "'}" in
      inr cmd
  end.

(* ===================================================================== *)
(** ** Payload assembly (the first half of [signTxInternal], app.ts 194-231) *)
(* ===================================================================== *)

(** The fields [signTxInternal] computes before it encodes them: the
    payload, and the creation time it passes on to [buildTransferJson].
    [now] is [new Date().getTime()], in milliseconds. *)
Definition signTxInternal_payload (now : Z) (params : TransferCrossChainTxParams)
    (txType : TransferTxType) : result (JS.bytes * Z) :=
  let recipient := strip_k (recipient params) in
  let namespace_ := match namespace params with None => "" | Some n => n end in
  let module_ := match module_ params with None => "" | Some m => m end in
  let amount := convertDecimal (amount params) in
  let gasPrice := match gasPrice params with None => "1.0e-6" | Some g => g end in
  let gasLimit := match gasLimit params with None => "2300" | Some g => g end in
  let creationTime := match creationTime params with
                      | None => now / 1000
                      | Some c => c
                      end in
  let ttl := match ttl params with None => "600" | Some t => t end in
  let nonce := match nonce params with None => "" | Some n => n end in
  let txTypeB := [txType_tag txType mod 256] in
  match recipient_chainId params with
  | None => inl (TypeError "Cannot read properties of undefined (reading 'toString')")
  | Some rc =>
      (* These are just squashed together *)
      let payload := List.concat
        [ txTypeB;
          textPayload recipient;
          textPayload (JS.Z_toString rc);
          textPayload (network params);
          textPayload amount;
          textPayload namespace_;
          textPayload module_;
          textPayload gasPrice;
          textPayload gasLimit;
          textPayload (JS.Z_toString creationTime);
          textPayload (scalar_toString (chainId params));
          textPayload nonce;
          textPayload ttl ] in
      inr (payload, creationTime)
  end.

(* ===================================================================== *)
(** ** Digest identifier (app.ts 259-268) *)
(* ===================================================================== *)

Module Base64.

Definition alphabet : string :=
  "ABCDEFGHIJKLMNOPQRSTUVWXYZabcdefghijklmnopqrstuvwxyz0123456789+/".

(** The character of a sextet. *)
Definition digit (n : Z) : ascii :=
  nth (Z.to_nat n) (JS.chars alphabet) "="%char.

(** [buf.toString("base64")]: three bytes become four characters, the
    last group is padded with ['=']. *)
Fixpoint encode (bs : JS.bytes) : list ascii :=
  match bs with
  | a :: b :: c :: r =>
      digit (Z.shiftr a 2)
      :: digit (Z.lor (Z.shiftl (Z.land a 3) 4) (Z.shiftr b 4))
      :: digit (Z.lor (Z.shiftl (Z.land b 15) 2) (Z.shiftr c 6))
      :: digit (Z.land c 63)
      :: encode r
  | [a; b] =>
      [ digit (Z.shiftr a 2);
        digit (Z.lor (Z.shiftl (Z.land a 3) 4) (Z.shiftr b 4));
        digit (Z.shiftl (Z.land b 15) 2);
        "="%char ]
  | [a] =>
      [ digit (Z.shiftr a 2); digit (Z.shiftl (Z.land a 3) 4);
        "="%char; "="%char ]
  | [] => []
  end.

(** [s.replace(/x/g, y)] for one character [x] and one character [y]. *)
Definition replace_all (x y : ascii) (cs : list ascii) : list ascii :=
  map (fun c => if Ascii.eqb c x then y else c) cs.

(** [s.replace(/x/g, "")] *)
Definition remove_all (x : ascii) (cs : list ascii) : list ascii :=
  filter (fun c => negb (Ascii.eqb c x)) cs.

End Base64.

(** [buf.toString("hex")] *)
Definition hex_digit (n : Z) : ascii :=
  nth (Z.to_nat n) (JS.chars "0123456789abcdef") "0"%char.

Definition Buffer_toString_hex (bs : JS.bytes) : string :=
  string_of_list_ascii
    (flat_map (fun b => [hex_digit (Z.shiftr b 4); hex_digit (Z.land b 15)]) bs).

(** The hash identifier of a command document, given the digest function
    ([blake2bInit(32)], [blake2bUpdate], [blake2bFinal] of blakejs). *)
Definition hash_of (blake2b : nat -> JS.bytes -> JS.bytes) (json : string) : string :=
  let jsonBuff := JS.utf8 json in
  let hash_bytes := blake2b 32%nat jsonBuff in
  string_of_list_ascii
    (Base64.remove_all "="
       (Base64.replace_all "/" "_"
          (Base64.replace_all "+" "-" (Base64.encode hash_bytes)))).

(* ===================================================================== *)
(** ** Decoding a hash argument ([Buffer.from(s, "hex" | "base64")]) *)
(* ===================================================================== *)

Module Decode.

(** [Buffer.from(s, "hex")]: pairs of hexadecimal digits, up to the first
    pair that is not one. *)
Fixpoint hex (cs : list ascii) : JS.bytes :=
  match cs with
  | a :: b :: r =>
      match JS.digit_val 16 a, JS.digit_val 16 b with
      | Some x, Some y => (16 * x + y) :: hex r
      | _, _ => []
      end
  | _ => []
  end.

(** The sextet of a base64 character; both the standard and the URL-safe
    alphabet are understood. *)
Definition unbase64 (c : ascii) : option Z :=
  let n := JS.code c in
  if (65 <=? n) && (n <=? 90) then Some (n - 65)
  else if (97 <=? n) && (n <=? 122) then Some (n - 71)
  else if (48 <=? n) && (n <=? 57) then Some (n + 4)
  else if (n =? 43) || (n =? 45) then Some 62
  else if (n =? 47) || (n =? 95) then Some 63
  else None.

(** The sextets up to the first ['=']; other characters are skipped. *)
Fixpoint sextets (cs : list ascii) : list Z :=
  match cs with
  | [] => []
  | c :: r =>
      match unbase64 c with
      | Some v => v :: sextets r
      | None => if Ascii.eqb c "=" then [] else sextets r
      end
  end.

Fixpoint group (ss : list Z) : JS.bytes :=
  match ss with
  | a :: b :: c :: d :: r =>
      Z.lor (Z.shiftl a 2) (Z.shiftr b 4)
      :: Z.lor (Z.shiftl (Z.land b 15) 4) (Z.shiftr c 2)
      :: Z.lor (Z.shiftl (Z.land c 3) 6) d
      :: group r
  | [a; b; c] =>
      [ Z.lor (Z.shiftl a 2) (Z.shiftr b 4);
        Z.lor (Z.shiftl (Z.land b 15) 4) (Z.shiftr c 2) ]
  | [a; b] => [ Z.lor (Z.shiftl a 2) (Z.shiftr b 4) ]
  | _ => []
  end.

(** [Buffer.from(s, "base64")] *)
Definition base64 (cs : list ascii) : JS.bytes := group (sextets cs).

End Decode.

Definition Buffer_from_hex (s : string) : JS.bytes := Decode.hex (JS.chars s).
Definition Buffer_from_base64 (s : string) : JS.bytes := Decode.base64 (JS.chars s).

(** The [hash] argument of [signHash]: [string | Buffer | Uint8Array]. *)
Inductive hash_input : Type :=
| HashString (s : string)
| HashBytes (b : JS.bytes).

(** [rawHash] of [signHash] (app.ts 121-126). *)
Definition rawHash (hash : hash_input) : JS.bytes :=
  match hash with
  | HashString s =>
      if (JS.strlen s =? 64)%nat
      then Buffer_from_hex s
      else Buffer_from_base64 s
  | HashBytes b => b
  end.

(* ===================================================================== *)
(** ** The application class [KadenaApp] (app.ts 36-278) *)
(* ===================================================================== *)

Definition CLA : Z := 0x00.
Definition INS_GET_VERSION : Z := 0x20.
Definition INS_GET_ADDR : Z := 0x21.
Definition INS_SIGN : Z := 0x22.
Definition INS_SIGN_HASH : Z := 0x23.
Definition INS_SIGN_TRANSFER_TX : Z := 0x24.

Definition P1_ONLY_RETRIEVE : Z := 0x00.
Definition P1_SHOW_ADDRESS_IN_DEVICE : Z := 0x01.

(** Modelled from the spec: [PUBKEYLEN] of [./consts], which is not among
    the sources; the public key is the first 32 bytes of an address
    response. *)
Definition PUBKEYLEN : nat := 32.

Record ResponseAddress : Type := { pubkey : JS.bytes; address : string }.
Record ResponseSign : Type := { signature : JS.bytes }.
Record ResponseSignTransfer : Type :=
  { tx_signature : JS.bytes; cmd : string; hash : string }.

(** A request to the device, as the transcript records it. *)
Inductive request : Type :=
| ReqChunk (ins : Z) (chunkIdx chunkNum : nat) (chunk : option JS.bytes)
| ReqSend (cla ins p1 p2 : Z) (data : JS.bytes).

Record event : Type := { ev_request : request; ev_outcome : result JS.bytes }.

(** A reference to a parameter record in the object store. *)
Definition ref : Type := nat.

Section KadenaApp.

(** The collaborators of [@zondax/ledger-js], [@ledgerhq/hw-transport] and
    [blakejs].  A derivation path is taken to be well formed: serializing
    it and preparing the chunks always succeed. *)
Variable Dev : Type.
Variable BIP32Path : Type.
Variable serializePath : BIP32Path -> JS.bytes.
Variable prepareChunks : BIP32Path -> JS.bytes -> list JS.bytes.
(** [BaseApp.signSendChunk(ins, chunkIdx, chunkNum, chunk)]: the payload
    of the processed response, or the error it throws. *)
Variable device_chunk :
  Z -> nat -> nat -> option JS.bytes -> Dev -> result JS.bytes * Dev.
(** [transport.send(cla, ins, p1, p2, data)] followed by
    [processResponse]. *)
Variable device_send :
  Z -> Z -> Z -> Z -> JS.bytes -> Dev -> result JS.bytes * Dev.
Variable processErrorResponse : error -> error.
Variable blake2b : nat -> JS.bytes -> JS.bytes.
(** [buf.toString()] *)
Variable Buffer_toString : JS.bytes -> string.

(** The state a call runs in: the device session, the transcript of the
    requests made so far with their outcomes, the objects of the caller,
    and the clock. *)
Record world : Type := mkWorld {
  device : Dev;
  trace : list event;
  heap : list TransferCrossChainTxParams;
  clock : Z
}.

(** Computations that read and change the world and may throw. *)
Definition M (A : Type) : Type := world -> result A * world.

Definition ret {A} (a : A) : M A := fun w => (inr a, w).

Definition throw {A} (e : error) : M A := fun w => (inl e, w).

Definition bind {A B} (m : M A) (k : A -> M B) : M B :=
  fun w => match m w with
           | (inr a, w') => k a w'
           | (inl e, w') => (inl e, w')
           end.

Definition try_catch {A} (m : M A) (h : error -> M A) : M A :=
  fun w => match m w with
           | (inr a, w') => (inr a, w')
           | (inl e, w') => h e w'
           end.

Definition lift {A} (r : result A) : M A := fun w => (r, w).

Notation "x <- m ;; k" := (bind m (fun x => k))
  (at level 61, m at next level, right associativity).

Definition deref (r : ref) : M TransferCrossChainTxParams :=
  fun w => match nth_error (heap w) r with
           | Some p => (inr p, w)
           | None => (inl (TypeError "Cannot read properties of undefined"), w)
           end.

Fixpoint list_set {A} (l : list A) (i : nat) (a : A) : list A :=
  match l, i with
  | [], _ => []
  | _ :: tl, O => a :: tl
  | x :: tl, S i' => x :: list_set tl i' a
  end.

(** [r.recipient_chainId = v] *)
Definition assign_recipient_chainId (r : ref) (v : Z) : M unit :=
  fun w => match nth_error (heap w) r with
           | Some p =>
               (inr tt, mkWorld (device w) (trace w)
                                (list_set (heap w) r (set_recipient_chainId v p))
                                (clock w))
           | None => (inl (TypeError "Cannot set properties of undefined"), w)
           end.

(** [new Date().getTime()] *)
Definition getTime : M Z := fun w => (inr (clock w), w).

(** [await this.signSendChunk(ins, chunkIdx, chunkNum, chunk)] *)
Definition signSendChunk (ins : Z) (chunkIdx chunkNum : nat)
    (chunk : option JS.bytes) : M JS.bytes :=
  fun w =>
    let (r, d) := device_chunk ins chunkIdx chunkNum chunk (device w) in
    (r, mkWorld d (trace w ++ [Build_event (ReqChunk ins chunkIdx chunkNum chunk) r])
                (heap w) (clock w)).

(** [processResponse(await this.transport.send(cla, ins, p1, p2, data))] *)
Definition transport_send (cla ins p1 p2 : Z) (data : JS.bytes) : M JS.bytes :=
  fun w =>
    let (r, d) := device_send cla ins p1 p2 data (device w) in
    (r, mkWorld d (trace w ++ [Build_event (ReqSend cla ins p1 p2 data) r])
                (heap w) (clock w)).

(** [response.readBytes(n)] of ledger-js: the next [n] bytes and what is
    left; reading past the end throws its [ResponseError]. *)
Definition readBytes (n : nat) (response : JS.bytes) : result (JS.bytes * JS.bytes) :=
  if (n <=? List.length response)%nat
  then inr (firstn n response, skipn n response)
  else inl (ResponseError 0x6f00 "Attempt to read beyond buffer length").

Definition getAddressAndPubKey (bip44Path : BIP32Path) (showAddrInDevice : bool)
  : M ResponseAddress :=
  let bip44PathBuffer := serializePath bip44Path in
  let p1 := if showAddrInDevice then P1_SHOW_ADDRESS_IN_DEVICE
            else P1_ONLY_RETRIEVE in
  try_catch
    (response <- transport_send CLA INS_GET_ADDR p1 0 bip44PathBuffer ;;
     r <- lift (readBytes PUBKEYLEN response) ;;
     let (pubkey, response) := r : JS.bytes * JS.bytes in
     r <- lift (readBytes (List.length response) response) ;;
     let address := Buffer_toString (fst r) in
     ret {| pubkey := pubkey; address := address |})
    (fun e => throw (processErrorResponse e)).

(** The loop [for (let i = 1; i < chunks.length; i += 1)] of the three
    signing operations; [fuel] bounds the number of iterations. *)
Fixpoint chunk_loop (ins : Z) (chunks : list JS.bytes) (fuel i : nat)
    (signatureResponse : JS.bytes) : M JS.bytes :=
  match fuel with
  | O => ret signatureResponse
  | S fuel' =>
      if (i <? List.length chunks)%nat then
        signatureResponse <-
          signSendChunk ins (1 + i) (List.length chunks) (nth_error chunks i) ;;
        chunk_loop ins chunks fuel' (i + 1) signatureResponse
      else ret signatureResponse
  end.

(** The first chunk, then the loop (app.ts 94-108, 132-146, 235-249). *)
Definition send_chunks (ins : Z) (chunks : list JS.bytes) : M JS.bytes :=
  signatureResponse <-
    signSendChunk ins 1 (List.length chunks) (nth_error chunks 0) ;;
  chunk_loop ins chunks (List.length chunks) 1 signatureResponse.

Definition sign (path : BIP32Path) (blob : JS.bytes) : M ResponseSign :=
  let chunks := prepareChunks path blob in
  try_catch
    (signatureResponse <- send_chunks INS_SIGN chunks ;;
     r <- lift (readBytes (List.length signatureResponse) signatureResponse) ;;
     ret {| signature := fst r |})
    (fun e => throw (processErrorResponse e)).

Definition signHash (path : BIP32Path) (hash : hash_input) : M ResponseSign :=
  let rawHash := rawHash hash in
  if negb (List.length rawHash =? 32)%nat then
    throw (TypeError "Hash is not 32 bytes")
  else
    let chunks := prepareChunks path rawHash in
    try_catch
      (signatureResponse <- send_chunks INS_SIGN_HASH chunks ;;
       r <- lift (readBytes (List.length signatureResponse) signatureResponse) ;;
       ret {| signature := fst r |})
      (fun e => throw (processErrorResponse e)).

Definition signTxInternal (path : BIP32Path) (params : ref)
    (txType : TransferTxType) : M ResponseSignTransfer :=
  (* Use defaults if value not specified *)
  t <- getTime ;;
  p <- deref params ;;
  _ <- lift (checkTransferTxParamsSanity p) ;;
  p <- deref params ;;
  pc <- lift (signTxInternal_payload t p txType) ;;
  let (payload, creationTime) := pc : JS.bytes * Z in
  let chunks := prepareChunks path payload in
  try_catch
    (signatureResponse <- send_chunks INS_SIGN_TRANSFER_TX chunks ;;
     pubkeyResponse <- getAddressAndPubKey path false ;;
     p <- deref params ;;
     json <- lift (buildTransferJson p (txType_tag txType)
                     (Buffer_toString_hex (pubkey pubkeyResponse))
                     creationTime) ;;
     let hash := hash_of blake2b json in
     r <- lift (readBytes (List.length signatureResponse) signatureResponse) ;;
     ret {| tx_signature := fst r; cmd := json; hash := hash |})
    (fun e => throw (processErrorResponse e)).

Definition signTransferTx (path : BIP32Path) (params : ref)
  : M ResponseSignTransfer :=
  let p1 := params in
  _ <- assign_recipient_chainId p1 0 ;; (* Ignored by Ledger App *)
  signTxInternal path p1 TRANSFER.

Definition signTransferCreateTx (path : BIP32Path) (params : ref)
  : M ResponseSignTransfer :=
  let p1 := params in
  _ <- assign_recipient_chainId p1 0 ;; (* Ignored by Ledger App *)
  signTxInternal path p1 TRANSFER_CREATE.

(** [a == b] for a chain id and a recipient chain id: two numbers are
    compared as numbers, a string is converted to a number first, and
    [undefined] equals neither. *)
Definition loose_eq (a : scalar) (b : option Z) : bool :=
  match a, b with
  | Num x, Some y => x =? y
  | Str s, Some y => JS.number_eq_Z (JS.Number s) y
  | _, None => false
  end.

Definition signTransferCrossChainTx (path : BIP32Path) (params : ref)
  : M ResponseSignTransfer :=
  p <- deref params ;;
  if loose_eq (chainId p) (recipient_chainId p) then
    throw (TypeError "Recipient chainId is same as sender's in a cross-chain transfer")
  else
    signTxInternal path params TRANSFER_CROSS_CHAIN.

End KadenaApp.

(* ===================================================================== *)
(** ** A concrete session: BLAKE2b and a simulated device *)
(* ===================================================================== *)

(** BLAKE2b without key (RFC 7693), the digest blakejs computes; it
    instantiates the digest collaborator in the examples. *)
Module Blake2b.

Definition w64 (x : Z) : Z := x mod 2 ^ 64.

Definition rotr (x n : Z) : Z :=
  w64 (Z.lor (Z.shiftr x n) (Z.shiftl x (64 - n))).

Definition IV : list Z :=
  [ 0x6a09e667f3bcc908; 0xbb67ae8584caa73b; 0x3c6ef372fe94f82b;
    0xa54ff53a5f1d36f1; 0x510e527fade682d1; 0x9b05688c2b3e6c1f;
    0x1f83d9abfb41bd6b; 0x5be0cd19137e2179 ].

Definition SIGMA : list (list nat) :=
  [ [0; 1; 2; 3; 4; 5; 6; 7; 8; 9; 10; 11; 12; 13; 14; 15];
    [14; 10; 4; 8; 9; 15; 13; 6; 1; 12; 0; 2; 11; 7; 5; 3];
    [11; 8; 12; 0; 5; 2; 15; 13; 10; 14; 3; 6; 7; 1; 9; 4];
    [7; 9; 3; 1; 13; 12; 11; 14; 2; 6; 5; 10; 4; 0; 15; 8];
    [9; 0; 5; 7; 2; 4; 10; 15; 14; 1; 11; 12; 6; 8; 3; 13];
    [2; 12; 6; 10; 0; 11; 8; 3; 4; 13; 7; 5; 15; 14; 1; 9];
    [12; 5; 1; 15; 14; 13; 4; 10; 0; 7; 6; 3; 9; 2; 8; 11];
    [13; 11; 7; 14; 12; 1; 3; 9; 5; 0; 15; 4; 8; 6; 2; 10];
    [6; 15; 14; 9; 11; 3; 0; 8; 12; 2; 13; 7; 1; 4; 10; 5];
    [10; 2; 8; 4; 7; 6; 1; 5; 15; 11; 9; 14; 3; 12; 13; 0] ]%nat.

Definition get (v : list Z) (i : nat) : Z := nth i v 0.

Fixpoint set (v : list Z) (i : nat) (x : Z) : list Z :=
  match v, i with
  | [], _ => []
  | _ :: tl, O => x :: tl
  | y :: tl, S i' => y :: set tl i' x
  end.

Definition G (v : list Z) (a b c d : nat) (x y : Z) : list Z :=
  let va := w64 (get v a + get v b + x) in
  let vd := rotr (Z.lxor (get v d) va) 32 in
  let vc := w64 (get v c + vd) in
  let vb := rotr (Z.lxor (get v b) vc) 24 in
  let va := w64 (va + vb + y) in
  let vd := rotr (Z.lxor vd va) 16 in
  let vc := w64 (vc + vd) in
  let vb := rotr (Z.lxor vb vc) 63 in
  set (set (set (set v a va) b vb) c vc) d vd.

Definition round (m : list Z) (v : list Z) (r : nat) : list Z :=
  let s := nth (r mod 10) SIGMA [] in
  let w i := get m (nth i s O) in
  let v := G v 0 4 8 12 (w 0%nat) (w 1%nat) in
  let v := G v 1 5 9 13 (w 2%nat) (w 3%nat) in
  let v := G v 2 6 10 14 (w 4%nat) (w 5%nat) in
  let v := G v 3 7 11 15 (w 6%nat) (w 7%nat) in
  let v := G v 0 5 10 15 (w 8%nat) (w 9%nat) in
  let v := G v 1 6 11 12 (w 10%nat) (w 11%nat) in
  let v := G v 2 7 8 13 (w 12%nat) (w 13%nat) in
  G v 3 4 9 14 (w 14%nat) (w 15%nat).

(** Little-endian words of a block, and back. *)
Definition word_of (bs : list Z) : Z :=
  fold_right (fun b acc => b + 256 * acc) 0 bs.

Fixpoint words (n : nat) (bs : list Z) : list Z :=
  match n with
  | O => []
  | S n' => word_of (firstn 8 bs) :: words n' (skipn 8 bs)
  end.

Definition bytes_of (x : Z) : list Z :=
  map (fun i => Z.land (Z.shiftr x (8 * Z.of_nat i)) 255) (seq 0 8).

(** The compression function. *)
Definition F (h : list Z) (block : list Z) (t : Z) (last : bool) : list Z :=
  let m := words 16 (block ++ repeat 0 (128 - List.length block)) in
  let v := h ++ IV in
  let v := set v 12 (Z.lxor (get v 12) (w64 t)) in
  let v := set v 13 (Z.lxor (get v 13) (w64 (Z.shiftr t 64))) in
  let v := if last then set v 14 (Z.lxor (get v 14) (2 ^ 64 - 1)) else v in
  let v := fold_left (round m) (seq 0 12) v in
  map (fun i => Z.lxor (Z.lxor (get h i) (get v i)) (get v (i + 8))) (seq 0 8).

Fixpoint blocks (fuel : nat) (h : list Z) (t : Z) (msg : list Z) : list Z :=
  match fuel with
  | O => F h msg (t + Z.of_nat (List.length msg)) true
  | S fuel' =>
      if (128 <? List.length msg)%nat
      then blocks fuel' (F h (firstn 128 msg) (t + 128) false) (t + 128)
                  (skipn 128 msg)
      else F h msg (t + Z.of_nat (List.length msg)) true
  end.

Definition digest (outlen : nat) (msg : list Z) : list Z :=
  let h := set IV 0 (Z.lxor (get IV 0) (Z.lxor 0x01010000 (Z.of_nat outlen))) in
  firstn outlen (flat_map bytes_of (blocks (List.length msg) h 0 msg)).

End Blake2b.

(** A simulated session: derivation paths are lists of 32-bit components,
    the payload follows the serialized path in slices of [chunkSize]
    bytes, and the device signs unless told to reject a request. *)
Module Sim.

Definition chunkSize : nat := 250.

Definition BIP32Path : Type := list Z.

Definition serializePath (path : BIP32Path) : JS.bytes :=
  flat_map (fun x => map (fun i => Z.land (Z.shiftr x (8 * Z.of_nat i)) 255)
                         (seq 0 4)) path.

Fixpoint slices (fuel : nat) (msg : JS.bytes) : list JS.bytes :=
  match fuel, msg with
  | _, [] => []
  | O, _ => []
  | S fuel', _ => firstn chunkSize msg :: slices fuel' (skipn chunkSize msg)
  end.

Definition prepareChunks (path : BIP32Path) (message : JS.bytes) : list JS.bytes :=
  serializePath path :: slices (List.length message) message.

(** The device: how many requests it has served, and the request it will
    reject, if any. *)
Record Dev : Type := { served : nat; rejects : option nat }.

Definition rejected (d : Dev) : bool :=
  match rejects d with
  | Some n => (n =? S (served d))%nat
  | None => false
  end.

Definition next (d : Dev) : Dev :=
  {| served := S (served d); rejects := rejects d |}.

Definition the_signature : JS.bytes := repeat 0xAB 64.
Definition the_pubkey : JS.bytes := repeat 0x11 32.

Definition device_chunk (ins : Z) (chunkIdx chunkNum : nat)
    (chunk : option JS.bytes) (d : Dev) : result JS.bytes * Dev :=
  if rejected d then (inl (ResponseError 0x6986 "Transaction rejected"), next d)
  else if (chunkIdx =? chunkNum)%nat then (inr the_signature, next d)
  else (inr [], next d).

Definition device_send (cla ins p1 p2 : Z) (data : JS.bytes) (d : Dev)
  : result JS.bytes * Dev :=
  if rejected d then (inl (ResponseError 0x6986 "Transaction rejected"), next d)
  else (inr (the_pubkey ++ JS.utf8 ("k:" +:+ Buffer_toString_hex the_pubkey)), next d).

Definition processErrorResponse (e : error) : error := e.

Definition Buffer_toString (bs : JS.bytes) : string :=
  string_of_list_ascii (map (fun b => ascii_of_N (Z.to_N b)) bs).

Definition path0 : BIP32Path :=
  [0x8000002c; 0x80000272; 0x80000000; 0; 0].

Definition start (objects : list TransferCrossChainTxParams)
  : world Dev :=
  mkWorld Dev {| served := 0; rejects := None |} [] objects 1700000000123.

End Sim.

Arguments device {Dev} w.
Arguments trace {Dev} w.
Arguments heap {Dev} w.
Arguments clock {Dev} w.
Arguments mkWorld {Dev} device trace heap clock.

(* ===================================================================== *)
(** ** Vocabulary of the properties *)
(* ===================================================================== *)

(** A byte. *)
Definition is_byte (b : Z) : Prop := 0 <= b < 256.

(** A text of 7-bit characters: one UTF-8 byte per code unit. *)
Definition is_ascii_text (s : string) : Prop :=
  Forall (fun c => JS.code c < 128) (JS.chars s).

(** Exactly 64 hexadecimal characters. *)
Definition is_hex64 (s : string) : Prop :=
  JS.strlen s = 64%nat /\ forallb is_hex (JS.chars s) = true.

(** A tag followed by length-prefixed text fields, as the payload is
    described: each field is its byte length and its UTF-8 bytes. *)
Definition length_prefixed (s : string) : JS.bytes :=
  Z.of_nat (JS.byteLength s) :: JS.utf8 s.

Definition tagged_fields (tag : Z) (fields : list string) : JS.bytes :=
  tag :: flat_map textPayload fields.

(** Base64 over the URL-safe alphabet, without padding, as the digest
    identifier is described. *)
Module Base64Url.

Definition alphabet : string :=
  "ABCDEFGHIJKLMNOPQRSTUVWXYZabcdefghijklmnopqrstuvwxyz0123456789-_".

Definition digit (n : Z) : ascii :=
  nth (Z.to_nat n) (JS.chars alphabet) "="%char.

Fixpoint encode (bs : JS.bytes) : list ascii :=
  match bs with
  | a :: b :: c :: r =>
      digit (a / 4)
      :: digit ((a mod 4) * 16 + b / 16)
      :: digit ((b mod 16) * 4 + c / 64)
      :: digit (c mod 64)
      :: encode r
  | [a; b] =>
      [ digit (a / 4); digit ((a mod 4) * 16 + b / 16); digit ((b mod 16) * 4) ]
  | [a] => [ digit (a / 4); digit ((a mod 4) * 16) ]
  | [] => []
  end.

Definition url_safe (c : ascii) : Prop := In c (JS.chars alphabet).

End Base64Url.

(** The requests of a chunked transfer of [chunks], in order: chunk [i]
    (from 0) is sent with index [i + 1] and the total count. *)
Definition chunk_requests (ins : Z) (chunks : list JS.bytes) : list request :=
  map (fun ic => ReqChunk ins (S (fst ic)) (List.length chunks) (Some (snd ic)))
      (combine (seq 0 (List.length chunks)) chunks).

Definition succeeded (e : event) : Prop :=
  exists r, ev_outcome e = inr r.

Definition is_chunk_request (e : event) : Prop :=
  match ev_request e with ReqChunk _ _ _ _ => True | ReqSend _ _ _ _ _ => False end.

(** [evs] is the transcript of a chunked transfer of [chunks] that ended
    with [out]: the first [k] requests of the sequence were made, one after
    the other; all but the last succeeded; [out] is the outcome of the
    last; and a success means all of them were made. *)
Definition chunk_transcript (ins : Z) (chunks : list JS.bytes)
    (evs : list event) (out : result JS.bytes) : Prop :=
  exists (k : nat) (before : list event) (e : event),
    (1 <= k <= List.length chunks)%nat
    /\ evs = before ++ [e]
    /\ map ev_request evs = firstn k (chunk_requests ins chunks)
    /\ Forall succeeded before
    /\ ev_outcome e = out
    /\ ((exists r, out = inr r) -> k = List.length chunks).

(** Between the transcripts [before] and [after] a chunked transfer of
    [chunks] took place and ended with [out]; whatever follows it is not a
    chunk, and nothing follows a failed chunk. *)
Definition chunked_run (ins : Z) (chunks : list JS.bytes)
    (before after : list event) (out : result JS.bytes) : Prop :=
  exists evs rest : list event,
    after = before ++ evs ++ rest
    /\ chunk_transcript ins chunks evs out
    /\ Forall (fun e => ~ is_chunk_request e) rest
    /\ ((exists e, out = inl e) -> rest = []).

(** How the result of a signing operation comes from the outcome of the
    transfer: the signature is the response, an error is normalized. *)
Definition delivered (processErrorResponse : error -> error)
    (res : result ResponseSign) (out : result JS.bytes) : Prop :=
  match res with
  | inr r => out = inr (signature r)
  | inl e => exists e0, out = inl e0 /\ e = processErrorResponse e0
  end.

(** The creation time of a request made at [now] (milliseconds). *)
Definition creation_time (now : Z) (p : TransferCrossChainTxParams) : Z :=
  match creationTime p with None => now / 1000 | Some c => c end.

(** The twelve text fields of a request, in payload order, for the
    recipient chain id [rc]. *)
Definition normalized_fields (now : Z) (p : TransferCrossChainTxParams) (rc : Z)
  : list string :=
  [ strip_k (recipient p);
    JS.Z_toString rc;
    network p;
    convertDecimal (amount p);
    match namespace p with None => "" | Some n => n end;
    match module_ p with None => "" | Some m => m end;
    match gasPrice p with None => "1.0e-6" | Some g => g end;
    match gasLimit p with None => "2300" | Some g => g end;
    JS.Z_toString (creation_time now p);
    scalar_toString (chainId p);
    match nonce p with None => "" | Some n => n end;
    match ttl p with None => "600" | Some t => t end ].

(** The one-character text U+00E9 (two bytes in UTF-8). *)
Definition e_acute : string := String (ascii_of_nat 233) EmptyString.

(** A transfer of "5" that leaves gas price, gas limit, ttl and nonce to
    their defaults. *)
Definition intent_5 : TransferCrossChainTxParams :=
  mkParams None None None hex64 (Str "5") (Num 0) "testnet"
           None None (Some 1700000000) None None None.

(** The public key of the simulated device, in hexadecimal. *)
Definition sim_pubkey_hex : string := Buffer_toString_hex Sim.the_pubkey.

(** The operations over the simulated session. *)
Definition sim_signTransferTx :=
  signTransferTx Sim.Dev Sim.BIP32Path Sim.serializePath Sim.prepareChunks
    Sim.device_chunk Sim.device_send Sim.processErrorResponse Blake2b.digest
    Sim.Buffer_toString.

Definition sim_signTransferCrossChainTx :=
  signTransferCrossChainTx Sim.Dev Sim.BIP32Path Sim.serializePath
    Sim.prepareChunks Sim.device_chunk Sim.device_send Sim.processErrorResponse
    Blake2b.digest Sim.Buffer_toString.

Definition sim_sign :=
  sign Sim.Dev Sim.BIP32Path Sim.prepareChunks Sim.device_chunk
    Sim.processErrorResponse.

Definition sim_signHash :=
  signHash Sim.Dev Sim.BIP32Path Sim.prepareChunks Sim.device_chunk
    Sim.processErrorResponse.

Definition byte_range : list Z := map Z.of_nat (seq 0 256).

(** What the three replacements do to one character. *)
Definition to_url (c : ascii) : option ascii :=
  let c := if Ascii.eqb c "+" then "-"%char else c in
  let c := if Ascii.eqb c "/" then "_"%char else c in
  if Ascii.eqb c "=" then None else Some c.

Definition url_of (cs : list ascii) : list ascii :=
  Base64.remove_all "=" (Base64.replace_all "/" "_" (Base64.replace_all "+" "-" cs)).

(** The sextets of a group, bit operations against arithmetic, and the
    two alphabets against each other. *)
Definition sextet_ok (x y : Z) : bool :=
  match to_url (Base64.digit x) with
  | Some c => Ascii.eqb c (Base64Url.digit y)
              && existsb (Ascii.eqb c) (JS.chars Base64Url.alphabet)
  | None => false
  end.

Definition same_chain_intent : TransferCrossChainTxParams :=
  mkParams None None None hex64 (Str "10") (Str "0") "testnet"
           None None None None None (Some 0).

(** The text of an optional field, empty when the field is absent. *)
Definition text_of (o : option string) : string :=
  match o with None => "" | Some s => s end.

(** The text of a field, as the length check reads it, fits [budget]
    characters. *)
Definition within (budget : nat) (v : value) : Prop :=
  (JS.strlen (or_empty_toString v) <= budget)%nat.

(** What validation asks of a request whose number-typed fields hold
    integers, condition by condition. *)
Definition valid_request (p : TransferCrossChainTxParams) : Prop :=
  is_hex64 (strip_k (recipient p))
  /\ (text_of (namespace p) = "" \/ text_of (module_ p) <> "")
  /\ isNaN_ (value_of_scalar (amount p)) = false
  /\ isNaN_ (value_of_opt_string (gasPrice p)) = false
  /\ isNaN_ (value_of_opt_string (gasLimit p)) = false
  /\ isNaN_ (value_of_opt_string (ttl p)) = false
  /\ within 16 (value_of_opt_string (namespace p))
  /\ within 32 (value_of_opt_string (module_ p))
  /\ within 2 (value_of_opt_number (recipient_chainId p))
  /\ within 20 (VStr (network p))
  /\ within 32 (value_of_scalar (amount p))
  /\ within 20 (value_of_opt_string (gasPrice p))
  /\ within 10 (value_of_opt_string (gasLimit p))
  /\ within 12 (value_of_opt_number (creationTime p))
  /\ within 2 (value_of_scalar (chainId p))
  /\ within 32 (value_of_opt_string (nonce p))
  /\ within 20 (value_of_opt_string (ttl p)).

(** The record with another recipient, and with another module. *)
Definition with_recipient (r : string) (p : TransferCrossChainTxParams)
  : TransferCrossChainTxParams :=
  mkParams (path p) (namespace p) (module_ p) r (amount p)
           (chainId p) (network p) (gasPrice p) (gasLimit p)
           (creationTime p) (ttl p) (nonce p) (recipient_chainId p).

Definition with_module (m : option string) (p : TransferCrossChainTxParams)
  : TransferCrossChainTxParams :=
  mkParams (path p) (namespace p) m (recipient p) (amount p)
           (chainId p) (network p) (gasPrice p) (gasLimit p)
           (creationTime p) (ttl p) (nonce p) (recipient_chainId p).

(** A sextet is read back from its character, in both alphabets. *)
Definition sextet_read (x : Z) : bool :=
  match Decode.unbase64 (Base64.digit x), to_url (Base64.digit x) with
  | Some v, Some c =>
      (v =? x) && match Decode.unbase64 c with
                  | Some v' => v' =? x
                  | None => false
                  end
  | _, _ => false
  end.

(** More operations over the simulated session, and a session whose
    device rejects its [n]-th request. *)
Definition sim_signTxInternal :=
  signTxInternal Sim.Dev Sim.BIP32Path Sim.serializePath Sim.prepareChunks
    Sim.device_chunk Sim.device_send Sim.processErrorResponse Blake2b.digest
    Sim.Buffer_toString.

Definition sim_send_chunks := send_chunks Sim.Dev Sim.device_chunk.

Definition sim_start_rejecting (n : nat)
    (objects : list TransferCrossChainTxParams) : world Sim.Dev :=
  mkWorld {| Sim.served := 0; Sim.rejects := Some n |} [] objects 1700000000123.

(** A complete cross-chain request, and one whose amount is not a
    number. *)
Definition complete_intent : TransferCrossChainTxParams :=
  mkParams None None None hex64 (Str "10") (Num 0) "testnet"
           None None (Some 1700000000) None None (Some 1).

Definition bad_amount_intent : TransferCrossChainTxParams :=
  mkParams None None None hex64 (Str "ten") (Num 0) "testnet"
           None None (Some 1700000000) None None (Some 1).

(** A transfer whose network name is the one-character text U+00E9, and
    the same transfer with the network name U+0000. *)
Definition accented_intent : TransferCrossChainTxParams :=
  mkParams None None None hex64 (Str "5") (Num 0) e_acute
           None None (Some 1700000000) None None None.

Definition nul_intent : TransferCrossChainTxParams :=
  mkParams None None None hex64 (Str "5") (Num 0)
           (String (ascii_of_nat 0) EmptyString)
           None None (Some 1700000000) None None None.

(** The payload as it is described: the tag, then every field as its
    byte length followed by its UTF-8 bytes. *)
Definition described_payload (tag : Z) (fields : list string) : JS.bytes :=
  tag :: flat_map length_prefixed fields.

(** The fields of [accented_intent] and of [nul_intent] that come before
    and after the network name. *)
Definition fields_before_network : list string := [hex64; "0"].

Definition fields_after_network : list string :=
  ["5.0"; ""; ""; "1.0e-6"; "2300"; "1700000000"; "0"; ""; "600"].

(** What a transfer operation of variant [ty] does at time [now] with the
    record [p] it reads, between the transcripts [before] and [after]:
    when validation rejects the record, or the payload cannot be built,
    it throws that error and sends nothing; otherwise the chunks of the
    payload are transferred, a failed chunk is the error of the operation,
    and a signature that is returned is the response to the last chunk. *)
Definition transfer_run {BIP32Path : Type}
    (prepareChunks : BIP32Path -> JS.bytes -> list JS.bytes)
    (processErrorResponse : error -> error)
    (path : BIP32Path) (ty : TransferTxType) (now : Z)
    (p : TransferCrossChainTxParams) (before after : list event)
    (res : result ResponseSignTransfer) : Prop :=
  match checkTransferTxParamsSanity p with
  | inl e => after = before /\ res = inl e
  | inr _ =>
      match signTxInternal_payload now p ty with
      | inl e => after = before /\ res = inl e
      | inr (payload, _) =>
          exists out : result JS.bytes,
            chunked_run INS_SIGN_TRANSFER_TX (prepareChunks path payload)
              before after out
            /\ match out with
               | inl e0 => res = inl (processErrorResponse e0)
               | inr resp => forall r, res = inr r -> tx_signature r = resp
               end
      end
  end.

(** [signHash] took the bytes [raw] for the hash, from the session [w] to
    the session [w']: bytes that are not 32 are refused by the guard with
    the session untouched; 32 bytes are transferred in chunks, and the
    result is the signature of the last chunk or the normalized error. *)
Definition signed_as {Dev BIP32Path : Type}
    (prepareChunks : BIP32Path -> JS.bytes -> list JS.bytes)
    (processErrorResponse : error -> error)
    (path : BIP32Path) (raw : JS.bytes) (w w' : world Dev)
    (res : result ResponseSign) : Prop :=
  if (List.length raw =? 32)%nat
  then exists out : result JS.bytes,
         chunked_run INS_SIGN_HASH (prepareChunks path raw)
           (trace w) (trace w') out
         /\ delivered processErrorResponse res out
  else res = inl (TypeError "Hash is not 32 bytes") /\ w' = w.

(** A text of 44 base64 characters that holds 32 bytes. *)
Definition base64_hash : string :=
  "AAECAwQFBgcICQoLDA0ODxAREhMUFRYXGBkaGxwdHh8=".

(* ===================================================================== *)
(** ** Evaluations *)
(* ===================================================================== *)

Example textPayload_abc : textPayload "abc" = [3; 97; 98; 99].
Proof. reflexivity. Qed.

Example Number_5 : JS.isInteger (JS.Number "5") = true.
Proof. vm_compute. reflexivity. Qed.

Example convertDecimal_5 : convertDecimal (Str "5") = "5.0".
Proof. vm_compute. reflexivity. Qed.

Example convertDecimal_5_25 : convertDecimal (Str "5.25") = "5.25".
Proof. vm_compute. reflexivity. Qed.

Example convertDecimal_num_5 : convertDecimal (Num 5) = "5.0".
Proof. vm_compute. reflexivity. Qed.

Example convertDecimal_1em6 : convertDecimal (Str "1e-6") = "1e-6".
Proof. vm_compute. reflexivity. Qed.

Example check_sample : checkTransferTxParamsSanity sample_params = inr tt.
Proof. vm_compute. reflexivity. Qed.

Example check_63_hex :
  checkTransferTxParamsSanity
    (mkParams None None None (JS.substring_from 1 hex64) (Str "10") (Num 0)
              "testnet" None None None None None None)
  = inl (TypeError "Recipient should be a hex encoded pubkey or 'k:' address").
Proof. vm_compute. reflexivity. Qed.

Example check_65_hex :
  checkTransferTxParamsSanity
    (mkParams None None None ("k:" +:+ hex64 +:+ "a") (Str "10") (Num 0)
              "testnet" None None None None None None)
  = inl (TypeError "recipient should be exactly 64 characters long").
Proof. vm_compute. reflexivity. Qed.

Example check_64_not_hex :
  checkTransferTxParamsSanity
    (mkParams None None None ("g" +:+ JS.substring_from 1 hex64) (Str "10") (Num 0)
              "testnet" None None None None None None)
  = inl (TypeError "Recipient should be a hex encoded pubkey or 'k:' address").
Proof. vm_compute. reflexivity. Qed.

Example check_namespace_without_module :
  checkTransferTxParamsSanity
    (mkParams None (Some "free") None hex64 (Str "10") (Num 0)
              "testnet" None None None None None None)
  = inl (TypeError "Along with 'namespace' 'module' need to be specified").
Proof. vm_compute. reflexivity. Qed.

Example base64_Man : string_of_list_ascii (Base64.encode [77; 97; 110; 77; 97]) = "TWFuTWE=".
Proof. reflexivity. Qed.

Example hex_ff : Buffer_toString_hex [255; 0; 171] = "ff00ab".
Proof. reflexivity. Qed.

Example from_hex_ok : Buffer_from_hex "ff00Ab" = [255; 0; 171].
Proof. reflexivity. Qed.

Example from_hex_trunc : Buffer_from_hex "ffzz00" = [255].
Proof. reflexivity. Qed.

Example from_base64_ok : Buffer_from_base64 "TWFuTWE=" = [77; 97; 110; 77; 97].
Proof. reflexivity. Qed.

Example blake2b_256_abc :
  Buffer_toString_hex (Blake2b.digest 32 (JS.utf8 "abc"))
  = "bddd813c634239723171ef3fee98579b94964e3bb1cb3e427262c8c068d52319".
Proof. vm_compute. reflexivity. Qed.

Example blake2b_256_empty :
  Buffer_toString_hex (Blake2b.digest 32 [])
  = "0e5751c026e543b2e8ab2eb06099daa1d1e5df47778f7787faab45cdf12fe3a8".
Proof. vm_compute. reflexivity. Qed.

(* ===================================================================== *)
(** ** The field encoder *)
(* ===================================================================== *)

Lemma chars_length (s : string) : List.length (JS.chars s) = JS.strlen s.
Proof.
  unfold JS.chars, JS.strlen.
  induction s as [|c s IH]; simpl; [reflexivity | now rewrite IH].
Qed.

Lemma utf8_char_ascii (c : ascii) : JS.code c < 128 -> JS.utf8_char c = [JS.code c].
Proof.
  intros H. unfold JS.utf8_char.
  destruct (Z.ltb_spec (JS.code c) 128); [reflexivity | lia].
Qed.

Lemma utf8_fit_ascii (cs : list ascii) (cap : nat) :
  Forall (fun c => JS.code c < 128) cs ->
  (List.length cs <= cap)%nat ->
  JS.utf8_fit cap cs = map JS.code cs.
Proof.
  revert cap. induction cs as [|c cs IH]; intros cap Hall Hlen; [reflexivity|].
  inversion Hall as [|? ? Hc Hcs]; subst.
  simpl in *. rewrite (utf8_char_ascii c Hc). simpl.
  destruct cap as [|cap]; [lia|]. simpl.
  rewrite IH; [reflexivity | assumption | lia].
Qed.

Lemma utf8_ascii (s : string) :
  is_ascii_text s -> JS.utf8 s = map JS.code (JS.chars s).
Proof.
  unfold is_ascii_text, JS.utf8. generalize (JS.chars s) as cs.
  induction cs as [|c cs IH]; intros Hall; [reflexivity|].
  inversion Hall; subst. simpl.
  rewrite utf8_char_ascii by assumption. simpl. now rewrite IH.
Qed.

(** On a text of 7-bit characters no longer than 255, the encoder yields
    the length byte and the bytes of the text. *)
Lemma textPayload_ascii (txt : string) :
  is_ascii_text txt -> (JS.strlen txt <= 255)%nat ->
  textPayload txt = length_prefixed txt.
Proof.
  intros Hascii Hlen.
  unfold textPayload, length_prefixed, JS.byteLength, JS.Buffer_write, JS.Buffer_alloc.
  rewrite (utf8_ascii txt Hascii), length_map, chars_length.
  simpl repeat. simpl JS.buf_set.
  cbn [List.length firstn]. rewrite repeat_length.
  replace (S (JS.strlen txt) - 1)%nat with (JS.strlen txt) by lia.
  rewrite utf8_fit_ascii; [| exact Hascii | rewrite chars_length; lia].
  rewrite length_map, chars_length.
  rewrite skipn_all2 by (simpl; rewrite repeat_length; lia).
  rewrite app_nil_r. simpl.
  rewrite Z.mod_small by lia. reflexivity.
Qed.

(** C2, at the text U+00E9, which validation admits as a network name:
    the encoder writes the length byte 1 and no byte of the text, where
    the byte length is 2 and the UTF-8 bytes are 195, 169. *)
Theorem textPayload_two_byte_character :
  textPayload e_acute = [1; 0]
  /\ length_prefixed e_acute = [2; 195; 169]
  /\ checkTransferTxParamsSanity
       (mkParams None None None hex64 (Str "5") (Num 0) e_acute
                 None None None None None (Some 0)) = inr tt.
Proof. vm_compute. repeat split. Qed.

(* ===================================================================== *)
(** ** The command document against the payload *)
(* ===================================================================== *)

(** C1, at a transfer of "5" with gas price, gas limit, ttl and nonce
    omitted: the payload carries "5.0", "1.0e-6", "2300", "600" and the
    empty nonce, while the document returned by [signTransferTx] carries
    the amount 5 and the text undefined for the four omitted fields. *)
Theorem document_embeds_raw_fields :
  signTxInternal_payload 1700000000123 (set_recipient_chainId 0 intent_5) TRANSFER
  = inr (tagged_fields 0
           [ hex64; "0"; "testnet"; "5.0"; ""; ""; "1.0e-6"; "2300";
             "1700000000"; "0"; ""; "600" ],
         1700000000)
  /\ fst (sim_signTransferTx Sim.path0 0%nat (Sim.start [intent_5]))
     = inr {| tx_signature := Sim.the_signature;
              cmd :=
                tpl "{'networkId':'testnet'"
                +:+ tpl ",'payload':{'exec':{'data':{},'code':'(coin.transfer"
                +:+ tpl " \'k:" +:+ sim_pubkey_hex +:+ tpl "\'"
                +:+ tpl " \'k:" +:+ hex64 +:+ tpl "\'"
                +:+ tpl " 5)'}}"
                +:+ tpl ",'signers':[{'pubKey':'" +:+ sim_pubkey_hex +:+ tpl "'"
                +:+ tpl ",'clist':[{'args':['k:" +:+ sim_pubkey_hex
                +:+ tpl "','k:" +:+ hex64 +:+ tpl "',5]"
                +:+ tpl ",'name':'coin.TRANSFER'},{'args':[],'name':'coin.GAS'}]}]"
                +:+ tpl ",'meta':{'creationTime':1700000000"
                +:+ tpl ",'ttl':undefined,'gasLimit':undefined,'chainId':'0'"
                +:+ tpl ",'gasPrice':undefined,'sender':'k:" +:+ sim_pubkey_hex
                +:+ tpl "'},'nonce':'undefined'}";
              hash := "TzoiNAWCoG6l7TOdZpcdrnMBFvpjtkI6hdo8JCBPyHA" |}.
Proof. split; vm_compute; reflexivity. Qed.

(* ===================================================================== *)
(** ** Parameter validation *)
(* ===================================================================== *)

Lemma hex_run_exact (n : nat) (cs : list ascii) :
  forall k : nat,
    (k + List.length cs <= n)%nat ->
    hex_run n k cs = true ->
    forallb is_hex cs = true /\ (k + List.length cs = n)%nat.
Proof.
  induction cs as [|c cs IH]; intros k Hle Hrun.
  - simpl in *. destruct (Nat.leb_spec n k); [split; [reflexivity | lia] | discriminate].
  - simpl in Hrun, Hle. destruct (Nat.leb_spec n k); [lia|].
    destruct (is_hex c) eqn:Hc.
    + destruct (IH (S k)) as [Hall Hlen]; [lia | assumption |].
      simpl. rewrite Hc, Hall. split; [reflexivity | lia].
    + destruct (IH 0%nat) as [_ Hlen]; [lia | assumption | lia].
Qed.

Lemma hex_run_complete (n : nat) (cs : list ascii) :
  forall k : nat,
    forallb is_hex cs = true ->
    (n <= k + List.length cs)%nat ->
    hex_run n k cs = true.
Proof.
  induction cs as [|c cs IH]; intros k Hall Hle; simpl in *.
  - destruct (Nat.leb_spec n k); [reflexivity | lia].
  - destruct (Nat.leb_spec n k); [reflexivity|].
    apply andb_true_iff in Hall as [Hc Hall]. rewrite Hc.
    apply IH; [assumption | lia].
Qed.

(** With the length fixed at 64, the unanchored pattern is the anchored
    one. *)
Lemma match_hex64_exact (s : string) :
  JS.strlen s = 64%nat -> (match_hex64 s = true <-> is_hex64 s).
Proof.
  intros Hlen. unfold match_hex64, is_hex64. split.
  - intros Hrun. split; [assumption|].
    apply (hex_run_exact 64 (JS.chars s) 0); [rewrite chars_length; lia | assumption].
  - intros [_ Hall]. apply hex_run_complete; [assumption | rewrite chars_length; lia].
Qed.

Lemma check_lengths_recipient (r : string) (p : TransferCrossChainTxParams) :
  check_lengths r p maxLengths = inr tt -> JS.strlen r = 64%nat.
Proof.
  unfold maxLengths. simpl.
  destruct (Nat.eqb_spec (JS.strlen r) 64); [intros _; assumption | discriminate].
Qed.

Lemma sanity_implies_hex64 (p : TransferCrossChainTxParams) :
  checkTransferTxParamsSanity p = inr tt -> is_hex64 (strip_k (recipient p)).
Proof.
  unfold checkTransferTxParamsSanity.
  destruct (match_hex64 (strip_k (recipient p))) eqn:Hm; cbn [negb];
    [|discriminate].
  repeat match goal with
         | |- (if ?c then _ else _) = _ -> _ => destruct c; [discriminate|]
         end.
  intros Hlen. apply check_lengths_recipient in Hlen.
  now apply match_hex64_exact.
Qed.

(** C4: validation accepts a recipient exactly when, without its "k:"
    prefix, it is 64 hexadecimal characters; any other recipient (63 or 65
    characters, or a character that is not hexadecimal) makes validation
    fail with an error, whatever the other parameters. *)
Theorem recipient_accepted_iff_hex64 :
  (forall r : string,
      (exists p, recipient p = r /\ checkTransferTxParamsSanity p = inr tt)
      <-> is_hex64 (strip_k r))
  /\ (forall p : TransferCrossChainTxParams,
         ~ is_hex64 (strip_k (recipient p)) ->
         exists e, checkTransferTxParamsSanity p = inl e).
Proof.
  split.
  - intros r. split.
    + intros (p & <- & Hok). now apply sanity_implies_hex64.
    + intros Hhex.
      exists (mkParams None None None r (Str "10") (Num 0) "testnet"
                       None None None None None None).
      split; [reflexivity|].
      unfold checkTransferTxParamsSanity. cbn [recipient].
      rewrite (proj2 (match_hex64_exact _ (proj1 Hhex)) Hhex).
      destruct Hhex as [Hlen _].
      unfold maxLengths. cbn -[JS.strlen]. rewrite Hlen. reflexivity.
  - intros p Hbad.
    destruct (checkTransferTxParamsSanity p) as [e|[]] eqn:Hc.
    + now exists e.
    + exfalso. apply Hbad. now apply sanity_implies_hex64.
Qed.

(* ===================================================================== *)
(** ** The digest identifier *)
(* ===================================================================== *)

Lemma in_byte_range (a : Z) : is_byte a -> In a byte_range.
Proof.
  unfold is_byte, byte_range. intros Ha. apply in_map_iff.
  exists (Z.to_nat a). split; [lia | apply in_seq; lia].
Qed.

(** A property checked on every byte holds of any byte. *)
Lemma for_all_bytes (f : Z -> bool) :
  forallb f byte_range = true -> forall a, is_byte a -> f a = true.
Proof.
  intros Hall a Ha. rewrite forallb_forall in Hall.
  apply Hall, in_byte_range, Ha.
Qed.

Lemma for_all_byte_pairs (f : Z -> Z -> bool) :
  forallb (fun a => forallb (f a) byte_range) byte_range = true ->
  forall a b, is_byte a -> is_byte b -> f a b = true.
Proof.
  intros Hall a b Ha Hb.
  apply (for_all_bytes (f a)); [|assumption].
  apply (for_all_bytes (fun a => forallb (f a) byte_range)); assumption.
Qed.

Lemma url_of_cons (c : ascii) (cs : list ascii) :
  url_of (c :: cs) = match to_url c with
                     | Some c' => c' :: url_of cs
                     | None => url_of cs
                     end.
Proof.
  unfold url_of, to_url, Base64.remove_all, Base64.replace_all. simpl.
  destruct (Ascii.eqb c "+"); destruct (Ascii.eqb _ "/");
    destruct (Ascii.eqb _ "="); reflexivity.
Qed.

Lemma sextet_first (a : Z) :
  is_byte a -> sextet_ok (Z.shiftr a 2) (a / 4) = true.
Proof.
  apply (for_all_bytes (fun a => sextet_ok (Z.shiftr a 2) (a / 4))).
  vm_compute. reflexivity.
Qed.

Lemma sextet_second (a b : Z) :
  is_byte a -> is_byte b ->
  sextet_ok (Z.lor (Z.shiftl (Z.land a 3) 4) (Z.shiftr b 4))
            ((a mod 4) * 16 + b / 16) = true.
Proof.
  apply (for_all_byte_pairs
           (fun a b => sextet_ok (Z.lor (Z.shiftl (Z.land a 3) 4) (Z.shiftr b 4))
                                 ((a mod 4) * 16 + b / 16))).
  vm_compute. reflexivity.
Qed.

Lemma sextet_third (b c : Z) :
  is_byte b -> is_byte c ->
  sextet_ok (Z.lor (Z.shiftl (Z.land b 15) 2) (Z.shiftr c 6))
            ((b mod 16) * 4 + c / 64) = true.
Proof.
  apply (for_all_byte_pairs
           (fun b c => sextet_ok (Z.lor (Z.shiftl (Z.land b 15) 2) (Z.shiftr c 6))
                                 ((b mod 16) * 4 + c / 64))).
  vm_compute. reflexivity.
Qed.

Lemma sextet_fourth (c : Z) :
  is_byte c -> sextet_ok (Z.land c 63) (c mod 64) = true.
Proof.
  apply (for_all_bytes (fun c => sextet_ok (Z.land c 63) (c mod 64))).
  vm_compute. reflexivity.
Qed.

Lemma sextet_second_last (a : Z) :
  is_byte a -> sextet_ok (Z.shiftl (Z.land a 3) 4) ((a mod 4) * 16) = true.
Proof.
  apply (for_all_bytes (fun a => sextet_ok (Z.shiftl (Z.land a 3) 4) ((a mod 4) * 16))).
  vm_compute. reflexivity.
Qed.

Lemma sextet_third_last (b : Z) :
  is_byte b -> sextet_ok (Z.shiftl (Z.land b 15) 2) ((b mod 16) * 4) = true.
Proof.
  apply (for_all_bytes (fun b => sextet_ok (Z.shiftl (Z.land b 15) 2) ((b mod 16) * 4))).
  vm_compute. reflexivity.
Qed.

Lemma sextet_ok_spec (x y : Z) (cs : list ascii) :
  sextet_ok x y = true ->
  url_of (Base64.digit x :: cs) = Base64Url.digit y :: url_of cs
  /\ Base64Url.url_safe (Base64Url.digit y).
Proof.
  unfold sextet_ok. rewrite url_of_cons.
  destruct (to_url (Base64.digit x)) as [c|]; [|discriminate].
  intros H. apply andb_true_iff in H as [Heq Hin].
  apply Ascii.eqb_eq in Heq. subst c. split; [reflexivity|].
  apply existsb_exists in Hin as (c' & Hin & Heq).
  apply Ascii.eqb_eq in Heq. now subst c'.
Qed.

Lemma url_of_encode (n : nat) :
  forall bs : JS.bytes,
    (List.length bs <= n)%nat ->
    Forall is_byte bs ->
    url_of (Base64.encode bs) = Base64Url.encode bs
    /\ Forall Base64Url.url_safe (Base64Url.encode bs).
Proof.
  induction n as [|n IH]; intros bs Hlen Hbytes.
  - destruct bs; [split; [reflexivity | constructor] | simpl in Hlen; lia].
  - destruct bs as [|a [|b [|c r]]].
    + split; [reflexivity | constructor].
    + inversion Hbytes as [|? ? Ha _]; subst.
      cbn [Base64.encode Base64Url.encode].
      destruct (sextet_ok_spec _ _ [Base64.digit (Z.shiftl (Z.land a 3) 4); "="; "="]%char
                  (sextet_first a Ha)) as [-> S1].
      destruct (sextet_ok_spec _ _ ["="; "="]%char (sextet_second_last a Ha))
        as [-> S2].
      split; [reflexivity | repeat (apply Forall_cons; [assumption|]); apply Forall_nil].
    + inversion Hbytes as [|? ? Ha Hb']; subst.
      inversion Hb' as [|? ? Hb _]; subst.
      cbn [Base64.encode Base64Url.encode].
      destruct (sextet_ok_spec _ _
                  [Base64.digit (Z.lor (Z.shiftl (Z.land a 3) 4) (Z.shiftr b 4));
                   Base64.digit (Z.shiftl (Z.land b 15) 2); "="%char]
                  (sextet_first a Ha)) as [-> S1].
      destruct (sextet_ok_spec _ _
                  [Base64.digit (Z.shiftl (Z.land b 15) 2); "="%char]
                  (sextet_second a b Ha Hb)) as [-> S2].
      destruct (sextet_ok_spec _ _ ["="%char] (sextet_third_last b Hb)) as [-> S3].
      split; [reflexivity | repeat (apply Forall_cons; [assumption|]); apply Forall_nil].
    + inversion Hbytes as [|? ? Ha Hb']; subst.
      inversion Hb' as [|? ? Hb Hc']; subst.
      inversion Hc' as [|? ? Hc Hr]; subst.
      destruct (IH r) as [IHeq IHsafe]; [simpl in Hlen; lia | assumption |].
      cbn [Base64.encode Base64Url.encode].
      repeat match goal with
             | |- context [url_of (Base64.digit ?x :: ?cs)] =>
                 let H := fresh "S" in
                 first
                   [ destruct (sextet_ok_spec x _ cs (sextet_first a Ha)) as [-> H]
                   | destruct (sextet_ok_spec x _ cs (sextet_second a b Ha Hb)) as [-> H]
                   | destruct (sextet_ok_spec x _ cs (sextet_third b c Hb Hc)) as [-> H]
                   | destruct (sextet_ok_spec x _ cs (sextet_fourth c Hc)) as [-> H] ]
             end.
      rewrite IHeq.
      split; [reflexivity | repeat (apply Forall_cons; [assumption|]); assumption].
Qed.

Lemma encode_length_32 (bs : JS.bytes) :
  List.length bs = 32%nat -> List.length (Base64Url.encode bs) = 43%nat.
Proof.
  intros H.
  do 32 (destruct bs as [|? bs]; [discriminate H|]).
  destruct bs; [reflexivity | discriminate H].
Qed.

Lemma strlen_of_list (cs : list ascii) :
  JS.strlen (string_of_list_ascii cs) = List.length cs.
Proof.
  unfold JS.strlen. induction cs as [|c cs IH]; simpl; [reflexivity | now rewrite IH].
Qed.

Lemma chars_of_list (cs : list ascii) : JS.chars (string_of_list_ascii cs) = cs.
Proof. unfold JS.chars. apply list_ascii_of_string_of_list_ascii. Qed.

(** The BLAKE2b of the examples returns 32 bytes when asked for 32. *)
Lemma blake2b_blocks_length (fuel : nat) :
  forall (h : list Z) (t : Z) (msg : list Z),
    List.length (Blake2b.blocks fuel h t msg) = 8%nat.
Proof.
  assert (HF : forall h b t last, List.length (Blake2b.F h b t last) = 8%nat).
  { intros. unfold Blake2b.F. now rewrite length_map, length_seq. }
  induction fuel as [|fuel IH]; intros h t msg; cbn [Blake2b.blocks].
  - apply HF.
  - destruct (128 <? List.length msg)%nat; [apply IH | apply HF].
Qed.

Lemma blake2b_bytes_of (x : Z) :
  List.length (Blake2b.bytes_of x) = 8%nat /\ Forall is_byte (Blake2b.bytes_of x).
Proof.
  unfold Blake2b.bytes_of. split; [now rewrite length_map, length_seq|].
  apply Forall_forall. intros b Hb. apply in_map_iff in Hb as (i & <- & _).
  unfold is_byte. change 255 with (Z.ones 8). rewrite Z.land_ones by lia.
  apply Z.mod_pos_bound. lia.
Qed.

Lemma blake2b_flat_bytes (ws : list Z) :
  List.length (flat_map Blake2b.bytes_of ws) = (8 * List.length ws)%nat
  /\ Forall is_byte (flat_map Blake2b.bytes_of ws).
Proof.
  induction ws as [|x ws [IHlen IHall]]; [split; [reflexivity | constructor]|].
  destruct (blake2b_bytes_of x) as [Hlen Hall]. cbn [flat_map]. split.
  - rewrite length_app, Hlen, IHlen. cbn [List.length]. lia.
  - apply Forall_app. now split.
Qed.

Lemma blake2b_digest_32 (msg : JS.bytes) :
  List.length (Blake2b.digest 32 msg) = 32%nat
  /\ Forall is_byte (Blake2b.digest 32 msg).
Proof.
  unfold Blake2b.digest.
  match goal with
  | |- context [flat_map Blake2b.bytes_of ?ws] =>
      destruct (blake2b_flat_bytes ws) as [Hlen Hall];
      assert (Hws : List.length ws = 8%nat) by apply blake2b_blocks_length
  end.
  rewrite Hws in Hlen. split.
  - rewrite length_firstn, Hlen. reflexivity.
  - rewrite <- (firstn_skipn 32) in Hall. now apply Forall_app in Hall.
Qed.

(** The identifier of a document whose digest is 32 bytes. *)
Lemma hash_of_digest_32 (blake2b : nat -> JS.bytes -> JS.bytes) (json : string) :
  List.length (blake2b 32%nat (JS.utf8 json)) = 32%nat ->
  Forall is_byte (blake2b 32%nat (JS.utf8 json)) ->
  hash_of blake2b json
  = string_of_list_ascii (Base64Url.encode (blake2b 32%nat (JS.utf8 json)))
  /\ JS.strlen (hash_of blake2b json) = 43%nat
  /\ Forall Base64Url.url_safe (JS.chars (hash_of blake2b json)).
Proof.
  intros Hlen Hbytes.
  destruct (url_of_encode 32 (blake2b 32%nat (JS.utf8 json))) as [Heq Hsafe];
    [lia | assumption |].
  assert (Hh : hash_of blake2b json
               = string_of_list_ascii
                   (Base64Url.encode (blake2b 32%nat (JS.utf8 json)))).
  { unfold hash_of. fold (url_of (Base64.encode (blake2b 32%nat (JS.utf8 json)))).
    now rewrite Heq. }
  split; [exact Hh|].
  rewrite Hh, strlen_of_list, chars_of_list.
  split; [now apply encode_length_32 | assumption].
Qed.

(** With BLAKE2b itself, every document has an identifier of 43
    URL-safe characters. *)
Lemma blake2b_identifier (json : string) :
  JS.strlen (hash_of Blake2b.digest json) = 43%nat
  /\ Forall Base64Url.url_safe (JS.chars (hash_of Blake2b.digest json)).
Proof.
  destruct (blake2b_digest_32 (JS.utf8 json)) as [Hlen Hbytes].
  now destruct (hash_of_digest_32 Blake2b.digest json Hlen Hbytes) as (_ & ? & ?).
Qed.

(* ===================================================================== *)
(** ** The chunked transfer *)
(* ===================================================================== *)

Lemma nth_error_indexed {A B} (f : nat * A -> B) (l : list A) :
  forall s i : nat,
    nth_error (map f (combine (seq s (List.length l)) l)) i
    = option_map (fun c => f ((s + i)%nat, c)) (nth_error l i).
Proof.
  induction l as [|x l IH]; intros s i.
  - destruct i; reflexivity.
  - destruct i as [|i]; simpl.
    + now rewrite Nat.add_0_r.
    + rewrite IH. now rewrite Nat.add_succ_r.
Qed.

Lemma chunk_requests_nth (ins : Z) (chunks : list JS.bytes) (i : nat) (c : JS.bytes) :
  nth_error chunks i = Some c ->
  nth_error (chunk_requests ins chunks) i
  = Some (ReqChunk ins (S i) (List.length chunks) (Some c)).
Proof.
  intros H. unfold chunk_requests. rewrite nth_error_indexed, H. reflexivity.
Qed.

Lemma firstn_snoc {A} (l : list A) :
  forall (i : nat) (x : A),
    nth_error l i = Some x -> firstn (S i) l = firstn i l ++ [x].
Proof.
  induction l as [|y l IH]; intros i x H.
  - destruct i; discriminate.
  - destruct i as [|i]; simpl in *.
    + now inversion H.
    + now rewrite (IH i x H).
Qed.

Lemma nth_error_in_range {A} (l : list A) (i : nat) :
  (i < List.length l)%nat -> exists x, nth_error l i = Some x.
Proof.
  intros H. destruct (nth_error l i) eqn:E; [eauto|].
  apply nth_error_None in E. lia.
Qed.

Section Session.

Variable Dev : Type.
Variable BIP32Path : Type.
Variable serializePath : BIP32Path -> JS.bytes.
Variable prepareChunks : BIP32Path -> JS.bytes -> list JS.bytes.
Variable device_chunk :
  Z -> nat -> nat -> option JS.bytes -> Dev -> result JS.bytes * Dev.
Variable device_send :
  Z -> Z -> Z -> Z -> JS.bytes -> Dev -> result JS.bytes * Dev.
Variable processErrorResponse : error -> error.
Variable blake2b : nat -> JS.bytes -> JS.bytes.
Variable Buffer_toString : JS.bytes -> string.

Local Abbreviation world := (world Dev).
Local Abbreviation M := (M Dev).
Local Abbreviation signSendChunk := (signSendChunk Dev device_chunk).
Local Abbreviation chunk_loop := (chunk_loop Dev device_chunk).
Local Abbreviation send_chunks := (send_chunks Dev device_chunk).
Local Abbreviation getAddressAndPubKey :=
  (getAddressAndPubKey Dev BIP32Path serializePath device_send
     processErrorResponse Buffer_toString).
Local Abbreviation sign :=
  (sign Dev BIP32Path prepareChunks device_chunk processErrorResponse).
Local Abbreviation signHash :=
  (signHash Dev BIP32Path prepareChunks device_chunk processErrorResponse).
Local Abbreviation signTxInternal :=
  (signTxInternal Dev BIP32Path serializePath prepareChunks device_chunk
     device_send processErrorResponse blake2b Buffer_toString).
Local Abbreviation signTransferTx :=
  (signTransferTx Dev BIP32Path serializePath prepareChunks device_chunk
     device_send processErrorResponse blake2b Buffer_toString).
Local Abbreviation signTransferCreateTx :=
  (signTransferCreateTx Dev BIP32Path serializePath prepareChunks device_chunk
     device_send processErrorResponse blake2b Buffer_toString).
Local Abbreviation signTransferCrossChainTx :=
  (signTransferCrossChainTx Dev BIP32Path serializePath prepareChunks
     device_chunk device_send processErrorResponse blake2b Buffer_toString).

(** One request: the transcript grows by the request and its outcome,
    nothing else changes. *)
Lemma signSendChunk_run (ins : Z) (idx num : nat) (chunk : option JS.bytes)
    (w : world) :
  exists (out : result JS.bytes) (w' : world),
    signSendChunk ins idx num chunk w = (out, w')
    /\ trace w' = trace w ++ [Build_event (ReqChunk ins idx num chunk) out]
    /\ heap w' = heap w /\ clock w' = clock w.
Proof.
  unfold signSendChunk.
  destruct (device_chunk ins idx num chunk (device w)) as [out d].
  exists out. eexists. split; [reflexivity|]. simpl. auto.
Qed.

Lemma chunk_loop_transcript (ins : Z) (chunks : list JS.bytes) :
  forall (fuel i : nat) (resp : JS.bytes) (w : world)
         (before : list event) (e : event),
    (1 <= i <= List.length chunks)%nat ->
    (List.length chunks - i <= fuel)%nat ->
    map ev_request (before ++ [e]) = firstn i (chunk_requests ins chunks) ->
    Forall succeeded before ->
    ev_outcome e = inr resp ->
    exists (out : result JS.bytes) (w' : world) (evs : list event),
      chunk_loop ins chunks fuel i resp w = (out, w')
      /\ trace w' = trace w ++ evs
      /\ heap w' = heap w /\ clock w' = clock w
      /\ chunk_transcript ins chunks ((before ++ [e]) ++ evs) out.
Proof.
  induction fuel as [|fuel IH]; intros i resp w before e Hi Hfuel Hreq Hok He.
  - exists (inr resp), w, []. simpl. rewrite !app_nil_r.
    repeat split; try reflexivity.
    exists i, before, e. repeat split; try assumption; try lia.
  - simpl. destruct (Nat.ltb_spec i (List.length chunks)) as [Hlt|Hge].
    + destruct (nth_error_in_range chunks i Hlt) as [c Hc]. rewrite Hc.
      destruct (signSendChunk_run ins (S i) (List.length chunks) (Some c) w)
        as (out & w1 & Hrun & Htr & Hheap & Hclock).
      unfold bind. rewrite Hrun.
      assert (Hreq' : map ev_request
                        ((before ++ [e])
                           ++ [Build_event (ReqChunk ins (S i) (List.length chunks)
                                              (Some c)) out])
                      = firstn (S i) (chunk_requests ins chunks)).
      { rewrite map_app, Hreq. cbn [map ev_request].
        now rewrite (firstn_snoc _ i _ (chunk_requests_nth ins chunks i c Hc)). }
      destruct out as [err|resp'].
      * exists (inl err), w1, [Build_event (ReqChunk ins (S i) (List.length chunks)
                                              (Some c)) (inl err)].
        repeat split; try assumption.
        exists (S i), (before ++ [e]), (Build_event (ReqChunk ins (S i)
                                                       (List.length chunks) (Some c))
                                                    (inl err)).
        repeat split; try assumption; try lia.
        -- apply Forall_app. split; [assumption|].
           constructor; [now exists resp | constructor].
        -- intros [r Hr]. discriminate.
      * destruct (IH (i + 1)%nat resp' w1 (before ++ [e])
                     (Build_event (ReqChunk ins (S i) (List.length chunks) (Some c))
                                  (inr resp')))
          as (out & w' & evs & Hloop & Htr' & Hheap' & Hclock' & Ht).
        -- lia.
        -- lia.
        -- now rewrite Nat.add_1_r.
        -- apply Forall_app. split; [assumption|].
           constructor; [now exists resp | constructor].
        -- reflexivity.
        -- exists out, w',
             (Build_event (ReqChunk ins (S i) (List.length chunks) (Some c))
                          (inr resp') :: evs).
           repeat split.
           ++ exact Hloop.
           ++ rewrite Htr', Htr, <- app_assoc. reflexivity.
           ++ congruence.
           ++ congruence.
           ++ replace ((before ++ [e])
                         ++ Build_event (ReqChunk ins (S i) (List.length chunks)
                                           (Some c)) (inr resp') :: evs)
                with (((before ++ [e])
                         ++ [Build_event (ReqChunk ins (S i) (List.length chunks)
                                            (Some c)) (inr resp')]) ++ evs)
                by (now rewrite <- app_assoc).
              exact Ht.
    + exists (inr resp), w, []. rewrite !app_nil_r.
      repeat split; try reflexivity.
      exists i, before, e. repeat split; try assumption; try lia.
Qed.

Lemma chunk_loop_extends (ins : Z) (chunks : list JS.bytes) :
  forall (fuel i : nat) (resp : JS.bytes) (w : world),
    exists (out : result JS.bytes) (w' : world) (evs : list event),
      chunk_loop ins chunks fuel i resp w = (out, w')
      /\ trace w' = trace w ++ evs
      /\ heap w' = heap w /\ clock w' = clock w.
Proof.
  induction fuel as [|fuel IH]; intros i resp w.
  - exists (inr resp), w, []. rewrite app_nil_r. auto.
  - simpl. destruct (i <? List.length chunks)%nat.
    + destruct (signSendChunk_run ins (S i) (List.length chunks) (nth_error chunks i) w)
        as (out & w1 & Hrun & Htr & Hheap & Hclock).
      unfold bind. rewrite Hrun. destruct out as [err|resp'].
      * eexists _, w1, _. repeat split; eassumption.
      * destruct (IH (i + 1)%nat resp' w1)
          as (out & w' & evs & Hloop & Htr' & Hheap' & Hclock').
        eexists out, w', (_ :: evs). split; [exact Hloop|].
        split; [|split; congruence].
        rewrite Htr', Htr, <- app_assoc. reflexivity.
    + exists (inr resp), w, []. rewrite app_nil_r. auto.
Qed.

(** The first request is made whatever the chunks are. *)
Lemma send_chunks_first (ins : Z) (chunks : list JS.bytes) (w : world) :
  exists (out : result JS.bytes) (w' : world) (ev : event) (evs : list event),
    send_chunks ins chunks w = (out, w')
    /\ trace w' = trace w ++ ev :: evs
    /\ ev_request ev = ReqChunk ins 1 (List.length chunks) (nth_error chunks 0)
    /\ heap w' = heap w /\ clock w' = clock w.
Proof.
  unfold send_chunks.
  destruct (signSendChunk_run ins 1 (List.length chunks) (nth_error chunks 0) w)
    as (out & w1 & Hrun & Htr & Hheap & Hclock).
  unfold bind. rewrite Hrun. destruct out as [err|resp].
  - eexists _, w1, _, []. repeat split; try eassumption. reflexivity.
  - destruct (chunk_loop_extends ins chunks (List.length chunks) 1 resp w1)
      as (out & w' & evs & Hloop & Htr' & Hheap' & Hclock').
    eexists out, w', _, evs. split; [exact Hloop|].
    split; [rewrite Htr', Htr, <- app_assoc; reflexivity|].
    split; [reflexivity | split; congruence].
Qed.

(** The transcript of a chunked transfer of at least one chunk. *)
Lemma send_chunks_transcript (ins : Z) (chunks : list JS.bytes) (w : world) :
  chunks <> [] ->
  exists (out : result JS.bytes) (w' : world) (evs : list event),
    send_chunks ins chunks w = (out, w')
    /\ trace w' = trace w ++ evs
    /\ heap w' = heap w /\ clock w' = clock w
    /\ chunk_transcript ins chunks evs out.
Proof.
  intros Hne. unfold send_chunks.
  destruct chunks as [|c0 rest] eqn:Hchunks; [contradiction|].
  rewrite <- Hchunks in *. assert (Hc0 : nth_error chunks 0 = Some c0) by now subst.
  assert (Hlen : (1 <= List.length chunks)%nat) by (subst; simpl; lia).
  rewrite Hc0.
  destruct (signSendChunk_run ins 1 (List.length chunks) (Some c0) w)
    as (out & w1 & Hrun & Htr & Hheap & Hclock).
  unfold bind. rewrite Hrun.
  assert (Hreq : map ev_request
                   ([] ++ [Build_event (ReqChunk ins 1 (List.length chunks) (Some c0)) out])
                 = firstn 1 (chunk_requests ins chunks)).
  { rewrite (firstn_snoc _ 0 _ (chunk_requests_nth ins chunks 0 c0 Hc0)).
    reflexivity. }
  destruct out as [err|resp].
  - eexists (inl err), w1, _. repeat split; try eassumption.
    exists 1%nat, [], (Build_event (ReqChunk ins 1 (List.length chunks) (Some c0))
                                   (inl err)).
    repeat split; try assumption; try lia; try constructor.
    intros [r Hr]. discriminate.
  - destruct (chunk_loop_transcript ins chunks (List.length chunks) 1 resp w1 []
                (Build_event (ReqChunk ins 1 (List.length chunks) (Some c0)) (inr resp)))
      as (out & w' & evs & Hloop & Htr' & Hheap' & Hclock' & Ht);
      try assumption; try lia; try constructor.
    eexists out, w', (_ :: evs). split; [exact Hloop|].
    split; [rewrite Htr', Htr, <- app_assoc; reflexivity|].
    split; [congruence|]. split; [congruence|]. exact Ht.
Qed.

Lemma readBytes_all (response : JS.bytes) :
  readBytes (List.length response) response = inr (response, []).
Proof.
  unfold readBytes. rewrite Nat.leb_refl, firstn_all, skipn_all. reflexivity.
Qed.

(** [sign] is the chunked transfer with instruction [SIGN]: its response
    is the signature, its error is normalized. *)
Lemma sign_run (path : BIP32Path) (blob : JS.bytes) (w : world) :
  sign path blob w
  = match send_chunks INS_SIGN (prepareChunks path blob) w with
    | (inr resp, w') => (inr {| signature := resp |}, w')
    | (inl e, w') => (inl (processErrorResponse e), w')
    end.
Proof.
  unfold sign, try_catch, bind, lift, ret, throw.
  destruct (send_chunks INS_SIGN (prepareChunks path blob) w) as [[e|resp] w'];
    [reflexivity|].
  rewrite readBytes_all. reflexivity.
Qed.

Lemma signHash_run (path : BIP32Path) (hash : hash_input) (w : world) :
  signHash path hash w
  = if negb (List.length (rawHash hash) =? 32)%nat
    then (inl (TypeError "Hash is not 32 bytes"), w)
    else match send_chunks INS_SIGN_HASH (prepareChunks path (rawHash hash)) w with
         | (inr resp, w') => (inr {| signature := resp |}, w')
         | (inl e, w') => (inl (processErrorResponse e), w')
         end.
Proof.
  unfold signHash, try_catch, bind, lift, ret, throw.
  destruct (negb (List.length (rawHash hash) =? 32)%nat); [reflexivity|].
  destruct (send_chunks INS_SIGN_HASH (prepareChunks path (rawHash hash)) w)
    as [[e|resp] w']; [reflexivity|].
  rewrite readBytes_all. reflexivity.
Qed.

(** Address retrieval is one request that is not a chunk. *)
Lemma getAddressAndPubKey_run (path : BIP32Path) (show : bool) (w : world) :
  exists (out : result ResponseAddress) (w' : world) (ev : event),
    getAddressAndPubKey path show w = (out, w')
    /\ trace w' = trace w ++ [ev]
    /\ ~ is_chunk_request ev
    /\ heap w' = heap w /\ clock w' = clock w.
Proof.
  unfold getAddressAndPubKey, try_catch, bind, lift, ret, throw, transport_send.
  destruct (device_send _ _ _ _ _ (device w)) as [[e|resp] d].
  - eexists _, _, _. split; [reflexivity|]. simpl. auto.
  - destruct (readBytes PUBKEYLEN resp) as [e|[pk rest]].
    + eexists _, _, _. split; [reflexivity|]. simpl. auto.
    + rewrite readBytes_all. eexists _, _, _. split; [reflexivity|]. simpl. auto.
Qed.

(** What a run of [signTxInternal] is: either it fails before any request
    (the record is missing, validation fails, or the payload cannot be
    built), or it transfers the chunks of the payload and then, if the
    last chunk succeeded, retrieves the public key and builds the
    document and its hash. *)
Lemma signTxInternal_run (path : BIP32Path) (params : ref) (txType : TransferTxType)
    (w : world) (res : result ResponseSignTransfer) (w' : world) :
  signTxInternal path params txType w = (res, w') ->
  heap w' = heap w /\ clock w' = clock w
  /\ ((w' = w
       /\ exists e, res = inl e
            /\ forall p, nth_error (heap w) params = Some p ->
                 checkTransferTxParamsSanity p = inr tt ->
                 signTxInternal_payload (clock w) p txType = inl e)
      \/ exists (p : TransferCrossChainTxParams) (payload : JS.bytes) (ct : Z)
                (out : result JS.bytes) (w1 : world),
           nth_error (heap w) params = Some p
           /\ checkTransferTxParamsSanity p = inr tt
           /\ signTxInternal_payload (clock w) p txType = inr (payload, ct)
           /\ send_chunks INS_SIGN_TRANSFER_TX (prepareChunks path payload) w
              = (out, w1)
           /\ match out with
              | inl e0 => res = inl (processErrorResponse e0) /\ w' = w1
              | inr resp =>
                  exists ev : event,
                    trace w' = trace w1 ++ [ev]
                    /\ ~ is_chunk_request ev
                    /\ forall r, res = inr r ->
                         tx_signature r = resp
                         /\ hash r = hash_of blake2b (cmd r)
                         /\ exists pk : JS.bytes,
                              buildTransferJson p (txType_tag txType)
                                (Buffer_toString_hex pk) ct = inr (cmd r)
              end).
Proof.
  unfold signTxInternal, bind, getTime, deref, lift, try_catch, ret, throw.
  destruct (nth_error (heap w) params) as [p|] eqn:Hp; cbv beta iota.
  2:{ intros H. inversion H; subst. repeat split; try reflexivity.
      left. split; [reflexivity|]. eexists. split; [reflexivity|].
      intros p0 Hp0. discriminate. }
  destruct (checkTransferTxParamsSanity p) as [e|[]] eqn:Hcheck; cbv beta iota.
  { intros H. inversion H; subst. repeat split; try reflexivity.
    left. split; [reflexivity|]. eexists. split; [reflexivity|].
    intros p0 Hp0 Hc0. congruence. }
  rewrite Hp; cbv beta iota.
  destruct (signTxInternal_payload (clock w) p txType) as [e|[payload ct]] eqn:Hpay; cbv beta iota.
  { intros H. inversion H; subst. repeat split; try reflexivity.
    left. split; [reflexivity|]. eexists. split; [reflexivity|].
    intros p0 Hp0 Hc0. congruence. }
  destruct (send_chunks_first INS_SIGN_TRANSFER_TX (prepareChunks path payload) w)
    as (out & w1 & ev0 & evs0 & Hsend & Htr1 & _ & Hheap1 & Hclock1).
  rewrite Hsend. destruct out as [e0|resp]; cbv beta iota.
  { intros H. inversion H; subst. split; [assumption|]. split; [assumption|].
    right. exists p, payload, ct, (inl e0), w'. repeat split; auto. }
  rewrite <- Hp.
  destruct (getAddressAndPubKey_run path false w1)
    as (aout & w2 & ev & Haddr & Htr2 & Hnc & Hheap2 & Hclock2).
  rewrite Haddr; cbv beta iota.
  assert (Hp2 : nth_error (heap w2) params = Some p) by congruence.
  assert (Hright :
    forall res0 : result ResponseSignTransfer,
      (forall r, res0 = inr r ->
         tx_signature r = resp /\ hash r = hash_of blake2b (cmd r)
         /\ exists pk, buildTransferJson p (txType_tag txType)
                         (Buffer_toString_hex pk) ct = inr (cmd r)) ->
      heap w2 = heap w /\ clock w2 = clock w
      /\ ((w2 = w
           /\ exists e, res0 = inl e
                /\ forall p, nth_error (heap w) params = Some p ->
                     checkTransferTxParamsSanity p = inr tt ->
                     signTxInternal_payload (clock w) p txType = inl e)
          \/ exists p payload ct out w1,
               nth_error (heap w) params = Some p
               /\ checkTransferTxParamsSanity p = inr tt
               /\ signTxInternal_payload (clock w) p txType = inr (payload, ct)
               /\ send_chunks INS_SIGN_TRANSFER_TX (prepareChunks path payload) w
                  = (out, w1)
               /\ match out with
                  | inl e0 => res0 = inl (processErrorResponse e0) /\ w2 = w1
                  | inr resp =>
                      exists ev : event,
                        trace w2 = trace w1 ++ [ev]
                        /\ ~ is_chunk_request ev
                        /\ forall r, res0 = inr r ->
                             tx_signature r = resp
                             /\ hash r = hash_of blake2b (cmd r)
                             /\ exists pk : JS.bytes,
                                  buildTransferJson p (txType_tag txType)
                                    (Buffer_toString_hex pk) ct = inr (cmd r)
                  end)).
  { intros res0 Hres0. split; [congruence|]. split; [congruence|].
    right. exists p, payload, ct, (inr resp), w1.
    repeat split; try assumption. exists ev. auto. }
  destruct aout as [e|addr]; cbv beta iota.
  { intros H. inversion H; subst. apply Hright. intros r Hr. discriminate. }
  rewrite Hp2; cbv beta iota.
  destruct (buildTransferJson p (txType_tag txType)
              (Buffer_toString_hex (pubkey addr)) ct) as [e|json] eqn:Hjson; cbv beta iota.
  { intros H. inversion H; subst. apply Hright. intros r Hr. discriminate. }
  rewrite readBytes_all; cbv beta iota.
  intros H. inversion H; subst. apply Hright.
  intros r Hr. inversion Hr; subst. simpl.
  split; [reflexivity|]. split; [reflexivity|]. now exists (pubkey addr).
Qed.

(* ===================================================================== *)
(** ** The transfer operations and the caller's record *)
(* ===================================================================== *)

Lemma list_set_same {A} (l : list A) :
  forall (i : nat) (x y : A),
    nth_error l i = Some x -> nth_error (list_set l i y) i = Some y.
Proof.
  induction l as [|z l IH]; intros [|i] x y H; simpl in *;
    try discriminate; [reflexivity | eauto].
Qed.

Lemma list_set_other {A} (l : list A) :
  forall (i j : nat) (y : A),
    i <> j -> nth_error (list_set l i y) j = nth_error l j.
Proof.
  induction l as [|z l IH]; intros [|i] [|j] y H; simpl; try reflexivity;
    [contradiction | apply IH; congruence].
Qed.

Lemma signTransferTx_run (path : BIP32Path) (params : ref) (w : world)
    (p : TransferCrossChainTxParams) :
  nth_error (heap w) params = Some p ->
  signTransferTx path params w
  = signTxInternal path params TRANSFER
      (mkWorld (device w) (trace w)
               (list_set (heap w) params (set_recipient_chainId 0 p)) (clock w)).
Proof.
  intros Hp. unfold signTransferTx, bind, assign_recipient_chainId.
  rewrite Hp. reflexivity.
Qed.

Lemma signTransferCreateTx_run (path : BIP32Path) (params : ref) (w : world)
    (p : TransferCrossChainTxParams) :
  nth_error (heap w) params = Some p ->
  signTransferCreateTx path params w
  = signTxInternal path params TRANSFER_CREATE
      (mkWorld (device w) (trace w)
               (list_set (heap w) params (set_recipient_chainId 0 p)) (clock w)).
Proof.
  intros Hp. unfold signTransferCreateTx, bind, assign_recipient_chainId.
  rewrite Hp. reflexivity.
Qed.

Lemma signTransferCrossChainTx_run (path : BIP32Path) (params : ref) (w : world)
    (p : TransferCrossChainTxParams) :
  nth_error (heap w) params = Some p ->
  signTransferCrossChainTx path params w
  = if loose_eq (chainId p) (recipient_chainId p)
    then (inl (TypeError
                 "Recipient chainId is same as sender's in a cross-chain transfer"), w)
    else signTxInternal path params TRANSFER_CROSS_CHAIN w.
Proof.
  intros Hp. unfold signTransferCrossChainTx, bind, deref, throw.
  rewrite Hp. destruct (loose_eq _ _); reflexivity.
Qed.

(** Each transfer variant either fails before it reaches
    [signTxInternal], leaving the session as it was, or is a run of
    [signTxInternal] from a session with the same transcript and clock. *)
Lemma transfer_variant_internal (path : BIP32Path) (params : ref) (w : world)
    (res : result ResponseSignTransfer) (w' : world) :
  signTransferTx path params w = (res, w')
  \/ signTransferCreateTx path params w = (res, w')
  \/ signTransferCrossChainTx path params w = (res, w') ->
  (w' = w /\ exists e, res = inl e)
  \/ exists (ty : TransferTxType) (w0 : world),
       trace w0 = trace w /\ clock w0 = clock w
       /\ signTxInternal path params ty w0 = (res, w').
Proof.
  intros Hrun. destruct (nth_error (heap w) params) as [p|] eqn:Hp.
  - destruct Hrun as [Hrun|[Hrun|Hrun]].
    + rewrite (signTransferTx_run _ _ _ _ Hp) in Hrun.
      right. eexists _, _. split; [|split; [|exact Hrun]]; reflexivity.
    + rewrite (signTransferCreateTx_run _ _ _ _ Hp) in Hrun.
      right. eexists _, _. split; [|split; [|exact Hrun]]; reflexivity.
    + rewrite (signTransferCrossChainTx_run _ _ _ _ Hp) in Hrun.
      destruct (loose_eq _ _).
      * left. inversion Hrun; subst. eauto.
      * right. eexists _, _. split; [|split; [|exact Hrun]]; reflexivity.
  - left.
    unfold signTransferTx, signTransferCreateTx, signTransferCrossChainTx,
      bind, assign_recipient_chainId, deref in Hrun.
    rewrite Hp in Hrun.
    destruct Hrun as [Hrun|[Hrun|Hrun]]; inversion Hrun; subst; eauto.
Qed.

(** C6, as the code has it: [signTransferTx] and [signTransferCreateTx]
    store 0 in [recipient_chainId] of the caller's record and leave its
    other fields and the other records as they were;
    [signTransferCrossChainTx] leaves every record as it was, and so does
    validation, which only computes its verdict. *)
Theorem transfer_writes_only_recipient_chainId
    (path : BIP32Path) (params : ref) (w : world)
    (p : TransferCrossChainTxParams) :
  nth_error (heap w) params = Some p ->
  (forall res w',
      signTransferTx path params w = (res, w')
      \/ signTransferCreateTx path params w = (res, w') ->
      nth_error (heap w') params
      = Some (set_recipient_chainId 0 p)
      /\ forall other : ref,
           other <> params -> nth_error (heap w') other = nth_error (heap w) other)
  /\ (forall res w',
         signTransferCrossChainTx path params w = (res, w') -> heap w' = heap w)
  /\ (forall q : TransferCrossChainTxParams,
         snd (lift Dev (checkTransferTxParamsSanity q) w) = w).
Proof.
  intros Hp. split; [|split; [|reflexivity]].
  - intros res w' Hrun.
    assert (Hint : exists ty,
               signTxInternal path params ty
                 (mkWorld (device w) (trace w)
                    (list_set (heap w) params (set_recipient_chainId 0 p)) (clock w))
               = (res, w')).
    { destruct Hrun as [Hrun|Hrun];
        [rewrite (signTransferTx_run _ _ _ _ Hp) in Hrun
        |rewrite (signTransferCreateTx_run _ _ _ _ Hp) in Hrun]; eauto. }
    destruct Hint as [ty Hint].
    apply signTxInternal_run in Hint as (Hheap & _). simpl in Hheap.
    rewrite Hheap. split.
    + now apply list_set_same with (x := p).
    + intros other Hne. now apply list_set_other.
  - intros res w'. rewrite (signTransferCrossChainTx_run _ _ _ _ Hp).
    destruct (loose_eq _ _).
    + intros H. now inversion H.
    + intros H. now apply signTxInternal_run in H as (Hheap & _).
Qed.

(** C7: a cross-chain transfer whose recipient chain is the sender's chain
    fails with the error of the guard and leaves the session as it was: no
    request is made.  The chain id "0" equals the recipient chain id 0. *)
Theorem cross_chain_same_chain_rejected
    (path : BIP32Path) (params : ref) (w : world)
    (p : TransferCrossChainTxParams) :
  (nth_error (heap w) params = Some p ->
   loose_eq (chainId p) (recipient_chainId p) = true ->
   signTransferCrossChainTx path params w
   = (inl (TypeError
             "Recipient chainId is same as sender's in a cross-chain transfer"),
      w))
  /\ loose_eq (Str "0") (Some 0) = true
  /\ loose_eq (Num 0) (Some 0) = true.
Proof.
  split; [|split; vm_compute; reflexivity].
  intros Hp Heq. rewrite (signTransferCrossChainTx_run _ _ _ _ Hp), Heq.
  reflexivity.
Qed.

(** C5: the hash identifier of a document is the base64 text of its
    32-byte digest with '+' and '/' replaced by '-' and '_' and the
    padding removed, which is the unpadded base64 of the digest over the
    URL-safe alphabet: 43 characters of that alphabet.  The hash a
    transfer operation returns is the identifier of the document it
    returns. *)
Theorem hash_is_base64url_of_digest :
  (forall json : string,
      let digest := blake2b 32%nat (JS.utf8 json) in
      List.length digest = 32%nat ->
      Forall is_byte digest ->
      hash_of blake2b json
      = string_of_list_ascii
          (Base64.remove_all "="
             (Base64.replace_all "/" "_"
                (Base64.replace_all "+" "-" (Base64.encode digest))))
      /\ hash_of blake2b json = string_of_list_ascii (Base64Url.encode digest)
      /\ JS.strlen (hash_of blake2b json) = 43%nat
      /\ Forall Base64Url.url_safe (JS.chars (hash_of blake2b json)))
  /\ (forall path params w res w' r,
         signTransferTx path params w = (res, w')
         \/ signTransferCreateTx path params w = (res, w')
         \/ signTransferCrossChainTx path params w = (res, w') ->
         res = inr r ->
         hash r = hash_of blake2b (cmd r)).
Proof.
  split.
  - intros json digest Hlen Hbytes.
    split; [reflexivity | now apply hash_of_digest_32].
  - intros path params w res w' r Hrun ->.
    apply transfer_variant_internal in Hrun
      as [[_ [e He]]|(ty & w0 & _ & _ & Hint)]; [discriminate|].
    apply signTxInternal_run in Hint
      as (_ & _ & [(_ & e & He & _)|(p & payload & ct & out & w1 & _ & _ & _ & _ & Hout)]);
      [discriminate|].
    destruct out as [e0|resp].
    + destruct Hout as [Hres _]. discriminate.
    + destruct Hout as (ev & _ & _ & Hr). now destruct (Hr r eq_refl) as (_ & ? & _).
Qed.

(* ===================================================================== *)
(** ** Hash signing *)
(* ===================================================================== *)

(** C8: [signHash] ends in an error with no request made exactly when
    the decoded hash is not 32 bytes long; then it is the error of the
    guard and the session is untouched.  For 32 bytes the transfer starts:
    the first chunk of the path and the decoded hash is requested. *)
Theorem signHash_fails_fast_iff_not_32_bytes
    (path : BIP32Path) (hash : hash_input) (w : world)
    (res : result ResponseSign) (w' : world) :
  signHash path hash w = (res, w') ->
  (((exists e, res = inl e) /\ trace w' = trace w)
   <-> List.length (rawHash hash) <> 32%nat)
  /\ (List.length (rawHash hash) <> 32%nat ->
      res = inl (TypeError "Hash is not 32 bytes") /\ w' = w)
  /\ (List.length (rawHash hash) = 32%nat ->
      exists (ev : event) (evs : list event),
        trace w' = trace w ++ ev :: evs
        /\ ev_request ev
           = ReqChunk INS_SIGN_HASH 1
               (List.length (prepareChunks path (rawHash hash)))
               (nth_error (prepareChunks path (rawHash hash)) 0)).
Proof.
  rewrite signHash_run.
  destruct (Nat.eqb_spec (List.length (rawHash hash)) 32) as [Heq|Hne];
    cbn [negb]; intros Hrun.
  - destruct (send_chunks_first INS_SIGN_HASH (prepareChunks path (rawHash hash)) w)
      as (out & w1 & ev & evs & Hsend & Htr & Hreq & _).
    rewrite Hsend in Hrun.
    assert (Htr' : trace w' = trace w ++ ev :: evs)
      by (destruct out; inversion Hrun; subst; assumption).
    split; [|split].
    + split; [|contradiction].
      intros [_ Hsame]. rewrite Hsame in Htr'.
      apply (f_equal (@List.length event)) in Htr'.
      rewrite length_app in Htr'. simpl in Htr'. lia.
    + contradiction.
    + intros _. exists ev, evs. auto.
  - inversion Hrun; subst. split; [|split].
    + split; [intros _; assumption | intros _; split; eauto].
    + auto.
    + contradiction.
Qed.

(* ===================================================================== *)
(** ** Chunk order, and the bytes a hash is taken for *)
(* ===================================================================== *)

Section AtLeastOneChunk.

(** [prepareChunks] always yields the chunk of the path. *)
Hypothesis prepareChunks_nonempty :
  forall (path : BIP32Path) (message : JS.bytes), prepareChunks path message <> [].

Lemma send_chunks_chunked_run (ins : Z) (path : BIP32Path) (message : JS.bytes)
    (w : world) (out : result JS.bytes) (w1 : world) :
  send_chunks ins (prepareChunks path message) w = (out, w1) ->
  exists evs : list event,
    trace w1 = trace w ++ evs
    /\ chunk_transcript ins (prepareChunks path message) evs out.
Proof.
  intros Hsend.
  destruct (send_chunks_transcript ins (prepareChunks path message) w
              (prepareChunks_nonempty path message))
    as (out' & w1' & evs & Hsend' & Htr & _ & _ & Ht).
  rewrite Hsend in Hsend'. inversion Hsend'; subst. eauto.
Qed.

Lemma sign_discipline (ins : Z) (path : BIP32Path) (message : JS.bytes)
    (w : world) (res : result ResponseSign) (w' : world) :
  match send_chunks ins (prepareChunks path message) w with
  | (inr resp, w') => (inr {| signature := resp |}, w')
  | (inl e, w') => (inl (processErrorResponse e), w')
  end = (res, w') ->
  exists out : result JS.bytes,
    chunked_run ins (prepareChunks path message) (trace w) (trace w') out
    /\ delivered processErrorResponse res out.
Proof.
  destruct (send_chunks ins (prepareChunks path message) w) as [out w1] eqn:Hsend.
  destruct (send_chunks_chunked_run _ _ _ _ _ _ Hsend) as (evs & Htr & Ht).
  intros Hrun. exists out. split.
  - exists evs, []. rewrite app_nil_r.
    destruct out; inversion Hrun; subst; repeat split; auto.
  - destruct out; inversion Hrun; subst; simpl; eauto.
Qed.

Lemma signTxInternal_discipline (path : BIP32Path) (params : ref)
    (txType : TransferTxType) (w : world) (res : result ResponseSignTransfer)
    (w' : world) :
  signTxInternal path params txType w = (res, w') ->
  (trace w' = trace w
   /\ exists e, res = inl e
        /\ forall p, nth_error (heap w) params = Some p ->
             checkTransferTxParamsSanity p = inr tt ->
             signTxInternal_payload (clock w) p txType = inl e)
  \/ exists (p : TransferCrossChainTxParams) (payload : JS.bytes) (ct : Z)
            (out : result JS.bytes),
       nth_error (heap w) params = Some p
       /\ checkTransferTxParamsSanity p = inr tt
       /\ signTxInternal_payload (clock w) p txType = inr (payload, ct)
       /\ chunked_run INS_SIGN_TRANSFER_TX (prepareChunks path payload)
            (trace w) (trace w') out
       /\ (forall e0, out = inl e0 -> res = inl (processErrorResponse e0))
       /\ (forall r, res = inr r ->
             out = inr (tx_signature r)
             /\ hash r = hash_of blake2b (cmd r)
             /\ exists pk : JS.bytes,
                  buildTransferJson p (txType_tag txType)
                    (Buffer_toString_hex pk) ct = inr (cmd r)).
Proof.
  intros Hrun.
  apply signTxInternal_run in Hrun as (_ & _ & [(-> & e & Hres & Hwhy)|Hsent]).
  - left. eauto.
  - destruct Hsent as (p & payload & ct & out & w1 & Hp & Hcheck & Hpay & Hsend & Hout).
    destruct (send_chunks_chunked_run _ _ _ _ _ _ Hsend) as (evs & Htr & Ht).
    right. exists p, payload, ct, out. repeat split; try assumption.
    + destruct out as [e0|resp].
      * destruct Hout as [_ ->]. exists evs, []. rewrite app_nil_r.
        repeat split; auto.
      * destruct Hout as (ev & Htr' & Hnc & _). exists evs, [ev].
        repeat split; auto.
        -- rewrite Htr', Htr, <- app_assoc. reflexivity.
        -- intros [e He]. discriminate.
    + intros e0 ->. now destruct Hout.
    + destruct out as [e0|resp].
      * destruct Hout as [Hres _]. rewrite Hres in H. discriminate.
      * destruct Hout as (ev & _ & _ & Hr). now destruct (Hr r H) as (<- & _).
    + destruct out as [e0|resp].
      * destruct Hout as [Hres _]. rewrite Hres in H. discriminate.
      * destruct Hout as (ev & _ & _ & Hr). now destruct (Hr r H) as (_ & ? & _).
    + destruct out as [e0|resp].
      * destruct Hout as [Hres _]. rewrite Hres in H. discriminate.
      * destruct Hout as (ev & _ & _ & Hr). now destruct (Hr r H) as (_ & _ & ?).
Qed.

(** A run of [signTxInternal] on the record [p]. *)
Lemma signTxInternal_transfer_run (path : BIP32Path) (params : ref)
    (txType : TransferTxType) (w : world) (p : TransferCrossChainTxParams)
    (res : result ResponseSignTransfer) (w' : world) :
  nth_error (heap w) params = Some p ->
  signTxInternal path params txType w = (res, w') ->
  transfer_run prepareChunks processErrorResponse path txType (clock w) p
    (trace w) (trace w') res.
Proof.
  intros Hp Hrun. unfold transfer_run.
  destruct (checkTransferTxParamsSanity p) as [e|[]] eqn:Hcheck.
  { unfold signTxInternal, bind, getTime, deref, lift in Hrun.
    rewrite Hp in Hrun. cbv beta iota in Hrun. rewrite Hcheck in Hrun.
    inversion Hrun; subst. split; reflexivity. }
  destruct (signTxInternal_payload (clock w) p txType) as [e|[payload ct]] eqn:Hpay.
  { unfold signTxInternal, bind, getTime, deref, lift in Hrun.
    rewrite Hp in Hrun. cbv beta iota in Hrun. rewrite Hcheck in Hrun.
    cbv beta iota in Hrun. rewrite Hp in Hrun. cbv beta iota in Hrun.
    rewrite Hpay in Hrun. inversion Hrun; subst. split; reflexivity. }
  apply signTxInternal_discipline in Hrun
    as [(_ & e & _ & Hwhy)
       |(p' & payload' & ct' & out & Hp' & _ & Hpay' & Hchunks & Herr & Hok)].
  - rewrite (Hwhy p Hp Hcheck) in Hpay. discriminate.
  - assert (p' = p) by congruence. subst p'.
    rewrite Hpay in Hpay'. inversion Hpay'; subst payload' ct'.
    exists out. split; [exact Hchunks|].
    destruct out as [e0|resp]; [now apply Herr|].
    intros r Hr. destruct (Hok r Hr) as (Hout & _). congruence.
Qed.

(** C9: every signing operation sends the chunks of its payload one
    after the other with the indices 1, 2, ... and the total count; the
    signature it returns is the response to the last chunk; a chunk that
    fails is the last one sent, and its error is what the operation
    throws.  A transfer sends nothing only when its guard or validation
    rejects the record or the payload cannot be built; otherwise it
    transfers the chunks of the payload of the record it validated. *)
Theorem chunks_sent_in_order :
  (forall path blob w res w',
      sign path blob w = (res, w') ->
      exists out,
        chunked_run INS_SIGN (prepareChunks path blob) (trace w) (trace w') out
        /\ delivered processErrorResponse res out)
  /\ (forall path hash w res w',
         signHash path hash w = (res, w') ->
         List.length (rawHash hash) = 32%nat ->
         exists out,
           chunked_run INS_SIGN_HASH (prepareChunks path (rawHash hash))
             (trace w) (trace w') out
           /\ delivered processErrorResponse res out)
  /\ (forall path params w p res w',
         nth_error (heap w) params = Some p ->
         (signTransferTx path params w = (res, w') ->
          transfer_run prepareChunks processErrorResponse path TRANSFER
            (clock w) (set_recipient_chainId 0 p) (trace w) (trace w') res)
         /\ (signTransferCreateTx path params w = (res, w') ->
             transfer_run prepareChunks processErrorResponse path TRANSFER_CREATE
               (clock w) (set_recipient_chainId 0 p) (trace w) (trace w') res)
         /\ (signTransferCrossChainTx path params w = (res, w') ->
             if loose_eq (chainId p) (recipient_chainId p)
             then trace w' = trace w
                  /\ res = inl (TypeError
                       "Recipient chainId is same as sender's in a cross-chain transfer")
             else transfer_run prepareChunks processErrorResponse path
                    TRANSFER_CROSS_CHAIN (clock w) p (trace w) (trace w') res)).
Proof.
  split; [|split].
  - intros path blob w res w'. rewrite sign_run. apply sign_discipline.
  - intros path hash w res w'. rewrite signHash_run. intros Hrun Hlen.
    rewrite Hlen in Hrun. cbn [Nat.eqb negb] in Hrun.
    revert Hrun. apply sign_discipline.
  - intros path params w p res w' Hp. split; [|split]; intros Hrun.
    + rewrite (signTransferTx_run _ _ _ _ Hp) in Hrun.
      apply (signTxInternal_transfer_run _ _ _ _ (set_recipient_chainId 0 p)) in Hrun;
        [exact Hrun|].
      simpl. now apply list_set_same with (x := p).
    + rewrite (signTransferCreateTx_run _ _ _ _ Hp) in Hrun.
      apply (signTxInternal_transfer_run _ _ _ _ (set_recipient_chainId 0 p)) in Hrun;
        [exact Hrun|].
      simpl. now apply list_set_same with (x := p).
    + rewrite (signTransferCrossChainTx_run _ _ _ _ Hp) in Hrun.
      destruct (loose_eq (chainId p) (recipient_chainId p)).
      * inversion Hrun; subst. split; reflexivity.
      * now apply (signTxInternal_transfer_run _ _ _ _ p) in Hrun.
Qed.

(** C10: [signHash] takes a string of exactly 64 characters for the
    bytes its hexadecimal decoding gives, a string of any other length for
    the bytes its base64 decoding gives, and bytes for themselves: the
    guard tests the length of those bytes, and their chunks are what it
    sends. *)
Theorem signHash_string_decoding
    (path : BIP32Path) (w : world) (res : result ResponseSign) (w' : world) :
  (forall s : string,
      JS.strlen s = 64%nat ->
      signHash path (HashString s) w = (res, w') ->
      signed_as prepareChunks processErrorResponse path (Buffer_from_hex s) w w' res)
  /\ (forall s : string,
         JS.strlen s <> 64%nat ->
         signHash path (HashString s) w = (res, w') ->
         signed_as prepareChunks processErrorResponse path (Buffer_from_base64 s)
           w w' res)
  /\ (forall b : JS.bytes,
         signHash path (HashBytes b) w = (res, w') ->
         signed_as prepareChunks processErrorResponse path b w w' res).
Proof.
  assert (Hraw : forall hash,
             signHash path hash w = (res, w') ->
             signed_as prepareChunks processErrorResponse path (rawHash hash) w w' res).
  { intros hash. rewrite signHash_run. unfold signed_as.
    destruct (List.length (rawHash hash) =? 32)%nat; cbn [negb].
    - apply sign_discipline.
    - intros H. inversion H; subst. split; reflexivity. }
  split; [|split].
  - intros s Hlen Hrun. apply Hraw in Hrun. unfold rawHash in Hrun.
    rewrite Hlen in Hrun. exact Hrun.
  - intros s Hlen Hrun. apply Hraw in Hrun. unfold rawHash in Hrun.
    destruct (Nat.eqb_spec (JS.strlen s) 64); [contradiction | exact Hrun].
  - intros b Hrun. now apply Hraw in Hrun.
Qed.

End AtLeastOneChunk.

End Session.

(* ===================================================================== *)
(** ** The payload that is sent *)
(* ===================================================================== *)

(** The payload is the tag of the variant followed by the encoder's unit
    for each of the twelve fields, in their order. *)
Lemma signTxInternal_payload_layout (now : Z) (p : TransferCrossChainTxParams)
    (ty : TransferTxType) (rc : Z) :
  recipient_chainId p = Some rc ->
  signTxInternal_payload now p ty
  = inr (tagged_fields (txType_tag ty) (normalized_fields now p rc),
         creation_time now p).
Proof.
  intros Hrc. unfold signTxInternal_payload. rewrite Hrc.
  unfold tagged_fields, normalized_fields, creation_time.
  cbn [List.concat flat_map app]. rewrite !app_nil_r.
  destruct ty; reflexivity.
Qed.

(** On fields of 7-bit text no longer than 255 the payload is the one
    described: each unit is the byte length and the bytes of its field. *)
Lemma payload_on_ascii_fields (tag : Z) (fields : list string) :
  Forall (fun f => is_ascii_text f /\ (JS.strlen f <= 255)%nat) fields ->
  tagged_fields tag fields = described_payload tag fields.
Proof.
  intros Hall. unfold tagged_fields, described_payload. f_equal.
  induction Hall as [|f fields [Hascii Hlen] _ IH]; [reflexivity|].
  cbn [flat_map]. now rewrite IH, (textPayload_ascii f Hascii Hlen).
Qed.

(** C3, at a transfer whose network name is U+00E9, which validation
    accepts: the fields are in the described order, but the unit sent for
    the network name is the bytes 1, 0 where its byte length and UTF-8
    bytes are 2, 195, 169; the device receives the chunks of that payload
    and signs; and it receives the very same requests for the transfer
    whose network name is U+0000. *)
Theorem payload_field_not_length_prefixed :
  checkTransferTxParamsSanity (set_recipient_chainId 0 accented_intent) = inr tt
  /\ normalized_fields 1700000000123 accented_intent 0
     = fields_before_network ++ e_acute :: fields_after_network
  /\ described_payload 0 (normalized_fields 1700000000123 accented_intent 0)
     = 0 :: flat_map length_prefixed fields_before_network
         ++ [2; 195; 169]
         ++ flat_map length_prefixed fields_after_network
  /\ map ev_request
       (trace (snd (sim_signTransferTx Sim.path0 0%nat (Sim.start [accented_intent]))))
     = chunk_requests INS_SIGN_TRANSFER_TX
         (Sim.prepareChunks Sim.path0
            (0 :: flat_map length_prefixed fields_before_network
               ++ [1; 0]
               ++ flat_map length_prefixed fields_after_network))
       ++ [ReqSend CLA INS_GET_ADDR P1_ONLY_RETRIEVE 0 (Sim.serializePath Sim.path0)]
  /\ (exists r,
         fst (sim_signTransferTx Sim.path0 0%nat (Sim.start [accented_intent])) = inr r
         /\ tx_signature r = Sim.the_signature)
  /\ map ev_request
       (trace (snd (sim_signTransferTx Sim.path0 0%nat (Sim.start [nul_intent]))))
     = map ev_request
         (trace (snd (sim_signTransferTx Sim.path0 0%nat (Sim.start [accented_intent])))).
Proof.
  split; [vm_compute; reflexivity|].
  split; [vm_compute; reflexivity|].
  split; [vm_compute; reflexivity|].
  split; [vm_compute; reflexivity|].
  split; [|vm_compute; reflexivity].
  eexists. split; [vm_compute; reflexivity | reflexivity].
Qed.

(* ===================================================================== *)
(** ** The properties at a simulated session *)
(* ===================================================================== *)

Lemma sim_prepareChunks_nonempty (path : Sim.BIP32Path) (message : JS.bytes) :
  Sim.prepareChunks path message <> [].
Proof. unfold Sim.prepareChunks. discriminate. Defined.

Lemma recipient_accepted_iff_hex64_witness :
  (exists p, recipient p = "k:" +:+ hex64
             /\ checkTransferTxParamsSanity p = inr tt)
  /\ (exists e, checkTransferTxParamsSanity
                  (mkParams None None None (hex64 +:+ "0") (Str "10") (Num 0)
                            "testnet" None None None None None None) = inl e).
Proof.
  split.
  - apply (proj2 (proj1 recipient_accepted_iff_hex64 ("k:" +:+ hex64))).
    vm_compute. split; reflexivity.
  - apply (proj2 recipient_accepted_iff_hex64).
    intros [Hlen _]. vm_compute in Hlen. discriminate.
Defined.

Lemma hash_is_base64url_of_digest_witness :
  hash_of Blake2b.digest "{}"
  = string_of_list_ascii (Base64Url.encode (Blake2b.digest 32 (JS.utf8 "{}")))
  /\ JS.strlen (hash_of Blake2b.digest "{}") = 43%nat.
Proof.
  destruct (proj1 (hash_is_base64url_of_digest Sim.Dev Sim.BIP32Path
                     Sim.serializePath Sim.prepareChunks Sim.device_chunk
                     Sim.device_send Sim.processErrorResponse Blake2b.digest
                     Sim.Buffer_toString) "{}")
    as (_ & Hurl & Hlen & _).
  - vm_compute. reflexivity.
  - set (d := Blake2b.digest 32 (JS.utf8 "{}")). vm_compute in d. subst d.
    repeat (apply Forall_cons; [unfold is_byte; lia|]). apply Forall_nil.
  - split; assumption.
Defined.

(** C6 as stated fails: a record without [recipient_chainId] has the
    field set to 0 after [signTransferTx]. *)
Lemma signTransferTx_changes_the_record :
  option_map recipient_chainId (nth_error (heap (Sim.start [intent_5])) 0)
    = Some None
  /\ option_map recipient_chainId
       (nth_error
          (heap (snd (sim_signTransferTx Sim.path0 0%nat (Sim.start [intent_5]))))
          0)
     = Some (Some 0).
Proof. vm_compute. split; reflexivity. Qed.

Lemma transfer_writes_only_recipient_chainId_witness :
  nth_error
    (heap (snd (sim_signTransferTx Sim.path0 0%nat (Sim.start [intent_5; sample_params]))))
    0
  = Some (set_recipient_chainId 0 intent_5)
  /\ nth_error
       (heap (snd (sim_signTransferTx Sim.path0 0%nat
                     (Sim.start [intent_5; sample_params]))))
       1
     = Some sample_params.
Proof.
  destruct (proj1 (transfer_writes_only_recipient_chainId Sim.Dev Sim.BIP32Path
                     Sim.serializePath Sim.prepareChunks Sim.device_chunk
                     Sim.device_send Sim.processErrorResponse Blake2b.digest
                     Sim.Buffer_toString Sim.path0 0%nat
                     (Sim.start [intent_5; sample_params]) intent_5 eq_refl)
                  (fst (sim_signTransferTx Sim.path0 0%nat
                          (Sim.start [intent_5; sample_params])))
                  (snd (sim_signTransferTx Sim.path0 0%nat
                          (Sim.start [intent_5; sample_params]))))
    as [Hrec Hother].
  - left. apply surjective_pairing.
  - split; [exact Hrec|]. rewrite (Hother 1%nat); [reflexivity | discriminate].
Defined.

Lemma cross_chain_same_chain_rejected_witness :
  sim_signTransferCrossChainTx Sim.path0 0%nat (Sim.start [same_chain_intent])
  = (inl (TypeError "Recipient chainId is same as sender's in a cross-chain transfer"),
     Sim.start [same_chain_intent]).
Proof.
  apply (proj1 (cross_chain_same_chain_rejected Sim.Dev Sim.BIP32Path
                  Sim.serializePath Sim.prepareChunks Sim.device_chunk
                  Sim.device_send Sim.processErrorResponse Blake2b.digest
                  Sim.Buffer_toString Sim.path0 0%nat
                  (Sim.start [same_chain_intent]) same_chain_intent)).
  - reflexivity.
  - vm_compute. reflexivity.
Defined.

Lemma signHash_fails_fast_iff_not_32_bytes_witness :
  fst (sim_signHash Sim.path0 (HashString "abcd") (Sim.start []))
  = inl (TypeError "Hash is not 32 bytes")
  /\ snd (sim_signHash Sim.path0 (HashString "abcd") (Sim.start [])) = Sim.start [].
Proof.
  apply (signHash_fails_fast_iff_not_32_bytes Sim.Dev Sim.BIP32Path
           Sim.prepareChunks Sim.device_chunk Sim.processErrorResponse
           Sim.path0 (HashString "abcd") (Sim.start [])).
  - apply surjective_pairing.
  - vm_compute. discriminate.
Defined.

Lemma chunks_sent_in_order_witness :
  (exists out,
      chunked_run INS_SIGN (Sim.prepareChunks Sim.path0 (repeat 7 300))
        (trace (Sim.start []))
        (trace (snd (sim_sign Sim.path0 (repeat 7 300) (Sim.start [])))) out
      /\ delivered Sim.processErrorResponse
           (fst (sim_sign Sim.path0 (repeat 7 300) (Sim.start []))) out)
  /\ transfer_run Sim.prepareChunks Sim.processErrorResponse Sim.path0 TRANSFER
       (clock (Sim.start [intent_5])) (set_recipient_chainId 0 intent_5)
       (trace (Sim.start [intent_5]))
       (trace (snd (sim_signTransferTx Sim.path0 0%nat (Sim.start [intent_5]))))
       (fst (sim_signTransferTx Sim.path0 0%nat (Sim.start [intent_5]))).
Proof.
  destruct (chunks_sent_in_order Sim.Dev Sim.BIP32Path Sim.serializePath
              Sim.prepareChunks Sim.device_chunk Sim.device_send
              Sim.processErrorResponse Blake2b.digest Sim.Buffer_toString
              sim_prepareChunks_nonempty) as (Hsign & _ & Htransfer).
  split.
  - apply Hsign. apply surjective_pairing.
  - exact (proj1 (Htransfer Sim.path0 0%nat (Sim.start [intent_5]) intent_5
                    (fst (sim_signTransferTx Sim.path0 0%nat (Sim.start [intent_5])))
                    (snd (sim_signTransferTx Sim.path0 0%nat (Sim.start [intent_5])))
                    eq_refl)
                 (surjective_pairing _)).
Defined.

Lemma signHash_string_decoding_witness :
  signed_as Sim.prepareChunks Sim.processErrorResponse Sim.path0
    (Buffer_from_hex hex64) (Sim.start [])
    (snd (sim_signHash Sim.path0 (HashString hex64) (Sim.start [])))
    (fst (sim_signHash Sim.path0 (HashString hex64) (Sim.start [])))
  /\ signed_as Sim.prepareChunks Sim.processErrorResponse Sim.path0
       (Buffer_from_base64 base64_hash) (Sim.start [])
       (snd (sim_signHash Sim.path0 (HashString base64_hash) (Sim.start [])))
       (fst (sim_signHash Sim.path0 (HashString base64_hash) (Sim.start []))).
Proof.
  split.
  - apply (proj1 (signHash_string_decoding Sim.Dev Sim.BIP32Path Sim.prepareChunks
                    Sim.device_chunk Sim.processErrorResponse
                    sim_prepareChunks_nonempty Sim.path0 (Sim.start []) _ _) hex64).
    + vm_compute. reflexivity.
    + apply surjective_pairing.
  - apply (proj1 (proj2 (signHash_string_decoding Sim.Dev Sim.BIP32Path
                           Sim.prepareChunks Sim.device_chunk
                           Sim.processErrorResponse sim_prepareChunks_nonempty
                           Sim.path0 (Sim.start []) _ _)) base64_hash).
    + vm_compute. discriminate.
    + apply surjective_pairing.
Defined.

(* ===================================================================== *)
(** ** More on the field encoder *)
(* ===================================================================== *)

Lemma code_range (c : ascii) : 0 <= JS.code c < 256.
Proof.
  unfold JS.code. pose proof (N_ascii_bounded c). lia.
Qed.

Lemma code_inj (c c' : ascii) : JS.code c = JS.code c' -> c = c'.
Proof.
  unfold JS.code. intros H. apply N2Z.inj in H.
  rewrite <- (ascii_N_embedding c), <- (ascii_N_embedding c'). now rewrite H.
Qed.

Lemma map_code_inj (cs cs' : list ascii) :
  map JS.code cs = map JS.code cs' -> cs = cs'.
Proof.
  revert cs'. induction cs as [|c cs IH]; intros [|c' cs'] H;
    try discriminate; [reflexivity|].
  inversion H as [[Hc Hcs]]. f_equal; [now apply code_inj | now apply IH].
Qed.

Lemma chars_inj (s s' : string) : JS.chars s = JS.chars s' -> s = s'.
Proof.
  unfold JS.chars. intros H.
  rewrite <- (string_of_list_ascii_of_string s),
          <- (string_of_list_ascii_of_string s').
  now rewrite H.
Qed.

Lemma utf8_char_bytes (c : ascii) :
  Forall is_byte (JS.utf8_char c) /\ (List.length (JS.utf8_char c) <= 2)%nat.
Proof.
  pose proof (code_range c) as Hc.
  assert (H : forallb (fun n => (0 <=? Z.lor 192 (Z.shiftr n 6))
                                && (Z.lor 192 (Z.shiftr n 6) <? 256)
                                && (0 <=? Z.lor 128 (Z.land n 63))
                                && (Z.lor 128 (Z.land n 63) <? 256)) byte_range = true)
    by (vm_compute; reflexivity).
  pose proof (for_all_bytes _ H (JS.code c) Hc) as Hb.
  unfold JS.utf8_char. destruct (JS.code c <? 128).
  - split; [repeat constructor; apply Hc | simpl; lia].
  - split; [|simpl; lia].
    apply andb_true_iff in Hb as [Hb H4]. apply andb_true_iff in Hb as [Hb H3].
    apply andb_true_iff in Hb as [H1 H2].
    repeat constructor; unfold is_byte; lia.
Qed.

Lemma utf8_fit_bytes (cs : list ascii) :
  forall cap : nat,
    (List.length (JS.utf8_fit cap cs) <= cap)%nat
    /\ Forall is_byte (JS.utf8_fit cap cs).
Proof.
  induction cs as [|c cs IH]; intros cap; simpl.
  - split; [lia | constructor].
  - destruct (utf8_char_bytes c) as [Hb _].
    destruct (Nat.leb_spec (List.length (JS.utf8_char c)) cap) as [Hle|Hgt].
    + destruct (IH (cap - List.length (JS.utf8_char c))%nat) as [Hlen Hall].
      split; [rewrite length_app; lia | now apply Forall_app].
    + split; [simpl; lia | constructor].
Qed.

Lemma textPayload_buffer (txt : string) :
  List.length (textPayload txt) = S (JS.strlen txt)
  /\ nth 0 (textPayload txt) 0 = Z.of_nat (JS.strlen txt) mod 256
  /\ Forall is_byte (textPayload txt).
Proof.
  unfold textPayload, JS.Buffer_write, JS.Buffer_alloc.
  cbn [Nat.add repeat JS.buf_set firstn List.length].
  rewrite repeat_length.
  replace (S (JS.strlen txt) - 1)%nat with (JS.strlen txt) by lia.
  destruct (utf8_fit_bytes (JS.chars txt) (JS.strlen txt)) as [Hlen Hall].
  set (w := JS.utf8_fit (JS.strlen txt) (JS.chars txt)) in *.
  cbn [Nat.add skipn app nth].
  split; [|split].
  - cbn [List.length]. rewrite length_app, length_skipn, repeat_length. lia.
  - reflexivity.
  - constructor.
    + unfold is_byte. apply Z.mod_pos_bound. lia.
    + apply Forall_app. split; [assumption|].
      rewrite <- (firstn_skipn (List.length w) (repeat 0 (JS.strlen txt))).
      assert (Hz : Forall is_byte (repeat 0 (JS.strlen txt))).
      { apply Forall_forall. intros x Hx. apply repeat_spec in Hx. subst.
        unfold is_byte. lia. }
      rewrite <- (firstn_skipn (List.length w)) in Hz.
      apply Forall_app in Hz as [_ Hz].
      now rewrite firstn_skipn.
Qed.

(** The encoder always returns a buffer of [1 + txt.length] bytes whose
    first byte is [txt.length] modulo 256, whatever the characters of the
    text are. *)
Theorem textPayload_size (txt : string) :
  List.length (textPayload txt) = S (JS.strlen txt)
  /\ nth 0 (textPayload txt) 0 = Z.of_nat (JS.strlen txt) mod 256
  /\ Forall is_byte (textPayload txt).
Proof. exact (textPayload_buffer txt). Qed.

Lemma app_inj_length {A} (l1 l2 r1 r2 : list A) :
  List.length l1 = List.length l2 ->
  l1 ++ r1 = l2 ++ r2 -> l1 = l2 /\ r1 = r2.
Proof.
  revert l2. induction l1 as [|x l1 IH]; intros [|y l2] Hlen H;
    try discriminate; [now split|].
  inversion H as [[Hx Hrest]]. simpl in Hlen.
  destruct (IH l2) as [-> ->]; [lia | assumption | now split].
Qed.

Lemma textPayload_app_inj (s s' : string) (r r' : JS.bytes) :
  is_ascii_text s -> (JS.strlen s <= 255)%nat ->
  is_ascii_text s' -> (JS.strlen s' <= 255)%nat ->
  textPayload s ++ r = textPayload s' ++ r' -> s = s' /\ r = r'.
Proof.
  intros Ha Hl Ha' Hl'.
  rewrite (textPayload_ascii s Ha Hl), (textPayload_ascii s' Ha' Hl').
  unfold length_prefixed, JS.byteLength.
  rewrite (utf8_ascii s Ha), (utf8_ascii s' Ha'), !length_map, !chars_length.
  intros H. inversion H as [[Hn Hrest]].
  apply app_inj_length in Hrest as [Hs Hr];
    [|rewrite !length_map, !chars_length; lia].
  split; [now apply chars_inj, map_code_inj | assumption].
Qed.

(** On fields of 7-bit text of at most 255 characters the tagged payload
    determines its tag and its fields: two payloads are equal only if the
    tags and the lists of fields are. *)
Theorem tagged_fields_inj (t1 t2 : Z) (f1 f2 : list string) :
  Forall (fun f => is_ascii_text f /\ (JS.strlen f <= 255)%nat) f1 ->
  Forall (fun f => is_ascii_text f /\ (JS.strlen f <= 255)%nat) f2 ->
  tagged_fields t1 f1 = tagged_fields t2 f2 ->
  t1 = t2 /\ f1 = f2.
Proof.
  unfold tagged_fields. intros H1 H2 H. inversion H as [[Ht Hf]].
  split; [reflexivity|]. clear H Ht. revert f2 H2 Hf.
  induction H1 as [|s f1 [Ha Hl] _ IH]; intros f2 H2 Hf.
  - destruct f2 as [|s' f2]; [reflexivity|].
    cbn [flat_map] in Hf. pose proof (proj1 (textPayload_buffer s')) as Hlen.
    apply (f_equal (@List.length Z)) in Hf. rewrite length_app in Hf.
    cbn [List.length] in Hf. lia.
  - destruct f2 as [|s' f2].
    + cbn [flat_map] in Hf. pose proof (proj1 (textPayload_buffer s)) as Hlen.
      apply (f_equal (@List.length Z)) in Hf. rewrite length_app in Hf.
      cbn [List.length] in Hf. lia.
    + inversion H2 as [|? ? [Ha' Hl'] H2']; subst. cbn [flat_map] in Hf.
      apply textPayload_app_inj in Hf as [-> Hf]; try assumption.
      f_equal. now apply IH.
Qed.

(* ===================================================================== *)
(** ** More on amount normalization *)
(* ===================================================================== *)

Lemma chars_app (s t : string) : JS.chars (s +:+ t) = JS.chars s ++ JS.chars t.
Proof.
  unfold JS.chars. induction s as [|c s IH]; simpl; [reflexivity | now rewrite IH].
Qed.

Lemma includes_char_app (c : ascii) (s t : string) :
  JS.includes_char c (s +:+ t) = JS.includes_char c s || JS.includes_char c t.
Proof. unfold JS.includes_char. now rewrite chars_app, existsb_app. Qed.

(** Normalizing twice is normalizing once, and a normalized amount never
    reads as an integer: it has a decimal point, or it is not the text of
    an integer-valued number at all. *)
Theorem convertDecimal_idempotent (decimal : scalar) :
  convertDecimal (Str (convertDecimal decimal)) = convertDecimal decimal
  /\ (JS.includes_char "." (convertDecimal decimal) = true
      \/ JS.isInteger (JS.Number (convertDecimal decimal)) = false).
Proof.
  unfold convertDecimal. cbn [scalar_toString].
  set (s := scalar_toString decimal).
  destruct (JS.includes_char "." s) eqn:Hdot.
  - rewrite Hdot. auto.
  - destruct (JS.isInteger (JS.Number s)) eqn:Hint.
    + assert (H : JS.includes_char "." (s +:+ ".0") = true)
        by (rewrite includes_char_app, Hdot; reflexivity).
      rewrite H. auto.
    + rewrite Hdot, Hint. auto.
Qed.

Lemma digit_facts (c : ascii) :
  JS.is_digit 10 c = true ->
  JS.is_ws c = false
  /\ Ascii.eqb "." c = false
  /\ c <> "+"%char /\ c <> "-"%char /\ c <> "I"%char
  /\ (Ascii.eqb c "x" || Ascii.eqb c "X")%bool = false
  /\ (Ascii.eqb c "o" || Ascii.eqb c "O")%bool = false
  /\ (Ascii.eqb c "b" || Ascii.eqb c "B")%bool = false.
Proof.
  destruct c as [[] [] [] [] [] [] [] []]; vm_compute; intros H;
    try discriminate H; repeat split; discriminate.
Qed.

Lemma span_digits_all (radix : Z) (cs : list ascii) :
  forallb (JS.is_digit radix) cs = true -> JS.span_digits radix cs = (cs, []).
Proof.
  induction cs as [|c cs IH]; simpl; [reflexivity|].
  intros H. apply andb_true_iff in H as [Hc Hcs]. now rewrite Hc, IH.
Qed.

Lemma drop_ws_digit (c : ascii) (cs : list ascii) :
  JS.is_digit 10 c = true -> JS.drop_ws (c :: cs) = c :: cs.
Proof.
  intros H. simpl. now rewrite (proj1 (digit_facts c H)).
Qed.

Lemma trim_digits (cs : list ascii) :
  forallb (JS.is_digit 10) cs = true -> JS.trim cs = cs.
Proof.
  intros Hall. unfold JS.trim. destruct cs as [|c cs]; [reflexivity|].
  rewrite drop_ws_digit by (simpl in Hall; now apply andb_true_iff in Hall).
  destruct (rev (c :: cs)) as [|l r] eqn:Hrev.
  - apply (f_equal (@rev ascii)) in Hrev. rewrite rev_involutive in Hrev.
    discriminate.
  - rewrite drop_ws_digit.
    + rewrite <- Hrev. apply rev_involutive.
    + rewrite forallb_forall in Hall. apply Hall. apply in_rev.
      rewrite Hrev. now left.
Qed.

Lemma includes_dot_digits (cs : list ascii) :
  forallb (JS.is_digit 10) cs = true -> existsb (Ascii.eqb ".") cs = false.
Proof.
  induction cs as [|c cs IH]; cbn [forallb existsb]; [reflexivity|].
  intros H. apply andb_true_iff in H as [Hc Hcs].
  destruct (digit_facts c Hc) as (_ & -> & _). now apply IH.
Qed.

Lemma digits_value_bound (cs : list ascii) :
  forall a : Z,
    0 <= a ->
    0 <= fold_left (fun a c => a * 10 + match JS.digit_val 10 c with
                                        | Some v => v | None => 0 end) cs a
      < (a + 1) * 10 ^ Z.of_nat (List.length cs).
Proof.
  induction cs as [|c cs IH]; intros a Ha.
  - simpl. lia.
  - cbn [fold_left List.length]. rewrite Nat2Z.inj_succ, Z.pow_succ_r by lia.
    assert (Hd : 0 <= match JS.digit_val 10 c with Some v => v | None => 0 end <= 9).
    { unfold JS.digit_val.
      destruct (_ <? 10) eqn:E; [apply Z.ltb_lt in E|]; [|lia].
      destruct ((48 <=? JS.code c) && (JS.code c <=? 57)) eqn:E1.
      - apply andb_true_iff in E1 as [E1 E2]. lia.
      - destruct ((97 <=? JS.code c) && (JS.code c <=? 102)) eqn:E2.
        + apply andb_true_iff in E2 as [E2 E3]. lia.
        + destruct ((65 <=? JS.code c) && (JS.code c <=? 70)) eqn:E3.
          * apply andb_true_iff in E3 as [E3 E4]. lia.
          * lia. }
    specialize (IH (a * 10 + match JS.digit_val 10 c with
                             | Some v => v | None => 0 end)).
    destruct IH as [IH1 IH2]; [lia|]. split; [assumption|].
    eapply Z.lt_le_trans; [exact IH2|].
    assert (0 < 10 ^ Z.of_nat (List.length cs)) by (apply Z.pow_pos_nonneg; lia).
    nia.
Qed.

(** Rounding an integer below 2^1000 to binary64 gives an integer. *)
Lemma round64_integer (p : Z) :
  0 < p < 2 ^ 1000 ->
  exists n x, JS.round64 p 1 = Some (n, x)
              /\ JS.isInteger (JS.Finite false n x) = true.
Proof.
  intros [Hpos Hlt].
  pose proof (Z.log2_spec p Hpos) as [Hlo Hhi].
  pose proof (Z.log2_nonneg p) as HL0.
  assert (HL : Z.log2 p < 1000) by (apply Z.log2_lt_pow2; lia).
  unfold JS.round64. change (Z.log2 1) with 0. rewrite Z.sub_0_r.
  set (L := Z.log2 p) in *.
  rewrite (Z.max_r 0 L), (Z.max_l 0 (- L)) by lia.
  rewrite Z.mul_1_l, Z.pow_0_r, Z.mul_1_r.
  destruct (Z.leb_spec (2 ^ L) p) as [_|]; [|lia].
  rewrite (Z.max_l L (-1022)) by lia.
  destruct (Z.le_gt_cases 52 L) as [Hbig|Hsmall].
  - destruct (Z.ltb_spec 971 (L - 52)); [lia|].
    destruct (Z.eqb_spec (L - 52) 971); [lia|]. cbn [orb andb].
    eexists _, _. split; [reflexivity|]. cbn [JS.isInteger].
    destruct (Z.leb_spec 0 (L - 52)); [reflexivity | lia].
  - rewrite (Z.max_r 0 (- (L - 52))), (Z.max_l 0 (L - 52)) by lia.
    rewrite Z.pow_0_r, Z.mul_1_l, Z.div_1_r, Z.mod_1_r.
    cbn [Z.mul Z.ltb Z.compare].
    destruct (Z.ltb_spec 971 (L - 52)); [lia|].
    destruct (Z.eqb_spec (L - 52) 971); [lia|]. cbn [orb andb].
    eexists _, _. split; [reflexivity|]. cbn [JS.isInteger].
    destruct (Z.leb_spec 0 (L - 52)); [reflexivity|].
    rewrite Z.mod_mul; [reflexivity|].
    apply Z.pow_nonzero; lia.
Qed.

Lemma Number_digits (cs : list ascii) :
  cs <> [] ->
  forallb (JS.is_digit 10) cs = true ->
  JS.Number (string_of_list_ascii cs)
  = JS.decimal_to_number false (JS.digits_value 10 cs) 0.
Proof.
  intros Hne Hall. unfold JS.Number. rewrite chars_of_list, (trim_digits cs Hall).
  assert (Hparse : JS.parse_unsigned_decimal false cs
                   = JS.decimal_to_number false (JS.digits_value 10 cs) 0).
  { unfold JS.parse_unsigned_decimal.
    destruct (list_eq_dec ascii_dec cs (JS.chars "Infinity")) as [Heq|_].
    - subst cs. discriminate Hall.
    - rewrite (span_digits_all 10 cs Hall). rewrite app_nil_r.
      destruct cs as [|c cs]; [contradiction|]. reflexivity. }
  destruct cs as [|c0 rest]; [contradiction|].
  assert (Hc0 : JS.is_digit 10 c0 = true)
    by (simpl in Hall; now apply andb_true_iff in Hall).
  destruct (digit_facts c0 Hc0) as (_ & _ & Hplus & Hminus & _).
  assert (Hsign : JS.take_sign (c0 :: rest) = (false, c0 :: rest)).
  { unfold JS.take_sign.
    destruct c0 as [[] [] [] [] [] [] [] []]; try reflexivity; contradiction. }
  assert (Hplain : (let (neg, r) := JS.take_sign (c0 :: rest) in
                    JS.parse_unsigned_decimal neg r)
                   = JS.decimal_to_number false (JS.digits_value 10 (c0 :: rest)) 0)
    by (rewrite Hsign; exact Hparse).
  destruct rest as [|c r].
  - destruct c0 as [[] [] [] [] [] [] [] []]; exact Hplain.
  - assert (Hc : JS.is_digit 10 c = true).
    { simpl in Hall. apply andb_true_iff in Hall as [_ Hall].
      now apply andb_true_iff in Hall. }
    destruct (digit_facts c Hc) as (_ & _ & _ & _ & _ & Hx & Ho & Hb).
    destruct c0 as [[] [] [] [] [] [] [] []]; try exact Hplain.
    rewrite Hx, Ho, Hb. exact Hparse.
Qed.

(** An amount written as decimal digits only (at most 300 of them,
    possibly none) is normalized by appending ".0". *)
Theorem convertDecimal_digits (s : string) :
  forallb (JS.is_digit 10) (JS.chars s) = true ->
  (JS.strlen s <= 300)%nat ->
  convertDecimal (Str s) = s +:+ ".0".
Proof.
  intros Hall Hlen.
  destruct (string_dec s EmptyString) as [->|Hne]; [vm_compute; reflexivity|].
  unfold convertDecimal. cbn [scalar_toString].
  unfold JS.includes_char. rewrite (includes_dot_digits _ Hall).
  assert (Hcs : JS.chars s <> []).
  { intros H. apply Hne. apply chars_inj. exact H. }
  rewrite <- (string_of_list_ascii_of_string s) at 1.
  change (list_ascii_of_string s) with (JS.chars s).
  rewrite (Number_digits _ Hcs Hall).
  unfold JS.decimal_to_number.
  destruct (Z.eqb_spec (JS.digits_value 10 (JS.chars s)) 0) as [_|Hnz];
    [reflexivity|].
  pose proof (digits_value_bound (JS.chars s) 0 (Z.le_refl 0)) as [Hlo Hhi].
  fold (JS.digits_value 10 (JS.chars s)) in Hlo, Hhi.
  rewrite chars_length in Hhi. cbn [Z.max Z.opp Z.compare].
  rewrite Z.pow_0_r, Z.mul_1_r.
  destruct (round64_integer (JS.digits_value 10 (JS.chars s))) as (n & x & -> & ->).
  - split; [lia|]. eapply Z.lt_le_trans; [exact Hhi|].
    apply Z.le_trans with (10 ^ 300).
    + rewrite Z.mul_1_l. apply Z.pow_le_mono_r; lia.
    + vm_compute. discriminate.
  - reflexivity.
Qed.

(* ===================================================================== *)
(** ** More on parameter validation *)
(* ===================================================================== *)

Lemma check_lengths_spec (r : string) (p : TransferCrossChainTxParams) :
  check_lengths r p maxLengths = inr tt
  <-> JS.strlen r = 64%nat
      /\ within 16 (value_of_opt_string (namespace p))
      /\ within 32 (value_of_opt_string (module_ p))
      /\ within 2 (value_of_opt_number (recipient_chainId p))
      /\ within 20 (VStr (network p))
      /\ within 32 (value_of_scalar (amount p))
      /\ within 20 (value_of_opt_string (gasPrice p))
      /\ within 10 (value_of_opt_string (gasLimit p))
      /\ within 12 (value_of_opt_number (creationTime p))
      /\ within 2 (value_of_scalar (chainId p))
      /\ within 32 (value_of_opt_string (nonce p))
      /\ within 20 (value_of_opt_string (ttl p)).
Proof.
  unfold within, maxLengths.
  cbn [check_lengths String.eqb Ascii.eqb Bool.eqb andb get_field].
  cbn [or_empty_toString].
  destruct (Nat.eqb_spec (JS.strlen r) 64) as [Hr|Hr]; cbn [negb].
  2:{ split; [discriminate | intros [H _]; contradiction]. }
  rewrite Hr, Nat.ltb_irrefl.
  repeat match goal with
         | |- context [(?b <? ?n)%nat] =>
             destruct (Nat.ltb_spec b n);
             [split; [discriminate | intros; repeat match goal with
                                             | H : _ /\ _ |- _ => destruct H
                                             end; lia]|]
         end.
  split; [intros _; repeat split; lia | reflexivity].
Qed.

Lemma sanity_valid_request (p : TransferCrossChainTxParams) :
  checkTransferTxParamsSanity p = inr tt <-> valid_request p.
Proof.
  unfold checkTransferTxParamsSanity, valid_request.
  fold (text_of (namespace p)). fold (text_of (module_ p)).
  assert (Hct : isNaN_ (value_of_opt_number (creationTime p)) = false)
    by (destruct (creationTime p); reflexivity).
  rewrite Hct.
  destruct (match_hex64 (strip_k (recipient p))) eqn:Hm; cbn [negb].
  2:{ split; [discriminate|]. intros [[Hlen Hall] _].
      rewrite (proj2 (match_hex64_exact _ Hlen) (conj Hlen Hall)) in Hm.
      discriminate. }
  destruct (String.eqb_spec (text_of (namespace p)) "") as [Hns|Hns];
    destruct (String.eqb_spec (text_of (module_ p)) "") as [Hmod|Hmod];
    cbn [negb andb].
  3:{ split; [discriminate|]. intros (_ & [H|H] & _); contradiction. }
  all: destruct (isNaN_ (value_of_scalar (amount p)));
    [split; [discriminate | intros (_ & _ & H & _); discriminate]|].
  all: destruct (isNaN_ (value_of_opt_string (gasPrice p)));
    [split; [discriminate | intros (_ & _ & _ & H & _); discriminate]|].
  all: destruct (isNaN_ (value_of_opt_string (gasLimit p)));
    [split; [discriminate | intros (_ & _ & _ & _ & H & _); discriminate]|].
  all: destruct (isNaN_ (value_of_opt_string (ttl p)));
    [split; [discriminate | intros (_ & _ & _ & _ & _ & H & _); discriminate]|].
  all: rewrite check_lengths_spec; split.
  all: try (intros (Hlen & Hrest);
            split; [now apply match_hex64_exact|];
            split; [auto|]; repeat (split; [reflexivity|]); exact Hrest).
  all: intros ([Hlen _] & _ & _ & _ & _ & _ & Hrest); split; assumption.
Qed.

Lemma strlen_app (s t : string) :
  JS.strlen (s +:+ t) = (JS.strlen s + JS.strlen t)%nat.
Proof.
  unfold JS.strlen. induction s as [|c s IH]; simpl; [reflexivity | now rewrite IH].
Qed.

Lemma convertDecimal_length (a : scalar) :
  (JS.strlen (convertDecimal a) <= JS.strlen (scalar_toString a) + 2)%nat.
Proof.
  unfold convertDecimal.
  destruct (JS.includes_char "." (scalar_toString a)); [lia|].
  destruct (JS.isInteger _); [|lia].
  rewrite strlen_app. simpl. lia.
Qed.

Lemma scalar_text_within (n : nat) (v : scalar) :
  (1 <= n)%nat -> within n (value_of_scalar v) ->
  (JS.strlen (scalar_toString v) <= n)%nat.
Proof.
  unfold within. destruct v as [z|s]; cbn [value_of_scalar or_empty_toString scalar_toString];
    [|auto].
  destruct (Z.eqb_spec z 0) as [->|_]; [intros H _; exact H | auto].
Qed.

Lemma number_text_within (n : nat) (z : Z) :
  (1 <= n)%nat -> within n (VNum z) -> (JS.strlen (JS.Z_toString z) <= n)%nat.
Proof.
  unfold within. cbn [or_empty_toString].
  destruct (Z.eqb_spec z 0) as [->|_]; [intros H _; exact H | auto].
Qed.

Lemma text_of_within (n : nat) (o : option string) :
  within n (value_of_opt_string o) -> (JS.strlen (text_of o) <= n)%nat.
Proof. unfold within. destruct o; simpl; auto. Qed.

Lemma default_within (n : nat) (o : option string) (d : string) :
  within n (value_of_opt_string o) -> (JS.strlen d <= n)%nat ->
  (JS.strlen (match o with None => d | Some s => s end) <= n)%nat.
Proof. unfold within. destruct o; simpl; auto. Qed.

Lemma flat_map_textPayload_length (fields : list string) :
  List.length (flat_map textPayload fields)
  = fold_right (fun f n => (S (JS.strlen f) + n)%nat) 0%nat fields
  /\ Forall is_byte (flat_map textPayload fields).
Proof.
  induction fields as [|f fields [IHlen IHall]]; [split; [reflexivity | constructor]|].
  destruct (textPayload_buffer f) as (Hlen & _ & Hall). cbn [flat_map fold_right].
  split; [rewrite length_app, Hlen, IHlen; reflexivity | now apply Forall_app].
Qed.

(** A validated request that names its creation time and recipient
    chain, its number-typed fields holding integers below 1e21 in
    magnitude (the numbers of this embedding), has a payload of at most
    277 bytes, and no field is longer than 64 characters: every length
    byte is the length of its field. *)
Theorem validated_payload_size
    (now : Z) (p : TransferCrossChainTxParams) (txType : TransferTxType)
    (c rc : Z) :
  checkTransferTxParamsSanity p = inr tt ->
  creationTime p = Some c ->
  recipient_chainId p = Some rc ->
  Forall (fun f => (JS.strlen f <= 64)%nat) (normalized_fields now p rc)
  /\ exists payload,
       signTxInternal_payload now p txType = inr (payload, c)
       /\ (List.length payload <= 277)%nat
       /\ Forall is_byte payload.
Proof.
  intros Hok Hc Hrc. apply sanity_valid_request in Hok.
  destruct Hok as ([Hrlen _] & _ & _ & _ & _ & _ & Hns & Hmod & Hrcw & Hnet
                   & Ham & Hgp & Hgl & Hct & Hch & Hno & Httl).
  rewrite Hrc in Hrcw. rewrite Hc in Hct.
  cbn [value_of_opt_number] in Hrcw, Hct.
  pose proof (number_text_within 2 rc ltac:(lia) Hrcw) as L2.
  pose proof (convertDecimal_length (amount p)) as L4a.
  pose proof (scalar_text_within 32 (amount p) ltac:(lia) Ham) as L4b.
  pose proof (text_of_within 16 _ Hns) as L5.
  pose proof (text_of_within 32 _ Hmod) as L6.
  pose proof (default_within 20 (gasPrice p) "1.0e-6" Hgp ltac:(simpl; lia)) as L7.
  pose proof (default_within 10 (gasLimit p) "2300" Hgl ltac:(simpl; lia)) as L8.
  pose proof (number_text_within 12 c ltac:(lia) Hct) as L9.
  pose proof (scalar_text_within 2 (chainId p) ltac:(lia) Hch) as L10.
  pose proof (text_of_within 32 _ Hno) as L11.
  pose proof (default_within 20 (ttl p) "600" Httl ltac:(simpl; lia)) as L12.
  unfold within in Hnet. cbn [or_empty_toString] in Hnet.
  unfold text_of in L5, L6, L11.
  assert (Hfields : signTxInternal_payload now p txType
                    = inr (tagged_fields (txType_tag txType)
                             (normalized_fields now p rc), c)).
  { unfold signTxInternal_payload. rewrite Hrc, Hc.
    unfold tagged_fields, normalized_fields, creation_time. rewrite Hc.
    cbn [List.concat flat_map app]. rewrite !app_nil_r.
    destruct txType; reflexivity. }
  split.
  - unfold normalized_fields, creation_time. rewrite Hc.
    repeat (apply Forall_cons; [lia|]). apply Forall_nil.
  - eexists. split; [exact Hfields|].
    destruct (flat_map_textPayload_length (normalized_fields now p rc))
      as [Hlen Hall].
    unfold tagged_fields. split.
    + cbn [List.length]. rewrite Hlen.
      unfold normalized_fields, creation_time. rewrite Hc.
      cbn [fold_right]. lia.
    + constructor; [|exact Hall].
      destruct txType; unfold is_byte; simpl; lia.
Qed.

Lemma substring_all (s : string) : String.substring 0 (String.length s) s = s.
Proof. induction s as [|c s IH]; simpl; [reflexivity | now rewrite IH]. Qed.

Lemma strip_k_prefixed (r : string) : strip_k ("k:" +:+ r) = r.
Proof.
  unfold strip_k, JS.startsWith, JS.substring_from.
  cbn [String.append String.prefix String.length Nat.sub String.substring].
  destruct (ascii_dec "k" "k") as [_|H]; [|contradiction].
  destruct (ascii_dec ":" ":") as [_|H]; [|contradiction].
  cbn [String.prefix]. rewrite Nat.sub_0_r.
  destruct r; apply substring_all.
Qed.

Lemma strip_k_plain (r : string) : JS.startsWith r "k:" = false -> strip_k r = r.
Proof. unfold strip_k. now intros ->. Qed.

(** Validation, payload and document read the recipient only without its
    "k:" prefix: a request gives the same verdict, the same payload and
    the same document with the prefixed recipient as with the bare one. *)
Theorem k_prefix_is_ignored (r : string) (p : TransferCrossChainTxParams)
    (now : Z) (txType : TransferTxType) (pubkey : string) (ct : Z) :
  JS.startsWith r "k:" = false ->
  checkTransferTxParamsSanity (with_recipient ("k:" +:+ r) p)
  = checkTransferTxParamsSanity (with_recipient r p)
  /\ signTxInternal_payload now (with_recipient ("k:" +:+ r) p) txType
     = signTxInternal_payload now (with_recipient r p) txType
  /\ buildTransferJson (with_recipient ("k:" +:+ r) p) (txType_tag txType) pubkey ct
     = buildTransferJson (with_recipient r p) (txType_tag txType) pubkey ct.
Proof.
  intros Hplain.
  unfold checkTransferTxParamsSanity, signTxInternal_payload, buildTransferJson,
    maxLengths.
  cbn [with_recipient recipient namespace module_ amount chainId network gasPrice
       gasLimit creationTime ttl nonce recipient_chainId
       check_lengths String.eqb Ascii.eqb Bool.eqb andb get_field].
  rewrite strip_k_prefixed, (strip_k_plain r Hplain).
  repeat split.
Qed.

(* ===================================================================== *)
(** ** More on the command document *)
(* ===================================================================== *)

(** The documents of a transfer and of a transfer-create are always
    built and do not read the recipient chain id; the document of a
    cross-chain transfer (any other type tag) cannot be built exactly when
    the recipient chain id is absent. *)
Theorem document_and_recipient_chainId
    (p : TransferCrossChainTxParams) (txType : Z) (pubkey : string) (ct : Z) :
  (txType = 0 \/ txType = 1 ->
   (exists json, buildTransferJson p txType pubkey ct = inr json)
   /\ forall v, buildTransferJson (set_recipient_chainId v p) txType pubkey ct
                = buildTransferJson p txType pubkey ct)
  /\ (txType <> 0 -> txType <> 1 ->
      ((exists e, buildTransferJson p txType pubkey ct = inl e)
       <-> recipient_chainId p = None)).
Proof.
  split.
  - intros [-> | ->]; unfold buildTransferJson; cbn [Z.eqb];
      (split; [eexists; reflexivity | reflexivity]).
  - intros H0 H1. unfold buildTransferJson.
    destruct (Z.eqb_spec txType 0); [contradiction|].
    destruct (Z.eqb_spec txType 1); [contradiction|].
    destruct (recipient_chainId p) as [rc|].
    + split; [intros [e He]; discriminate | discriminate].
    + split; [reflexivity | intros _; eexists; reflexivity].
Qed.

(** Without a namespace the document does not read the module: the
    invocation and the capability are those of [coin]. *)
Theorem document_ignores_module_without_namespace
    (p : TransferCrossChainTxParams) (m : option string)
    (txType : Z) (pubkey : string) (ct : Z) :
  text_of (namespace p) = "" ->
  buildTransferJson (with_module m p) txType pubkey ct
  = buildTransferJson p txType pubkey ct.
Proof.
  intros Hns. unfold buildTransferJson.
  cbn [with_module recipient namespace module_ amount chainId network gasPrice
       gasLimit creationTime ttl nonce recipient_chainId].
  unfold text_of in Hns. rewrite Hns. cbn [String.eqb]. reflexivity.
Qed.

(* ===================================================================== *)
(** ** More on the operations *)
(* ===================================================================== *)

Section Operations.

Variable Dev : Type.
Variable BIP32Path : Type.
Variable serializePath : BIP32Path -> JS.bytes.
Variable prepareChunks : BIP32Path -> JS.bytes -> list JS.bytes.
Variable device_chunk :
  Z -> nat -> nat -> option JS.bytes -> Dev -> result JS.bytes * Dev.
Variable device_send :
  Z -> Z -> Z -> Z -> JS.bytes -> Dev -> result JS.bytes * Dev.
Variable processErrorResponse : error -> error.
Variable blake2b : nat -> JS.bytes -> JS.bytes.
Variable Buffer_toString : JS.bytes -> string.

Local Abbreviation world := (world Dev).
Local Abbreviation send_chunks := (send_chunks Dev device_chunk).
Local Abbreviation getAddressAndPubKey :=
  (getAddressAndPubKey Dev BIP32Path serializePath device_send
     processErrorResponse Buffer_toString).
Local Abbreviation sign :=
  (sign Dev BIP32Path prepareChunks device_chunk processErrorResponse).
Local Abbreviation signTxInternal :=
  (signTxInternal Dev BIP32Path serializePath prepareChunks device_chunk
     device_send processErrorResponse blake2b Buffer_toString).
Local Abbreviation signTransferTx :=
  (signTransferTx Dev BIP32Path serializePath prepareChunks device_chunk
     device_send processErrorResponse blake2b Buffer_toString).
Local Abbreviation signTransferCreateTx :=
  (signTransferCreateTx Dev BIP32Path serializePath prepareChunks device_chunk
     device_send processErrorResponse blake2b Buffer_toString).
Local Abbreviation signTransferCrossChainTx :=
  (signTransferCrossChainTx Dev BIP32Path serializePath prepareChunks
     device_chunk device_send processErrorResponse blake2b Buffer_toString).

Lemma getAddressAndPubKey_outcome
    (path : BIP32Path) (show : bool) (w : world)
    (out : result JS.bytes) (d : Dev) :
  device_send CLA INS_GET_ADDR (if show then 1 else 0) 0 (serializePath path)
    (device w) = (out, d) ->
  exists res : result ResponseAddress,
    getAddressAndPubKey path show w
    = (res,
       mkWorld d
         (trace w ++ [Build_event
                        (ReqSend CLA INS_GET_ADDR (if show then 1 else 0) 0
                           (serializePath path)) out])
         (heap w) (clock w))
    /\ (forall e, out = inl e -> res = inl (processErrorResponse e))
    /\ (forall resp, out = inr resp -> (32 <= List.length resp)%nat ->
          exists r, res = inr r
                    /\ pubkey r = firstn 32 resp
                    /\ address r = Buffer_toString (skipn 32 resp)
                    /\ List.length (pubkey r) = 32%nat).
Proof.
  intros Hsend.
  unfold getAddressAndPubKey, try_catch, bind, lift, ret, throw, transport_send.
  replace (if show then P1_SHOW_ADDRESS_IN_DEVICE else P1_ONLY_RETRIEVE)
    with (if show then 1 else 0) by (destruct show; reflexivity).
  rewrite Hsend. destruct out as [e|resp].
  - eexists. split; [reflexivity|]. split.
    + intros e' He. now inversion He.
    + intros resp He. discriminate.
  - unfold readBytes at 1. unfold PUBKEYLEN.
    destruct (Nat.leb_spec 32 (List.length resp)) as [Hlen|Hlen].
    + rewrite readBytes_all. eexists. split; [reflexivity|]. split.
      * intros e He. discriminate.
      * intros resp' He _. inversion He; subst resp'. eexists.
        split; [reflexivity|]. cbn [pubkey address fst].
        repeat split. rewrite length_firstn. lia.
    + eexists. split; [reflexivity|]. split.
      * intros e He. discriminate.
      * intros resp' He Hlen'. inversion He; subst resp'. lia.
Qed.

(** Address retrieval makes exactly one request, [GET_ADDR] with the
    display flag and the serialized path.  An error of the device comes
    back normalized; of a response of at least 32 bytes the first 32 are
    the public key and the rest is the address. *)
Theorem getAddressAndPubKey_request
    (path : BIP32Path) (show : bool) (w : world)
    (out : result JS.bytes) (d : Dev) :
  device_send CLA INS_GET_ADDR (if show then 1 else 0) 0 (serializePath path)
    (device w) = (out, d) ->
  exists res : result ResponseAddress,
    getAddressAndPubKey path show w
    = (res,
       mkWorld d
         (trace w ++ [Build_event
                        (ReqSend CLA INS_GET_ADDR (if show then 1 else 0) 0
                           (serializePath path)) out])
         (heap w) (clock w))
    /\ (forall e, out = inl e -> res = inl (processErrorResponse e))
    /\ (forall resp, out = inr resp -> (32 <= List.length resp)%nat ->
          exists r, res = inr r
                    /\ pubkey r = firstn 32 resp
                    /\ address r = Buffer_toString (skipn 32 resp)
                    /\ List.length (pubkey r) = 32%nat).
Proof. exact (getAddressAndPubKey_outcome path show w out d). Qed.

(** None of [sign], [signHash] and [getAddressAndPubKey] writes to a
    record of the caller or reads the clock forward: the objects and the
    clock are as before. *)
Theorem plain_operations_leave_records
    (path : BIP32Path) (blob : JS.bytes) (hash : hash_input) (show : bool)
    (w : world) :
  (heap (snd (sign path blob w)) = heap w
   /\ clock (snd (sign path blob w)) = clock w)
  /\ (heap (snd (signHash Dev BIP32Path prepareChunks device_chunk
                   processErrorResponse path hash w)) = heap w
      /\ clock (snd (signHash Dev BIP32Path prepareChunks device_chunk
                       processErrorResponse path hash w)) = clock w)
  /\ (heap (snd (getAddressAndPubKey path show w)) = heap w
      /\ clock (snd (getAddressAndPubKey path show w)) = clock w).
Proof.
  split; [|split].
  - rewrite (sign_run Dev BIP32Path prepareChunks device_chunk processErrorResponse).
    destruct (send_chunks_first Dev device_chunk INS_SIGN (prepareChunks path blob) w)
      as (out & w1 & _ & _ & -> & _ & _ & Hh & Hc).
    destruct out; split; assumption.
  - rewrite (signHash_run Dev BIP32Path prepareChunks device_chunk
               processErrorResponse).
    destruct (negb _); [split; reflexivity|].
    destruct (send_chunks_first Dev device_chunk INS_SIGN_HASH
                (prepareChunks path (rawHash hash)) w)
      as (out & w1 & _ & _ & -> & _ & _ & Hh & Hc).
    destruct out; split; assumption.
  - destruct (getAddressAndPubKey_run Dev BIP32Path serializePath device_send
                processErrorResponse Buffer_toString path show w)
      as (out & w1 & _ & -> & _ & _ & Hh & Hc).
    split; assumption.
Qed.

(** If [prepareChunks] yields no chunk, [sign] still makes one request,
    index 1 of 0 without data, and returns its response as the
    signature. *)
Theorem sign_without_chunks (path : BIP32Path) (blob : JS.bytes) (w : world)
    (out : result JS.bytes) (d : Dev) :
  prepareChunks path blob = [] ->
  device_chunk INS_SIGN 1 0 None (device w) = (out, d) ->
  sign path blob w
  = (match out with
     | inl e => inl (processErrorResponse e)
     | inr resp => inr {| signature := resp |}
     end,
     mkWorld d (trace w ++ [Build_event (ReqChunk INS_SIGN 1 0 None) out])
             (heap w) (clock w)).
Proof.
  intros Hnone Hdev.
  rewrite (sign_run Dev BIP32Path prepareChunks device_chunk processErrorResponse).
  rewrite Hnone. unfold send_chunks, bind, signSendChunk.
  cbn [List.length nth_error]. rewrite Hdev.
  destruct out; reflexivity.
Qed.

(** A request that fails validation ends in the validation error itself,
    not normalized, and nothing is sent.  [signTransferTx] and
    [signTransferCreateTx] have by then stored 0 in [recipient_chainId] of
    the record, and judge the record with that 0. *)
Theorem invalid_request_sends_nothing
    (path : BIP32Path) (params : ref) (w : world)
    (p : TransferCrossChainTxParams) (e : error) :
  nth_error (heap w) params = Some p ->
  (forall ty, checkTransferTxParamsSanity p = inl e ->
              signTxInternal path params ty w = (inl e, w))
  /\ (checkTransferTxParamsSanity (set_recipient_chainId 0 p) = inl e ->
      let w0 := mkWorld (device w) (trace w)
                  (list_set (heap w) params (set_recipient_chainId 0 p))
                  (clock w) in
      signTransferTx path params w = (inl e, w0)
      /\ signTransferCreateTx path params w = (inl e, w0))
  /\ (checkTransferTxParamsSanity p = inl e ->
      loose_eq (chainId p) (recipient_chainId p) = false ->
      signTransferCrossChainTx path params w = (inl e, w)).
Proof.
  intros Hp.
  assert (Hint : forall ty (w1 : world) q,
             nth_error (heap w1) params = Some q ->
             checkTransferTxParamsSanity q = inl e ->
             signTxInternal path params ty w1 = (inl e, w1)).
  { intros ty w1 q Hq Hbad.
    unfold signTxInternal, bind, getTime, deref, lift.
    rewrite Hq, Hbad. reflexivity. }
  split; [|split].
  - intros ty Hbad. now apply (Hint ty w p).
  - intros Hbad w0. split.
    + rewrite (signTransferTx_run Dev BIP32Path serializePath prepareChunks
                 device_chunk device_send processErrorResponse blake2b
                 Buffer_toString path params w p Hp).
      apply (Hint TRANSFER w0 (set_recipient_chainId 0 p)); [|assumption].
      now apply list_set_same with (x := p).
    + rewrite (signTransferCreateTx_run Dev BIP32Path serializePath prepareChunks
                 device_chunk device_send processErrorResponse blake2b
                 Buffer_toString path params w p Hp).
      apply (Hint TRANSFER_CREATE w0 (set_recipient_chainId 0 p)); [|assumption].
      now apply list_set_same with (x := p).
  - intros Hbad Hne.
    rewrite (signTransferCrossChainTx_run Dev BIP32Path serializePath prepareChunks
               device_chunk device_send processErrorResponse blake2b
               Buffer_toString path params w p Hp), Hne.
    now apply (Hint TRANSFER_CROSS_CHAIN w p).
Qed.

(** A valid request, step by step: the chunks of its payload, then the
    public key, then the document and its hash. *)
Lemma signTxInternal_valid (path : BIP32Path) (params : ref)
    (txType : TransferTxType) (w : world) (p : TransferCrossChainTxParams)
    (payload : JS.bytes) (ct : Z) :
  nth_error (heap w) params = Some p ->
  checkTransferTxParamsSanity p = inr tt ->
  signTxInternal_payload (clock w) p txType = inr (payload, ct) ->
  signTxInternal path params txType w
  = match send_chunks INS_SIGN_TRANSFER_TX (prepareChunks path payload) w with
    | (inl e, w1) => (inl (processErrorResponse e), w1)
    | (inr sig, w1) =>
        match getAddressAndPubKey path false w1 with
        | (inl e, w2) => (inl (processErrorResponse e), w2)
        | (inr a, w2) =>
            match buildTransferJson p (txType_tag txType)
                    (Buffer_toString_hex (pubkey a)) ct with
            | inl e => (inl (processErrorResponse e), w2)
            | inr json =>
                (inr {| tx_signature := sig; cmd := json;
                        hash := hash_of blake2b json |}, w2)
            end
        end
    end.
Proof.
  intros Hp Hok Hpay.
  unfold signTxInternal, bind, getTime, deref, lift, try_catch, ret, throw.
  rewrite Hp, Hok. cbv beta iota. rewrite Hp, Hpay. cbv beta iota.
  destruct (send_chunks_first Dev device_chunk INS_SIGN_TRANSFER_TX
              (prepareChunks path payload) w)
    as (out & w1 & ev0 & evs0 & Hsend & _ & _ & Hheap1 & _).
  rewrite Hsend. destruct out as [e0|sig]; [reflexivity|].
  destruct (getAddressAndPubKey_run Dev BIP32Path serializePath device_send
              processErrorResponse Buffer_toString path false w1)
    as (aout & w2 & ev & Haddr & _ & _ & Hheap2 & _).
  rewrite Haddr. destruct aout as [e|a]; [reflexivity|].
  assert (Hp2 : nth_error (heap w2) params = Some p) by congruence.
  rewrite Hp2.
  destruct (buildTransferJson p (txType_tag txType)
              (Buffer_toString_hex (pubkey a)) ct); [reflexivity|].
  rewrite readBytes_all. reflexivity.
Qed.

Lemma buildTransferJson_built (p : TransferCrossChainTxParams)
    (txType : TransferTxType) (pk : string) (ct rc : Z) :
  recipient_chainId p = Some rc ->
  exists json, buildTransferJson p (txType_tag txType) pk ct = inr json.
Proof.
  intros Hrc. unfold buildTransferJson. rewrite Hrc.
  destruct txType; cbn [txType_tag Z.eqb]; eexists; reflexivity.
Qed.

(** After the chunks of a valid request have been signed, a failure of
    the address retrieval is thrown normalized twice (by the retrieval and
    by the signing operation), and the signature is dropped. *)
Theorem address_failure_after_signing
    (path : BIP32Path) (params : ref) (txType : TransferTxType) (w w1 : world)
    (p : TransferCrossChainTxParams) (payload sig : JS.bytes) (ct : Z)
    (e : error) (d : Dev) :
  nth_error (heap w) params = Some p ->
  checkTransferTxParamsSanity p = inr tt ->
  signTxInternal_payload (clock w) p txType = inr (payload, ct) ->
  send_chunks INS_SIGN_TRANSFER_TX (prepareChunks path payload) w = (inr sig, w1) ->
  device_send CLA INS_GET_ADDR 0 0 (serializePath path) (device w1) = (inl e, d) ->
  signTxInternal path params txType w
  = (inl (processErrorResponse (processErrorResponse e)),
     mkWorld d
       (trace w1 ++ [Build_event (ReqSend CLA INS_GET_ADDR 0 0 (serializePath path))
                                 (inl e)])
       (heap w1) (clock w1)).
Proof.
  intros Hp Hok Hpay Hsend Hdev.
  rewrite (signTxInternal_valid path params txType w p payload ct Hp Hok Hpay), Hsend.
  destruct (getAddressAndPubKey_outcome path false w1 (inl e) d Hdev)
    as (res & -> & Herr & _).
  now rewrite (Herr e eq_refl).
Qed.

(** A valid request whose chunks are signed and whose address response
    has at least 32 bytes succeeds: the signature is the response to the
    last chunk, the document is built with the hexadecimal text of the
    first 32 bytes of the address response as the public key, and the hash
    is the identifier of that document. *)
Theorem signing_succeeds
    (path : BIP32Path) (params : ref) (txType : TransferTxType) (w w1 : world)
    (p : TransferCrossChainTxParams) (payload sig resp : JS.bytes) (ct : Z)
    (d : Dev) :
  nth_error (heap w) params = Some p ->
  checkTransferTxParamsSanity p = inr tt ->
  signTxInternal_payload (clock w) p txType = inr (payload, ct) ->
  send_chunks INS_SIGN_TRANSFER_TX (prepareChunks path payload) w = (inr sig, w1) ->
  device_send CLA INS_GET_ADDR 0 0 (serializePath path) (device w1) = (inr resp, d) ->
  (32 <= List.length resp)%nat ->
  exists json,
    buildTransferJson p (txType_tag txType)
      (Buffer_toString_hex (firstn 32 resp)) ct = inr json
    /\ signTxInternal path params txType w
       = (inr {| tx_signature := sig; cmd := json; hash := hash_of blake2b json |},
          mkWorld d
            (trace w1 ++ [Build_event
                            (ReqSend CLA INS_GET_ADDR 0 0 (serializePath path))
                            (inr resp)])
            (heap w1) (clock w1)).
Proof.
  intros Hp Hok Hpay Hsend Hdev Hlen.
  assert (Hrc : exists rc, recipient_chainId p = Some rc).
  { unfold signTxInternal_payload in Hpay.
    destruct (recipient_chainId p); [eauto | discriminate]. }
  destruct Hrc as [rc Hrc].
  destruct (buildTransferJson_built p txType
              (Buffer_toString_hex (firstn 32 resp)) ct rc Hrc) as [json Hjson].
  exists json. split; [exact Hjson|].
  rewrite (signTxInternal_valid path params txType w p payload ct Hp Hok Hpay), Hsend.
  destruct (getAddressAndPubKey_outcome path false w1 (inr resp) d Hdev)
    as (res & -> & _ & Hres).
  destruct (Hres resp eq_refl Hlen) as (r & -> & Hpk & _).
  now rewrite Hpk, Hjson.
Qed.

End Operations.

(* ===================================================================== *)
(** ** More on hash signing: what the decoders accept *)
(* ===================================================================== *)

Lemma hex_decode_length (n : nat) :
  forall cs : list ascii,
    List.length cs = (2 * n)%nat ->
    (List.length (Decode.hex cs) <= n)%nat
    /\ (List.length (Decode.hex cs) = n <-> forallb is_hex cs = true).
Proof.
  induction n as [|n IH]; intros cs Hlen.
  - destruct cs; [|discriminate]. simpl. split; [lia | split; reflexivity].
  - destruct cs as [|a [|b r]]; try (simpl in Hlen; lia).
    destruct (IH r) as [IHle IHiff]; [simpl in Hlen; lia|].
    cbn [Decode.hex forallb]. unfold is_hex at 1 2, JS.is_digit.
    destruct (JS.digit_val 16 a) as [x|]; [|simpl; split; [lia | split; [lia | discriminate]]].
    destruct (JS.digit_val 16 b) as [y|]; [|simpl; split; [lia | split; [lia | discriminate]]].
    cbn [List.length andb]. split; [lia|].
    rewrite <- IHiff. split; lia.
Qed.

(** A string of 64 characters passes the length guard of [signHash]
    exactly when all its characters are hexadecimal: decoding stops at the
    first pair that is not. *)
Theorem signHash_hex_guard (s : string) :
  JS.strlen s = 64%nat ->
  (List.length (rawHash (HashString s)) = 32%nat <-> is_hex64 s).
Proof.
  intros Hlen. unfold rawHash, is_hex64, Buffer_from_hex. rewrite Hlen.
  cbn [Nat.eqb].
  destruct (hex_decode_length 32 (JS.chars s)) as [_ Hiff];
    [rewrite chars_length; exact Hlen|].
  rewrite Hiff. split; [now split | now intros [_ H]].
Qed.

Lemma hex_byte_round_trip (b : Z) :
  is_byte b ->
  JS.digit_val 16 (hex_digit (Z.shiftr b 4)) = Some (b / 16)
  /\ JS.digit_val 16 (hex_digit (Z.land b 15)) = Some (b mod 16).
Proof.
  intros Hb.
  assert (H : forallb
                (fun b => match JS.digit_val 16 (hex_digit (Z.shiftr b 4)),
                                JS.digit_val 16 (hex_digit (Z.land b 15)) with
                          | Some x, Some y => (x =? b / 16) && (y =? b mod 16)
                          | _, _ => false
                          end) byte_range = true) by (vm_compute; reflexivity).
  pose proof (for_all_bytes _ H b Hb) as Hc. cbv beta in Hc.
  destruct (JS.digit_val 16 (hex_digit (Z.shiftr b 4))) as [x|]; [|discriminate].
  destruct (JS.digit_val 16 (hex_digit (Z.land b 15))) as [y|]; [|discriminate].
  apply andb_true_iff in Hc as [Hx Hy].
  apply Z.eqb_eq in Hx, Hy. rewrite Hx, Hy. split; reflexivity.
Qed.

Lemma hex_round_trip (bs : JS.bytes) :
  Forall is_byte bs ->
  Buffer_from_hex (Buffer_toString_hex bs) = bs
  /\ JS.strlen (Buffer_toString_hex bs) = (2 * List.length bs)%nat.
Proof.
  intros Hall. unfold Buffer_from_hex, Buffer_toString_hex.
  rewrite chars_of_list, strlen_of_list.
  induction Hall as [|b bs Hb _ [IH1 IH2]]; [split; reflexivity|].
  cbn [flat_map app Decode.hex List.length].
  destruct (hex_byte_round_trip b Hb) as [-> ->].
  rewrite IH1, IH2. split; [|lia].
  f_equal. pose proof (Z.div_mod b 16). lia.
Qed.

(** Hexadecimal text is read back as the bytes it was written from; so
    [signHash] given the hexadecimal text of a 32-byte hash signs those 32
    bytes. *)
Theorem signHash_reads_hex (bs : JS.bytes) :
  Forall is_byte bs ->
  Buffer_from_hex (Buffer_toString_hex bs) = bs
  /\ (List.length bs = 32%nat ->
      rawHash (HashString (Buffer_toString_hex bs)) = bs).
Proof.
  intros Hall. destruct (hex_round_trip bs Hall) as [Hrt Hlen].
  split; [exact Hrt|]. intros H32. unfold rawHash.
  rewrite Hlen, H32. cbn [Nat.mul Nat.add Nat.eqb]. exact Hrt.
Qed.

Lemma sextet_read_spec (x : Z) (cs : list ascii) :
  sextet_read x = true ->
  Decode.sextets (Base64.digit x :: cs) = x :: Decode.sextets cs
  /\ exists c, url_of (Base64.digit x :: cs) = c :: url_of cs
               /\ forall cs', Decode.sextets (c :: cs') = x :: Decode.sextets cs'.
Proof.
  unfold sextet_read. rewrite url_of_cons. cbn [Decode.sextets].
  destruct (Decode.unbase64 (Base64.digit x)) as [v|]; [|discriminate].
  destruct (to_url (Base64.digit x)) as [c|]; [|discriminate].
  intros H. apply andb_true_iff in H as [Hv Hc]. apply Z.eqb_eq in Hv.
  rewrite Hv. split; [reflexivity|]. exists c. split; [reflexivity|].
  intros cs'. cbn [Decode.sextets].
  destruct (Decode.unbase64 c) as [v'|]; [|discriminate].
  apply Z.eqb_eq in Hc. now rewrite Hc.
Qed.

Lemma base64_group_facts (a b : Z) :
  is_byte a -> is_byte b ->
  sextet_read (Z.shiftr a 2) = true
  /\ sextet_read (Z.lor (Z.shiftl (Z.land a 3) 4) (Z.shiftr b 4)) = true
  /\ sextet_read (Z.lor (Z.shiftl (Z.land a 15) 2) (Z.shiftr b 6)) = true
  /\ sextet_read (Z.land a 63) = true
  /\ sextet_read (Z.shiftl (Z.land a 3) 4) = true
  /\ sextet_read (Z.shiftl (Z.land a 15) 2) = true
  /\ Z.lor (Z.shiftl (Z.shiftr a 2) 2)
           (Z.shiftr (Z.lor (Z.shiftl (Z.land a 3) 4) (Z.shiftr b 4)) 4) = a
  /\ Z.land (Z.lor (Z.shiftl (Z.land a 3) 4) (Z.shiftr b 4)) 15 = Z.shiftr b 4
  /\ Z.lor (Z.shiftl (Z.shiftr a 4) 4)
           (Z.shiftr (Z.lor (Z.shiftl (Z.land a 15) 2) (Z.shiftr b 6)) 2) = a
  /\ Z.lor (Z.shiftl (Z.land (Z.lor (Z.shiftl (Z.land a 15) 2) (Z.shiftr b 6)) 3) 6)
           (Z.land b 63) = b
  /\ Z.lor (Z.shiftl (Z.shiftr a 2) 2) (Z.shiftr (Z.shiftl (Z.land a 3) 4) 4) = a
  /\ Z.land (Z.shiftl (Z.land a 3) 4) 15 = 0
  /\ Z.lor (Z.shiftl (Z.shiftr a 4) 4) (Z.shiftr (Z.shiftl (Z.land a 15) 2) 2) = a.
Proof.
  intros Ha Hb.
  assert (H : forallb (fun a => forallb (fun b =>
      sextet_read (Z.shiftr a 2)
      && sextet_read (Z.lor (Z.shiftl (Z.land a 3) 4) (Z.shiftr b 4))
      && sextet_read (Z.lor (Z.shiftl (Z.land a 15) 2) (Z.shiftr b 6))
      && sextet_read (Z.land a 63)
      && sextet_read (Z.shiftl (Z.land a 3) 4)
      && sextet_read (Z.shiftl (Z.land a 15) 2)
      && (Z.lor (Z.shiftl (Z.shiftr a 2) 2)
            (Z.shiftr (Z.lor (Z.shiftl (Z.land a 3) 4) (Z.shiftr b 4)) 4) =? a)
      && (Z.land (Z.lor (Z.shiftl (Z.land a 3) 4) (Z.shiftr b 4)) 15 =? Z.shiftr b 4)
      && (Z.lor (Z.shiftl (Z.shiftr a 4) 4)
            (Z.shiftr (Z.lor (Z.shiftl (Z.land a 15) 2) (Z.shiftr b 6)) 2) =? a)
      && (Z.lor (Z.shiftl (Z.land (Z.lor (Z.shiftl (Z.land a 15) 2) (Z.shiftr b 6)) 3) 6)
            (Z.land b 63) =? b)
      && (Z.lor (Z.shiftl (Z.shiftr a 2) 2) (Z.shiftr (Z.shiftl (Z.land a 3) 4) 4) =? a)
      && (Z.land (Z.shiftl (Z.land a 3) 4) 15 =? 0)
      && (Z.lor (Z.shiftl (Z.shiftr a 4) 4) (Z.shiftr (Z.shiftl (Z.land a 15) 2) 2) =? a))
      byte_range) byte_range = true) by (vm_compute; reflexivity).
  pose proof (for_all_byte_pairs _ H a b Ha Hb) as Hc. cbv beta in Hc.
  repeat (apply andb_true_iff in Hc; destruct Hc as [Hc ?]).
  repeat match goal with H : (_ =? _) = true |- _ => apply Z.eqb_eq in H end.
  repeat split; assumption.
Qed.

Lemma base64_round_trip (n : nat) :
  forall bs : JS.bytes,
    (List.length bs <= n)%nat ->
    Forall is_byte bs ->
    Decode.base64 (Base64.encode bs) = bs
    /\ Decode.base64 (url_of (Base64.encode bs)) = bs.
Proof.
  unfold Decode.base64.
  induction n as [|n IH]; intros bs Hlen Hbytes.
  - destruct bs; [split; reflexivity | simpl in Hlen; lia].
  - destruct bs as [|a [|b [|c r]]].
    + split; reflexivity.
    + inversion Hbytes as [|? ? Ha _]; subst.
      destruct (base64_group_facts a a Ha Ha)
        as (S1 & _ & _ & _ & S2 & _ & _ & _ & _ & _ & R1 & _).
      cbn [Base64.encode].
      destruct (sextet_read_spec _ [Base64.digit (Z.shiftl (Z.land a 3) 4); "="; "="]%char S1)
        as (E1 & c1 & U1 & D1).
      destruct (sextet_read_spec _ ["="; "="]%char S2) as (E2 & c2 & U2 & D2).
      rewrite E1, E2, U1, U2, D1, D2.
      change (Decode.sextets ["="; "="]%char) with (@nil Z).
      change (Decode.sextets (url_of ["="; "="]%char)) with (@nil Z).
      cbn [Decode.group]. rewrite R1. split; reflexivity.
    + inversion Hbytes as [|? ? Ha Hb']; subst.
      inversion Hb' as [|? ? Hb _]; subst.
      destruct (base64_group_facts a b Ha Hb)
        as (S1 & S2 & _ & _ & _ & _ & R1 & P1 & _).
      destruct (base64_group_facts b b Hb Hb)
        as (_ & _ & _ & _ & _ & S3 & _ & _ & _ & _ & _ & _ & R2).
      cbn [Base64.encode].
      destruct (sextet_read_spec _
                  [Base64.digit (Z.lor (Z.shiftl (Z.land a 3) 4) (Z.shiftr b 4));
                   Base64.digit (Z.shiftl (Z.land b 15) 2); "="%char] S1)
        as (E1 & c1 & U1 & D1).
      destruct (sextet_read_spec _
                  [Base64.digit (Z.shiftl (Z.land b 15) 2); "="%char] S2)
        as (E2 & c2 & U2 & D2).
      destruct (sextet_read_spec _ ["="%char] S3) as (E3 & c3 & U3 & D3).
      rewrite E1, E2, E3, U1, U2, U3, D1, D2, D3.
      change (Decode.sextets ["="]%char) with (@nil Z).
      change (Decode.sextets (url_of ["="]%char)) with (@nil Z).
      cbn [Decode.group]. rewrite R1, P1, R2. split; reflexivity.
    + inversion Hbytes as [|? ? Ha Hb']; subst.
      inversion Hb' as [|? ? Hb Hc']; subst.
      inversion Hc' as [|? ? Hc Hr]; subst.
      destruct (IH r) as [IHstd IHurl]; [simpl in Hlen; lia | assumption |].
      destruct (base64_group_facts a b Ha Hb)
        as (S1 & S2 & _ & _ & _ & _ & R1 & P1 & _).
      destruct (base64_group_facts b c Hb Hc)
        as (_ & _ & S3 & _ & _ & _ & _ & _ & R2 & R3 & _).
      destruct (base64_group_facts c c Hc Hc) as (_ & _ & _ & S4 & _).
      cbn [Base64.encode].
      set (rest := Base64.encode r) in *.
      destruct (sextet_read_spec _
                  (Base64.digit (Z.lor (Z.shiftl (Z.land a 3) 4) (Z.shiftr b 4))
                   :: Base64.digit (Z.lor (Z.shiftl (Z.land b 15) 2) (Z.shiftr c 6))
                   :: Base64.digit (Z.land c 63) :: rest) S1)
        as (E1 & c1 & U1 & D1).
      destruct (sextet_read_spec _
                  (Base64.digit (Z.lor (Z.shiftl (Z.land b 15) 2) (Z.shiftr c 6))
                   :: Base64.digit (Z.land c 63) :: rest) S2)
        as (E2 & c2 & U2 & D2).
      destruct (sextet_read_spec _ (Base64.digit (Z.land c 63) :: rest) S3)
        as (E3 & c3 & U3 & D3).
      destruct (sextet_read_spec _ rest S4) as (E4 & c4 & U4 & D4).
      rewrite E1, E2, E3, E4, U1, U2, U3, U4, D1, D2, D3, D4.
      cbn [Decode.group]. rewrite R1, P1, R2, R3, IHstd, IHurl.
      split; reflexivity.
Qed.

Lemma base64_encode_length_32 (bs : JS.bytes) :
  List.length bs = 32%nat -> List.length (Base64.encode bs) = 44%nat.
Proof.
  intros H.
  do 32 (destruct bs as [|? bs]; [discriminate H|]).
  destruct bs; [reflexivity | discriminate H].
Qed.

(** Base64 text, padded or in the unpadded URL-safe form of a hash
    identifier, is read back as the bytes it was written from.  So the
    hash a transfer operation returns, given to [signHash], is decoded to
    the 32-byte digest of the document; and so is the padded base64 text
    of any 32-byte hash. *)
Theorem signHash_reads_base64
    (blake2b : nat -> JS.bytes -> JS.bytes) (json : string) (bs : JS.bytes) :
  (Forall is_byte bs ->
   Buffer_from_base64 (string_of_list_ascii (Base64.encode bs)) = bs
   /\ (List.length bs = 32%nat ->
       rawHash (HashString (string_of_list_ascii (Base64.encode bs))) = bs))
  /\ (List.length (blake2b 32%nat (JS.utf8 json)) = 32%nat ->
      Forall is_byte (blake2b 32%nat (JS.utf8 json)) ->
      rawHash (HashString (hash_of blake2b json)) = blake2b 32%nat (JS.utf8 json)).
Proof.
  split.
  - intros Hall.
    destruct (base64_round_trip (List.length bs) bs (Nat.le_refl _) Hall) as [Hstd _].
    unfold Buffer_from_base64. rewrite chars_of_list. split; [exact Hstd|].
    intros H32. unfold rawHash, Buffer_from_base64.
    rewrite strlen_of_list, (base64_encode_length_32 bs H32), chars_of_list.
    exact Hstd.
  - intros H32 Hall.
    destruct (base64_round_trip 32 (blake2b 32%nat (JS.utf8 json))
                (Nat.eq_le_incl _ _ H32) Hall) as [_ Hurl].
    destruct (hash_of_digest_32 blake2b json H32 Hall) as (_ & Hlen & _).
    unfold rawHash. rewrite Hlen. cbn [Nat.eqb].
    unfold Buffer_from_base64, hash_of. rewrite chars_of_list. exact Hurl.
Qed.

(* ===================================================================== *)
(** ** The further properties at concrete requests *)
(* ===================================================================== *)

Lemma tagged_fields_inj_witness :
  1 = 1 /\ ["testnet"; "5.0"] = ["testnet"; "5.0"].
Proof.
  apply (tagged_fields_inj 1 1 ["testnet"; "5.0"] ["testnet"; "5.0"]).
  - repeat (apply Forall_cons;
            [split; [unfold is_ascii_text; cbn [JS.chars list_ascii_of_string];
                     repeat (apply Forall_cons; [vm_compute; reflexivity|]);
                     apply Forall_nil
                    | simpl; lia]|]).
    apply Forall_nil.
  - repeat (apply Forall_cons;
            [split; [unfold is_ascii_text; cbn [JS.chars list_ascii_of_string];
                     repeat (apply Forall_cons; [vm_compute; reflexivity|]);
                     apply Forall_nil
                    | simpl; lia]|]).
    apply Forall_nil.
  - reflexivity.
Defined.

Lemma convertDecimal_digits_witness : convertDecimal (Str "10") = "10.0".
Proof.
  apply (convertDecimal_digits "10").
  - vm_compute. reflexivity.
  - simpl. lia.
Defined.

Lemma validated_payload_size_witness :
  Forall (fun f => (JS.strlen f <= 64)%nat)
         (normalized_fields 0 complete_intent 1)
  /\ exists payload,
       signTxInternal_payload 0 complete_intent TRANSFER_CROSS_CHAIN
       = inr (payload, 1700000000)
       /\ (List.length payload <= 277)%nat
       /\ Forall is_byte payload.
Proof.
  apply (validated_payload_size 0 complete_intent TRANSFER_CROSS_CHAIN
           1700000000 1).
  - vm_compute. reflexivity.
  - reflexivity.
  - reflexivity.
Defined.

Lemma k_prefix_is_ignored_witness :
  checkTransferTxParamsSanity (with_recipient ("k:" +:+ hex64) complete_intent)
  = checkTransferTxParamsSanity (with_recipient hex64 complete_intent)
  /\ signTxInternal_payload 0 (with_recipient ("k:" +:+ hex64) complete_intent)
       TRANSFER
     = signTxInternal_payload 0 (with_recipient hex64 complete_intent) TRANSFER
  /\ buildTransferJson (with_recipient ("k:" +:+ hex64) complete_intent)
       (txType_tag TRANSFER) sim_pubkey_hex 1700000000
     = buildTransferJson (with_recipient hex64 complete_intent)
         (txType_tag TRANSFER) sim_pubkey_hex 1700000000.
Proof.
  apply (k_prefix_is_ignored hex64 complete_intent 0 TRANSFER sim_pubkey_hex
           1700000000).
  vm_compute. reflexivity.
Defined.

Lemma document_ignores_module_without_namespace_witness :
  buildTransferJson (with_module (Some "free") complete_intent) 0
    sim_pubkey_hex 1700000000
  = buildTransferJson complete_intent 0 sim_pubkey_hex 1700000000.
Proof.
  apply (document_ignores_module_without_namespace complete_intent (Some "free")
           0 sim_pubkey_hex 1700000000).
  reflexivity.
Defined.

Lemma invalid_request_sends_nothing_witness :
  sim_signTxInternal Sim.path0 0%nat TRANSFER_CROSS_CHAIN
    (Sim.start [bad_amount_intent])
  = (inl (TypeError "amount is non a number"), Sim.start [bad_amount_intent]).
Proof.
  apply (proj1 (invalid_request_sends_nothing Sim.Dev Sim.BIP32Path
                  Sim.serializePath Sim.prepareChunks Sim.device_chunk
                  Sim.device_send Sim.processErrorResponse Blake2b.digest
                  Sim.Buffer_toString Sim.path0 0%nat
                  (Sim.start [bad_amount_intent]) bad_amount_intent
                  (TypeError "amount is non a number") eq_refl)).
  vm_compute. reflexivity.
Defined.

Lemma getAddressAndPubKey_request_witness :
  exists r,
    fst (getAddressAndPubKey Sim.Dev Sim.BIP32Path Sim.serializePath
           Sim.device_send Sim.processErrorResponse Sim.Buffer_toString
           Sim.path0 true (Sim.start [])) = inr r
    /\ pubkey r = Sim.the_pubkey
    /\ address r = "k:" +:+ sim_pubkey_hex.
Proof.
  destruct (getAddressAndPubKey_request Sim.Dev Sim.BIP32Path Sim.serializePath
              Sim.device_send Sim.processErrorResponse Sim.Buffer_toString
              Sim.path0 true (Sim.start [])
              (inr (Sim.the_pubkey
                      ++ JS.utf8 ("k:" +:+ Buffer_toString_hex Sim.the_pubkey)))
              (Sim.next (device (Sim.start []))) eq_refl)
    as (res & Hrun & _ & Hok).
  destruct (Hok _ eq_refl) as (r & Hres & Hpk & Haddr & _).
  - vm_compute. lia.
  - exists r. rewrite Hrun. split; [exact Hres|].
    split; [rewrite Hpk | rewrite Haddr]; vm_compute; reflexivity.
Defined.

Lemma sign_without_chunks_witness :
  sign Sim.Dev Sim.BIP32Path (fun _ _ => []) Sim.device_chunk
    Sim.processErrorResponse Sim.path0 [1; 2; 3] (Sim.start [])
  = (inr {| signature := [] |},
     mkWorld (Sim.next (device (Sim.start [])))
       (trace (Sim.start []) ++ [Build_event (ReqChunk INS_SIGN 1 0 None) (inr [])])
       (heap (Sim.start [])) (clock (Sim.start []))).
Proof.
  apply (sign_without_chunks Sim.Dev Sim.BIP32Path (fun _ _ => [])
           Sim.device_chunk Sim.processErrorResponse Sim.path0 [1; 2; 3]
           (Sim.start []) (inr []) (Sim.next (device (Sim.start [])))).
  - reflexivity.
  - reflexivity.
Defined.

Lemma address_failure_after_signing_witness :
  fst (sim_signTxInternal Sim.path0 0%nat TRANSFER_CROSS_CHAIN
         (sim_start_rejecting 3 [complete_intent]))
  = inl (ResponseError 0x6986 "Transaction rejected")
  /\ List.length
       (trace (snd (sim_signTxInternal Sim.path0 0%nat TRANSFER_CROSS_CHAIN
                      (sim_start_rejecting 3 [complete_intent]))))
     = 3%nat.
Proof.
  unfold sim_signTxInternal.
  rewrite (address_failure_after_signing Sim.Dev Sim.BIP32Path Sim.serializePath
             Sim.prepareChunks Sim.device_chunk Sim.device_send
             Sim.processErrorResponse Blake2b.digest Sim.Buffer_toString
             Sim.path0 0%nat TRANSFER_CROSS_CHAIN
             (sim_start_rejecting 3 [complete_intent])
             (snd (sim_send_chunks INS_SIGN_TRANSFER_TX
                     (Sim.prepareChunks Sim.path0
                        (tagged_fields 2
                           (normalized_fields 0 complete_intent 1)))
                     (sim_start_rejecting 3 [complete_intent])))
             complete_intent
             (tagged_fields 2 (normalized_fields 0 complete_intent 1))
             Sim.the_signature 1700000000
             (ResponseError 0x6986 "Transaction rejected")
             {| Sim.served := 3; Sim.rejects := Some 3%nat |}).
  - split; vm_compute; reflexivity.
  - reflexivity.
  - vm_compute. reflexivity.
  - vm_compute. reflexivity.
  - vm_compute. reflexivity.
  - vm_compute. reflexivity.
Defined.

Lemma signing_succeeds_witness :
  exists json,
    buildTransferJson complete_intent (txType_tag TRANSFER_CROSS_CHAIN)
      sim_pubkey_hex 1700000000 = inr json
    /\ fst (sim_signTxInternal Sim.path0 0%nat TRANSFER_CROSS_CHAIN
              (Sim.start [complete_intent]))
       = inr {| tx_signature := Sim.the_signature; cmd := json;
                hash := hash_of Blake2b.digest json |}.
Proof.
  destruct (signing_succeeds Sim.Dev Sim.BIP32Path Sim.serializePath
              Sim.prepareChunks Sim.device_chunk Sim.device_send
              Sim.processErrorResponse Blake2b.digest Sim.Buffer_toString
              Sim.path0 0%nat TRANSFER_CROSS_CHAIN
              (Sim.start [complete_intent])
              (snd (sim_send_chunks INS_SIGN_TRANSFER_TX
                      (Sim.prepareChunks Sim.path0
                         (tagged_fields 2
                            (normalized_fields 0 complete_intent 1)))
                      (Sim.start [complete_intent])))
              complete_intent
              (tagged_fields 2 (normalized_fields 0 complete_intent 1))
              Sim.the_signature
              (Sim.the_pubkey ++ JS.utf8 ("k:" +:+ Buffer_toString_hex Sim.the_pubkey))
              1700000000
              {| Sim.served := 3; Sim.rejects := None |})
    as (json & Hjson & Hrun).
  - reflexivity.
  - vm_compute. reflexivity.
  - vm_compute. reflexivity.
  - vm_compute. reflexivity.
  - vm_compute. reflexivity.
  - vm_compute. lia.
  - exists json. split.
    + rewrite <- Hjson. vm_compute. reflexivity.
    + unfold sim_signTxInternal. rewrite Hrun. reflexivity.
Defined.

Lemma signHash_hex_guard_witness :
  List.length (rawHash (HashString hex64)) = 32%nat.
Proof.
  apply (proj2 (signHash_hex_guard hex64 eq_refl)).
  vm_compute. split; reflexivity.
Defined.

Lemma signHash_reads_hex_witness :
  rawHash (HashString (Buffer_toString_hex Sim.the_pubkey)) = Sim.the_pubkey.
Proof.
  apply (proj2 (signHash_reads_hex Sim.the_pubkey
                  ltac:(unfold Sim.the_pubkey; cbn [repeat];
                        repeat (apply Forall_cons; [unfold is_byte; lia|]);
                        apply Forall_nil))).
  reflexivity.
Defined.

Lemma signHash_reads_base64_witness :
  rawHash (HashString (hash_of Blake2b.digest "{}"))
  = Blake2b.digest 32 (JS.utf8 "{}").
Proof.
  apply (proj2 (signHash_reads_base64 Blake2b.digest "{}" [])).
  - vm_compute. reflexivity.
  - set (d := Blake2b.digest 32 (JS.utf8 "{}")). vm_compute in d. subst d.
    repeat (apply Forall_cons; [unfold is_byte; lia|]). apply Forall_nil.
Defined.
